(* ===================================================================== *)
(* napari-usg-masker: the mask store, the label registry, the frame      *)
(* cursor and the persistence layer of USGMaskerWidget (_widget.py) and  *)
(* the reader hook napari_get_reader (_reader.py), as a shallow          *)
(* embedding, with the properties of the specification proved over it.   *)
(* ===================================================================== *)

From Stdlib Require Import ZArith Lia Ascii String DecimalString.
From Stdlib Require Import Decimal DecimalNat.
From stdpp Require Import gmap strings list fin_maps sorting.

Local Open Scope Z_scope.

(* --------------------------------------------------------------------- *)
(* Python builtins used by the persistence code                          *)
(* --------------------------------------------------------------------- *)

Module Py.

(** [str(i)] on an int: decimal digits, a minus sign when negative. *)
Definition digits (n : nat) : string :=
  NilZero.string_of_uint (Nat.to_uint n).

Definition str (z : Z) : string :=
  if z <? 0 then String "-" (digits (Z.abs_nat z)) else digits (Z.to_nat z).

(** The white space that [int()] strips from ASCII text: 9..13 and 32. The
    separators 28..31, which [str.strip] drops, are a ValueError for it. *)
Definition is_space (c : ascii) : bool :=
  let n := nat_of_ascii c in
  ((9 <=? n) && (n <=? 13) || (n =? 32))%nat.

Definition digit_val (c : ascii) : option nat :=
  let n := nat_of_ascii c in
  if ((48 <=? n) && (n <=? 57))%nat then Some (n - 48)%nat else None.

Fixpoint lstrip (s : string) : string :=
  match s with
  | String c r => if is_space c then lstrip r else s
  | EmptyString => EmptyString
  end.

(** [rstrip] drops the trailing white space: a character is kept when it is
    not white space or when something is kept after it. *)
Fixpoint rstrip (s : string) : string :=
  match s with
  | EmptyString => EmptyString
  | String c r =>
      match rstrip r with
      | EmptyString => if is_space c then EmptyString else String c EmptyString
      | r' => String c r'
      end
  end.

(** The digit part of an int literal: decimal digits, single underscores
    allowed between two digits. [prev] says that the previous character was
    a digit. *)
Fixpoint parse_digits (acc : nat) (prev : bool) (s : string) : option nat :=
  match s with
  | EmptyString => if prev then Some acc else None
  | String c r =>
      match digit_val c with
      | Some d => parse_digits (10 * acc + d)%nat true r
      | None =>
          if (Ascii.eqb c "_" && prev)%bool then
            match r with
            | EmptyString => None
            | String c' _ =>
                match digit_val c' with
                | Some _ => parse_digits acc false r
                | None => None
                end
            end
          else None
      end
  end.

(** [int(s)] on a str, base 10; [None] stands for ValueError. The model reads
    ASCII text: sign, digits, underscores and surrounding white space. *)
Definition int (s : string) : option Z :=
  match rstrip (lstrip s) with
  | String "-" r => (fun n => - Z.of_nat n) <$> parse_digits 0 false r
  | String "+" r => Z.of_nat <$> parse_digits 0 false r
  | t => Z.of_nat <$> parse_digits 0 false t
  end.

(** [f"{i:04d}"] for an index of [range(T)]: zero padded to four places. *)
Definition fmt04 (i : nat) : string :=
  let d := digits i in
  String.concat "" (repeat "0"%string (4 - String.length d)) +:+ d.

(** [str.lower()] on ASCII text. *)
Definition lower_ascii (c : ascii) : ascii :=
  let n := nat_of_ascii c in
  if ((65 <=? n) && (n <=? 90))%nat then ascii_of_nat (n + 32) else c.

Fixpoint lower (s : string) : string :=
  match s with
  | EmptyString => EmptyString
  | String c r => String (lower_ascii c) (lower r)
  end.

(** [needle in haystack] on two strs. *)
Fixpoint contains (needle hay : string) : bool :=
  String.prefix needle hay ||
  match hay with
  | EmptyString => false
  | String _ r => contains needle r
  end.

End Py.

(* --------------------------------------------------------------------- *)
(* numpy arrays, as far as the widget uses them                          *)
(* --------------------------------------------------------------------- *)

Module Np.

(** An array: its shape and its elements in row-major order. Masks are
    [uint16], frames [uint8]; the elements are kept as integers and the
    range of the dtype is a separate predicate. *)
Record ndarray : Type := mk_array { shape : list nat; data : list Z }.

#[global] Instance ndarray_eq_dec : EqDecision ndarray.
Proof. solve_decision. Defined.

Definition size_of (sh : list nat) : nat := foldr Nat.mul 1%nat sh.

Definition is_uint16 (z : Z) : bool := (0 <=? z) && (z <? 65536).

(** The array holds as many elements as its shape says, all of them in the
    range of [uint16]. *)
Definition wf_uint16 (a : ndarray) : bool :=
  (length (data a) =? size_of (shape a))%nat && forallb is_uint16 (data a).

(** [np.zeros(shape, dtype=np.uint16)] *)
Definition zeros (sh : list nat) : ndarray :=
  mk_array sh (repeat 0 (size_of sh)).

(** [a.copy()]: a fresh array with the same content. *)
Definition copy (a : ndarray) : ndarray := a.

(** [a.astype(np.uint16)]: a C cast, values wrap modulo 2^16. *)
Definition astype_uint16 (a : ndarray) : ndarray :=
  mk_array (shape a) (map (fun z => z mod 65536) (data a)).

(** [n] consecutive chunks of [k] elements. *)
Fixpoint chunks (n k : nat) (d : list Z) : list (list Z) :=
  match n with
  | O => []
  | S n' => take k d :: chunks n' k (drop k d)
  end.

(** [a.tolist()] on a mask of the store: the rows of a 2-D array; the only
    other shape a stored mask can have is [(0,)], whose list is empty. *)
Definition tolist (a : ndarray) : list (list Z) :=
  match shape a with
  | [h; w] => chunks h w (data a)
  | _ => []
  end.

(** [np.array(rows, dtype=np.uint16)] on a list of lists of ints: [None]
    stands for the exception numpy raises on ragged rows (ValueError) and on
    a value outside the dtype (OverflowError). An empty list gives the 1-D
    array of shape [(0,)]. *)
Definition array_uint16 (rows : list (list Z)) : option ndarray :=
  match rows with
  | [] => Some (mk_array [0%nat] [])
  | r :: _ =>
      if forallb (fun r' => (length r' =? length r)%nat) rows
         && forallb (forallb is_uint16) rows
      then Some (mk_array [length rows; length r] (concat rows))
      else None
  end.

(** The dimensions of a source array seen against a 2-D target: numpy aligns
    shapes to the right and drops leading dimensions of extent 1. *)
Fixpoint as_2d (sh : list nat) : option (nat * nat) :=
  match sh with
  | [] => Some (1, 1)%nat
  | [w] => Some (1, w)%nat
  | [h; w] => Some (h, w)
  | d :: sh' => if (d =? 1)%nat then as_2d sh' else None
  end.

(** [target[i] = src] for a target slice of shape [(H, W)]: the new content
    of the slice, or [None] for numpy's broadcast error. *)
Definition broadcast_2d (H W : nat) (src : ndarray) : option (list Z) :=
  match as_2d (shape src) with
  | Some (h, w) =>
      if ((h =? H) || (h =? 1))%nat && ((w =? W) || (w =? 1))%nat then
        Some (flat_map (fun r =>
                map (fun c =>
                  nth ((if (h =? 1)%nat then 0 else r) * w
                       + (if (w =? 1)%nat then 0 else c))%nat (data src) 0)
                  (seq 0 W))
                (seq 0 H))
      else None
  | None => None
  end.

(** [colored[mask == value]] with [colored] of shape [(H, W, 3)]: a boolean
    index must agree with the indexed array on every axis it covers. *)
Fixpoint bool_index_ok (idx tgt : list nat) : bool :=
  match idx, tgt with
  | [], _ => true
  | i :: idx', t :: tgt' => (i =? t)%nat && bool_index_ok idx' tgt'
  | _ :: _, [] => false
  end.

End Np.

(* --------------------------------------------------------------------- *)
(* Data model of the widget                                             *)
(* --------------------------------------------------------------------- *)

(** A registry colour: the three or four components of [config['color']]. *)
Inductive color : Type :=
  | RGB (r g b : Z)
  | RGBA (r g b a : Z).

#[global] Instance color_eq_dec : EqDecision color.
Proof. solve_decision. Defined.

(** [color[:3]] *)
Definition rgb (c : color) : Z * Z * Z :=
  match c with RGB r g b | RGBA r g b _ => (r, g, b) end.

(** [color + [255]] when the colour has three components. *)
Definition rgba (c : color) : Z * Z * Z * Z :=
  match c with RGB r g b => (r, g, b, 255) | RGBA r g b a => (r, g, b, a) end.

Record label_entry : Type := mk_label { value : Z; label_color : color }.

#[global] Instance label_entry_eq_dec : EqDecision label_entry.
Proof. solve_decision. Defined.

(** [labels_config]: a dict from label name to entry; Python keeps the order
    of insertion, which decides which colour wins in a colormap. *)
Abbreviation registry := (list (string * label_entry)).

Definition DEFAULT_LABELS : registry :=
  [ ("background"%string, mk_label 0 (RGBA 0 0 0 255));
    ("metastatic_lymph_node"%string, mk_label 1 (RGBA 255 0 0 255));
    ("clean_lymph_node"%string, mk_label 2 (RGBA 0 255 0 255)) ].

(** [name in labels_config] and [labels_config[name]]. *)
Definition reg_lookup (name : string) (cfg : registry) : option label_entry :=
  snd <$> find (fun p => bool_decide (fst p = name)) cfg.

Definition reg_mem (name : string) (cfg : registry) : bool :=
  bool_decide (is_Some (reg_lookup name cfg)).

(** [labels_config[name] = e]: in place for a known name, appended else. *)
Fixpoint reg_set (name : string) (e : label_entry) (cfg : registry) : registry :=
  match cfg with
  | [] => [(name, e)]
  | (n, e') :: rest =>
      if bool_decide (n = name) then (n, e) :: rest
      else (n, e') :: reg_set name e rest
  end.

Definition reg_values (cfg : registry) : list Z := map (fun p => value (snd p)) cfg.

(** [max(config['value'] for config in labels_config.values())]; [None] is
    the ValueError of [max] on an empty sequence. *)
Definition max_value (cfg : registry) : option Z :=
  match reg_values cfg with
  | [] => None
  | v :: vs => Some (foldl Z.max v vs)
  end.

(** The decoded video: [np.array] of the grayscale frames, of shape
    [(T, H, W)]. imageio yields at least one frame for a readable video, so
    the first frame is a field of its own; a frame is its [H * W] pixels. *)
Record video : Type := mk_video {
  v_height : nat;
  v_width : nat;
  v_first : list Z;
  v_rest : list (list Z)
}.

Definition v_frames (v : video) : list (list Z) := v_first v :: v_rest v.

(** [len(video_data)] *)
Definition v_len (v : video) : nat := length (v_frames v).

Definition frame_shape (v : video) : list nat := [v_height v; v_width v].

(** [current_video[i]] with Python's indexing: a negative index counts from
    the end, [None] is IndexError. *)
Definition v_index (v : video) (i : Z) : option Np.ndarray :=
  let T := Z.of_nat (v_len v) in
  if (0 <=? i) && (i <? T) then
    Np.mk_array (frame_shape v) <$> v_frames v !! Z.to_nat i
  else if (- T <=? i) && (i <? 0) then
    Np.mk_array (frame_shape v) <$> v_frames v !! Z.to_nat (i + T)
  else None.

(** The napari Labels layer the widget paints on. napari keeps the array it
    was given: [layer_shared] records that [data] is the very array stored
    in [current_masks] for the current frame (the branch of create_new_mask
    that allocates), so that a brush stroke also changes the stored mask. *)
Record labels_layer : Type := mk_layer {
  layer_data : Np.ndarray;
  layer_shared : bool;
  selected_label : Z;
  layer_brush_size : Z
}.

(** QSlider: range and value; [setValue] clamps to the range. *)
Record slider : Type := mk_slider { s_min : Z; s_max : Z; s_value : Z }.

Record widget : Type := mk_widget {
  current_video : option video;
  current_video_path : option string;
  current_masks : gmap Z Np.ndarray;
  current_frame : Z;
  total_frames : Z;
  labels_config : registry;
  current_label : Z;
  brush_size : Z;
  mask_layer : option labels_layer;
  video_layer : bool;
  frame_slider : slider
}.

(** [USGMaskerWidget.__init__] *)
Definition init : widget :=
  {| current_video := None; current_video_path := None;
     current_masks := ∅; current_frame := 0; total_frames := 0;
     labels_config := DEFAULT_LABELS; current_label := 1; brush_size := 10;
     mask_layer := None; video_layer := false;
     frame_slider := mk_slider 0 0 0 |}.

Definition set_masks (m : gmap Z Np.ndarray) (s : widget) : widget :=
  mk_widget (current_video s) (current_video_path s) m (current_frame s)
    (total_frames s) (labels_config s) (current_label s) (brush_size s)
    (mask_layer s) (video_layer s) (frame_slider s).

Definition set_frame (f : Z) (s : widget) : widget :=
  mk_widget (current_video s) (current_video_path s) (current_masks s) f
    (total_frames s) (labels_config s) (current_label s) (brush_size s)
    (mask_layer s) (video_layer s) (frame_slider s).

Definition set_labels (cfg : registry) (s : widget) : widget :=
  mk_widget (current_video s) (current_video_path s) (current_masks s)
    (current_frame s) (total_frames s) cfg (current_label s) (brush_size s)
    (mask_layer s) (video_layer s) (frame_slider s).

Definition set_layer (l : option labels_layer) (s : widget) : widget :=
  mk_widget (current_video s) (current_video_path s) (current_masks s)
    (current_frame s) (total_frames s) (labels_config s) (current_label s)
    (brush_size s) l (video_layer s) (frame_slider s).

Definition set_slider (sl : slider) (s : widget) : widget :=
  mk_widget (current_video s) (current_video_path s) (current_masks s)
    (current_frame s) (total_frames s) (labels_config s) (current_label s)
    (brush_size s) (mask_layer s) (video_layer s) sl.

(** What the user is shown: the QMessageBox calls. *)
Inductive message : Type :=
  | Information (text : string)
  | Warning (text : string)
  | Critical (text : string).

(** What a file written by the widget holds. *)
Record video_info : Type := mk_video_info {
  vi_total_frames : Z;
  vi_frame_shape : option (list nat);
  vi_masked_frames : list Z
}.

(** The JSON mask document, as [json.load] returns it: the top-level keys
    may be missing; [masks] maps the decimal frame index to the rows of the
    mask. *)
Record mask_document : Type := mk_document {
  doc_masks : option (list (string * list (list Z)));
  doc_labels_config : option registry;
  doc_video_info : option video_info;
  doc_creation_date : option string
}.

Record export_metadata : Type := mk_export_metadata {
  em_video_path : option string;
  em_total_frames : Z;
  em_frame_shape : list nat;
  em_masked_frames : list Z;
  em_labels_config : registry
}.

Inductive payload : Type :=
  | Png (a : Np.ndarray)
  | PngRgb (h w : nat) (pixels : list (Z * Z * Z))
  | Npy (a : Np.ndarray)
  | JsonMasks (d : mask_document)
  | JsonExport (m : export_metadata).

(** The world an action runs in: the widget, the messages shown so far and
    the files written so far, oldest first. *)
Record world : Type := mk_world {
  wd : widget;
  shown : list message;
  written : list (string * payload)
}.

(** An action either returns or raises; the world it leaves is kept in both
    cases, as an exception does not undo assignments. *)
Inductive result (A : Type) : Type :=
  | Ok (a : A)
  | Exc.
Arguments Ok {A} a.
Arguments Exc {A}.

Definition M (A : Type) : Type := world → result A * world.

#[global] Instance M_ret : MRet M := fun A a w => (Ok a, w).
#[global] Instance M_bind : MBind M := fun A B f m w =>
  match m w with
  | (Ok a, w') => f a w'
  | (Exc, w') => (Exc, w')
  end.

Definition raise {A} : M A := fun w => (Exc, w).
Definition get : M widget := fun w => (Ok (wd w), w).
Definition modify (f : widget → widget) : M unit :=
  fun w => (Ok tt, mk_world (f (wd w)) (shown w) (written w)).
Definition show (m : message) : M unit :=
  fun w => (Ok tt, mk_world (wd w) (shown w ++ [m]) (written w)).
Definition write (path : string) (p : payload) : M unit :=
  fun w => (Ok tt, mk_world (wd w) (shown w) (written w ++ [(path, p)])).

(** [x = opt] where [None] is an exception. *)
Definition lift {A} (o : option A) : M A :=
  match o with Some a => mret a | None => raise end.

(** [try: body  except Exception: handler] *)
Definition try_except (body handler : M unit) : M unit :=
  fun w =>
    match body w with
    | (Ok tt, w') => (Ok tt, w')
    | (Exc, w') => handler w'
    end.

Fixpoint for_each {A} (l : list A) (body : A → M unit) : M unit :=
  match l with
  | [] => mret tt
  | x :: r => body x ;; for_each r body
  end.

Definition when (b : bool) (m : M unit) : M unit := if b then m else mret tt.

(** Running an action from a widget state, with nothing shown or written. *)
Definition run {A} (m : M A) (s : widget) : result A * world :=
  m (mk_world s [] []).
Definition exec {A} (m : M A) (s : widget) : widget := wd (snd (run m s)).
Definition raised {A} (r : result A * world) : bool :=
  match fst r with Exc => true | Ok _ => false end.

(* --------------------------------------------------------------------- *)
(* USGMaskerWidget: colormap, statistics, mask layer                    *)
(* --------------------------------------------------------------------- *)

(** Python's [a[v] = x] on an axis of extent [n]: the position written, or
    [None] for IndexError. *)
Definition norm_index (n v : Z) : option nat :=
  if (0 <=? v) && (v <? n) then Some (Z.to_nat v)
  else if (- n <=? v) && (v <? 0) then Some (Z.to_nat (v + n))
  else None.

(** [create_colormap]: one RGBA row per label value up to the largest one
    (the rows are kept before their division by 255.0). [None] is the
    exception of [max] on an empty registry, of [np.zeros] on a negative
    extent, or of a row index out of range. *)
Definition create_colormap (cfg : registry) : option (list (Z * Z * Z * Z)) :=
  mx ← max_value cfg;
  if mx + 1 <? 0 then None
  else
    foldl (fun acc p =>
             rows ← acc;
             i ← norm_index (mx + 1) (value (snd p));
             Some (<[i := rgba (label_color (snd p))]> rows))
          (Some (repeat (0, 0, 0, 0) (Z.to_nat (mx + 1)))) cfg.

(** The first two lines of [update_statistics]: the number of frames with a
    mask against the number of frames, and the number of labelled pixels;
    [None] is the text shown for an empty store. *)
Record statistics : Type := mk_statistics {
  frames_with_masks : nat;
  frames_total : Z;
  total_pixels : nat
}.

Definition update_statistics (s : widget) : option statistics :=
  if bool_decide (current_masks s = ∅) then None
  else Some (mk_statistics
               (size (current_masks s))
               (total_frames s)
               (map_fold (fun _ m acc => (acc + Np.size_of (Np.shape m))%nat)
                         0%nat (current_masks s))).

(** [self.current_masks[self.current_frame] = a]: the entry is a new array,
    so a layer that shared the old one no longer does. *)
Definition unshare (l : labels_layer) : labels_layer :=
  mk_layer (layer_data l) false (selected_label l) (layer_brush_size l).

Definition store_current (a : Np.ndarray) (s : widget) : widget :=
  set_layer (unshare <$> mask_layer s)
    (set_masks (<[current_frame s := a]> (current_masks s)) s).

(** [create_new_mask]: the mask of the current frame is shown in a new
    Labels layer; a frame without a stored mask gets a zero mask, which is
    put into the store and handed to the layer as it is. Removing the old
    layer fires [on_layer_removed], which clears [mask_layer]. *)
Definition create_new_mask : M unit :=
  s ← get;
  match current_video s with
  | None => show (Warning "Please load a video first")
  | Some v =>
      frame ← lift (v_index v (current_frame s));
      l ← match current_masks s !! current_frame s with
          | Some m =>
              mret (mk_layer (Np.copy m) false (current_label s) (brush_size s))
          | None =>
              let mask_data := Np.zeros (Np.shape frame) in
              modify (set_masks (<[current_frame s := mask_data]> (current_masks s)));;
              mret (mk_layer mask_data true (current_label s) (brush_size s))
          end;
      modify (set_layer None);;
      _ ← lift (create_colormap (labels_config s));
      modify (set_layer (Some l))
  end.

(** [on_mask_changed] *)
Definition on_mask_changed : M unit :=
  s ← get;
  match mask_layer s with
  | Some l => modify (store_current (Np.copy (layer_data l)))
  | None => mret tt
  end.

(** A brush stroke of the viewer on the mask layer: the selected label is
    written in place at the painted positions (row-major offsets; a stroke
    is clipped to the array). The stored mask changes with it when the layer
    shares its array with the store. *)
Definition paint (offsets : list nat) : M unit :=
  s ← get;
  match mask_layer s with
  | Some l =>
      let a := layer_data l in
      let d := foldr (fun i d => <[i := selected_label l mod 65536]> d)
                     (Np.data a) offsets in
      let a' := Np.mk_array (Np.shape a) d in
      modify (set_layer (Some (mk_layer a' (layer_shared l) (selected_label l)
                                         (layer_brush_size l))));;
      when (layer_shared l)
        (modify (set_masks (<[current_frame s := a']> (current_masks s))))
  | None => mret tt
  end.

(* --------------------------------------------------------------------- *)
(* Frame cursor                                                          *)
(* --------------------------------------------------------------------- *)

(** [change_frame(frame_index)]: the slot of the slider's valueChanged. *)
Definition change_frame (frame_index : Z) : M unit :=
  s ← get;
  match current_video s with
  | None => mret tt
  | Some _ =>
      match mask_layer s with
      | Some l => modify (store_current (Np.copy (layer_data l)))
      | None => mret tt
      end;;
      modify (set_frame frame_index);;
      create_new_mask
  end.

(** QAbstractSlider: the value is bound to the range. *)
Definition bound (sl : slider) (v : Z) : Z := Z.max (s_min sl) (Z.min (s_max sl) v).

(** [frame_slider.setValue(v)]: valueChanged is emitted when the bound value
    differs from the current one, and runs [change_frame]; an exception of
    the slot is reported by the toolkit and does not reach the caller. *)
Definition set_value (v : Z) : M unit :=
  s ← get;
  let sl := frame_slider s in
  let v' := bound sl v in
  if bool_decide (v' = s_value sl) then mret tt
  else
    modify (set_slider (mk_slider (s_min sl) (s_max sl) v'));;
    try_except (change_frame v') (mret tt).

(** [frame_slider.setMaximum(mx)]: Qt sets the range to
    [(min(minimum, mx), mx)] and binds the value again. *)
Definition set_maximum (mx : Z) : M unit :=
  s ← get;
  let sl := frame_slider s in
  let mn := Z.min (s_min sl) mx in
  let mx' := Z.max mn mx in
  if bool_decide (mn = s_min sl) && bool_decide (mx' = s_max sl) then mret tt
  else
    modify (set_slider (mk_slider mn mx' (s_value sl)));;
    set_value (s_value sl).

(** [prev_frame] *)
Definition prev_frame : M unit :=
  s ← get;
  if 0 <? current_frame s then
    match mask_layer s with
    | Some l => modify (store_current (Np.copy (layer_data l)))
    | None => mret tt
    end;;
    set_value (current_frame s - 1)
  else mret tt.

(** [next_frame] *)
Definition next_frame : M unit :=
  s ← get;
  if current_frame s <? total_frames s - 1 then
    match mask_layer s with
    | Some l => modify (store_current (Np.copy (layer_data l)))
    | None => mret tt
    end;;
    set_value (current_frame s + 1)
  else mret tt.

(** [copy_from_previous] *)
Definition copy_from_previous : M unit :=
  s ← get;
  if 0 <? current_frame s then
    match current_masks s !! (current_frame s - 1) with
    | Some m =>
        modify (store_current (Np.copy m));;
        create_new_mask;;
        show (Information "Copied mask from previous frame")
    | None => show (Warning "No mask found in previous frame")
    end
  else show (Warning "Already at first frame").

(** [copy_to_next] *)
Definition copy_to_next : M unit :=
  s ← get;
  if current_frame s <? total_frames s - 1 then
    match current_masks s !! current_frame s with
    | Some m =>
        modify (set_masks (<[current_frame s + 1 := Np.copy m]> (current_masks s)));;
        show (Information "Copied mask to next frame")
    | None => show (Warning "No mask found in current frame")
    end
  else show (Warning "Already at last frame").

(** [clear_current_mask]; [reply_yes] is the answer to the question box. *)
Definition clear_current_mask (reply_yes : bool) : M unit :=
  s ← get;
  match current_video s with
  | None => mret tt
  | Some v =>
      when reply_yes
        (frame ← lift (v_index v (current_frame s));
         modify (store_current (Np.zeros (Np.shape frame)));;
         create_new_mask)
  end.

(* --------------------------------------------------------------------- *)
(* Label registry                                                        *)
(* --------------------------------------------------------------------- *)

(** What the two dialogs of [add_custom_label] return: the text and the OK
    flag of QInputDialog.getText, and the colour picked in QColorDialog
    ([None] when the dialog is cancelled, the colour then being invalid). *)
Record label_dialog : Type := mk_label_dialog {
  dlg_name : string;
  dlg_ok : bool;
  dlg_color : option (Z * Z * Z)
}.

(** [add_custom_label] *)
Definition add_custom_label (d : label_dialog) : M unit :=
  s ← get;
  if negb (dlg_ok d) || bool_decide (dlg_name d = ""%string) then mret tt
  else if reg_mem (dlg_name d) (labels_config s) then
    show (Warning "Label name already exists")
  else
    mx ← lift (max_value (labels_config s));
    let new_value := mx + 1 in
    match dlg_color d with
    | Some (r, g, b) =>
        let cfg := reg_set (dlg_name d) (mk_label new_value (RGBA r g b 255))
                           (labels_config s) in
        modify (set_labels cfg);;
        match mask_layer s with
        | Some _ => _ ← lift (create_colormap cfg); mret tt
        | None => mret tt
        end
    | None => mret tt
    end.

(* --------------------------------------------------------------------- *)
(* Loading a video                                                       *)
(* --------------------------------------------------------------------- *)

(** What imageio makes of the chosen file: an exception, or the frames. *)
Inductive reader_result : Type :=
  | ReadError
  | ReadVideo (v : video).

Definition set_video (path : string) (v : video) (s : widget) : widget :=
  mk_widget (Some v) (Some path) ∅ 0 (Z.of_nat (v_len v))
    (labels_config s) (current_label s) (brush_size s) None true
    (frame_slider s).

(** [load_video]; [file_path] is what the file dialog returned, the empty
    string when it was cancelled. *)
Definition load_video (file_path : string) (r : reader_result) : M unit :=
  if bool_decide (file_path = ""%string) then mret tt
  else
    try_except
      (s ← get;
       match mask_layer s, current_video s with
       | Some l, Some _ => modify (store_current (Np.copy (layer_data l)))
       | _, _ => mret tt
       end;;
       match r with
       | ReadError => raise
       | ReadVideo v =>
           modify (set_video file_path v);;
           set_maximum (Z.of_nat (v_len v) - 1);;
           set_value 0;;
           create_new_mask;;
           show (Information "Loaded video")
       end)
      (show (Critical "Failed to load video")).

(* --------------------------------------------------------------------- *)
(* Persistence: the JSON mask document                                   *)
(* --------------------------------------------------------------------- *)

(** What reading a JSON file gives: [open] fails, [json.load] fails, or the
    decoded content. *)
Inductive file_read (A : Type) : Type :=
  | Unreadable
  | Malformed
  | Parsed (a : A).
Arguments Unreadable {A}.
Arguments Malformed {A}.
Arguments Parsed {A} a.

Definition json_load {A} (f : file_read A) : M A :=
  match f with Parsed a => mret a | _ => raise end.

(** The document [save_masks] builds: [save_data]. *)
Definition save_data (now : string) (s : widget) : mask_document :=
  {| doc_masks :=
       Some (map (fun p => (Py.str (fst p), Np.tolist (snd p)))
                 (map_to_list (current_masks s)));
     doc_labels_config := Some (labels_config s);
     doc_video_info :=
       Some (mk_video_info (total_frames s)
               (frame_shape <$> current_video s)
               (map fst (map_to_list (current_masks s))));
     doc_creation_date := Some now |}.

(** [save_masks]; [file_path] comes from the save dialog, [can_open] says
    whether the file can be opened for writing, [now] is the date stamp. *)
Definition save_masks (file_path : string) (can_open : bool) (now : string) : M unit :=
  s ← get;
  if bool_decide (current_masks s = ∅) then show (Warning "No masks to save")
  else if bool_decide (file_path = ""%string) then mret tt
  else
    try_except
      (let d := save_data now s in
       (if can_open then write file_path (JsonMasks d) else raise);;
       show (Information "Masks saved"))
      (show (Critical "Failed to save masks")).

(** The loop of [load_masks] over [load_data['masks'].items()]. *)
Definition load_one (p : string * list (list Z)) : M unit :=
  frame_idx ← lift (Py.int (fst p));
  a ← lift (Np.array_uint16 (snd p));
  modify (fun s => set_masks (<[frame_idx := a]> (current_masks s)) s).

(** [load_masks] *)
Definition load_masks (file_path : string) (f : file_read mask_document) : M unit :=
  if bool_decide (file_path = ""%string) then mret tt
  else
    try_except
      (load_data ← json_load f;
       match doc_labels_config load_data with
       | Some cfg => modify (set_labels cfg)
       | None => mret tt
       end;;
       match doc_masks load_data with
       | Some masks =>
           modify (fun s => set_layer (unshare <$> mask_layer s) (set_masks ∅ s));;
           for_each masks load_one
       | None => mret tt
       end;;
       s ← get;
       match mask_layer s with
       | Some _ => create_new_mask
       | None => mret tt
       end;;
       show (Information "Loaded masks"))
      (show (Critical "Failed to load masks")).

(** A label configuration file: the registry under the key
    [labels_config], or the registry as the whole document. *)
Inductive config_document : Type :=
  | Wrapped (cfg : registry)
  | Bare (cfg : registry).

(** [load_label_config] *)
Definition load_label_config (file_path : string) (f : file_read config_document) : M unit :=
  if bool_decide (file_path = ""%string) then mret tt
  else
    try_except
      (config_data ← json_load f;
       let cfg := match config_data with Wrapped c | Bare c => c end in
       modify (set_labels cfg);;
       s ← get;
       match mask_layer s with
       | Some _ => _ ← lift (create_colormap cfg); mret tt
       | None => mret tt
       end;;
       show (Information "Label configuration loaded"))
      (show (Critical "Failed to load configuration")).

(* --------------------------------------------------------------------- *)
(* Persistence: bulk export                                              *)
(* --------------------------------------------------------------------- *)

Fixpoint fold_m {A S} (l : list A) (body : A → S → M S) (acc : S) : M S :=
  match l with
  | [] => mret acc
  | x :: r => acc' ← body x acc; fold_m r body acc'
  end.

(** [{cfg['value']: cfg['color'][:3] for _, cfg in labels_config.items()}]:
    a later entry replaces an earlier one with the same value. *)
Definition export_colormap (cfg : registry) : gmap Z (Z * Z * Z) :=
  foldl (fun m p => <[value (snd p) := rgb (label_color (snd p))]> m) ∅ cfg.

(** The colorized mask: black where no label value matches. *)
Definition colorize (H W : nat) (cm : gmap Z (Z * Z * Z)) (mask : Np.ndarray)
  : list (Z * Z * Z) :=
  if bool_decide (Np.shape mask = [H; W]) then
    map (fun z => default (0, 0, 0) (cm !! z)) (Np.data mask)
  else repeat (0, 0, 0) (H * W).

Definition frame_png (root : string) (i : nat) : string :=
  root +:+ "/frames_png/frame_" +:+ Py.fmt04 i +:+ ".png".
Definition frame_npy (root : string) (i : nat) : string :=
  root +:+ "/frames_npy/frame_" +:+ Py.fmt04 i +:+ ".npy".
Definition mask_raw_png (root : string) (i : nat) : string :=
  root +:+ "/masks_png/mask_raw_frame_" +:+ Py.fmt04 i +:+ ".png".
Definition mask_color_png (root : string) (i : nat) : string :=
  root +:+ "/masks_png/mask_color_frame_" +:+ Py.fmt04 i +:+ ".png".
Definition mask_npy (root : string) (i : nat) : string :=
  root +:+ "/masks_npy/mask_frame_" +:+ Py.fmt04 i +:+ ".npy".
Definition frames_stack_npy (root : string) : string := root +:+ "/frames_stack.npy".
Definition masks_stack_npy (root : string) : string := root +:+ "/masks_stack.npy".
Definition export_metadata_json (root : string) : string :=
  root +:+ "/export_metadata.json".

Section BulkExport.

(** The image codec is an external collaborator: [imwrite_ok a] says whether
    [imageio.imwrite] accepts the 2-D array [a]. *)
Variable imwrite_ok : Np.ndarray → bool.

Definition imwrite (path : string) (a : Np.ndarray) : M unit :=
  if imwrite_ok a then write path (Png a) else raise.

(** The body of the loop over [range(T)]; the two stacks are the slices of
    [frames_stack] and [masks_stack]. *)
Definition export_frame (root : string) (v : video) (masks : gmap Z Np.ndarray)
    (cm : gmap Z (Z * Z * Z)) (H W : nat) (i : nat)
    (stacks : list (list Z) * list (list Z)) : M (list (list Z) * list (list Z)) :=
  frame ← lift (v_index v (Z.of_nat i));
  let frames_stack := <[i := Np.data frame]> (fst stacks) in
  imwrite (frame_png root i) frame;;
  write (frame_npy root i) (Npy frame);;
  match masks !! Z.of_nat i with
  | Some m =>
      let mask := Np.astype_uint16 m in
      slice ← lift (Np.broadcast_2d H W mask);
      let masks_stack := <[i := slice]> (snd stacks) in
      imwrite (mask_raw_png root i) mask;;
      (if bool_decide (cm = ∅) || Np.bool_index_ok (Np.shape mask) [H; W; 3%nat]
       then mret tt else raise);;
      write (mask_color_png root i) (PngRgb H W (colorize H W cm mask));;
      write (mask_npy root i) (Npy mask);;
      mret (frames_stack, masks_stack)
  | None => mret (frames_stack, snd stacks)
  end.

(** [export_frames_and_masks_png_npy]; [folder_path] is what the folder
    dialog returned. *)
Definition export_frames_and_masks_png_npy (folder_path : string) : M unit :=
  s ← get;
  match current_video s with
  | None => show (Warning "Please load a video first")
  | Some v =>
      if bool_decide (folder_path = ""%string) then mret tt
      else
        try_except
          (let cm := export_colormap (labels_config s) in
           let T := Z.to_nat (total_frames s) in
           let H := v_height v in
           let W := v_width v in
           let zero := repeat (repeat 0 (H * W)%nat) T in
           stacks ← fold_m (seq 0 T)
                      (export_frame folder_path v (current_masks s) cm H W)
                      (zero, zero);
           write (frames_stack_npy folder_path)
                 (Npy (Np.mk_array [T; H; W] (concat (fst stacks))));;
           write (masks_stack_npy folder_path)
                 (Npy (Np.mk_array [T; H; W] (concat (snd stacks))));;
           write (export_metadata_json folder_path)
                 (JsonExport
                    (mk_export_metadata (current_video_path s) (total_frames s)
                       [H; W]
                       (merge_sort Z.le (map fst (map_to_list (current_masks s))))
                       (labels_config s)));;
           show (Information "Exported frames and masks"))
          (show (Critical "Failed to export data"))
  end.

End BulkExport.

(* --------------------------------------------------------------------- *)
(* _reader.py: napari_get_reader                                         *)
(* --------------------------------------------------------------------- *)

(** [Path(p).name]: the last component of a POSIX path; pathlib drops empty
    components and components that are a single dot. [last] is the last
    component kept so far, [cur] the component being read. *)
Definition keep_component (last cur : string) : string :=
  if bool_decide (cur = ""%string) || bool_decide (cur = "."%string)
  then last else cur.

Fixpoint path_name_aux (last cur : string) (s : string) : string :=
  match s with
  | EmptyString => keep_component last cur
  | String c r =>
      if Ascii.eqb c "/" then path_name_aux (keep_component last cur) EmptyString r
      else path_name_aux last (cur +:+ String c EmptyString) r
  end.

Definition path_name (p : string) : string :=
  path_name_aux EmptyString EmptyString p.

(** The position of the last dot of [s], counted from [i]. *)
Fixpoint rfind_dot (i : nat) (s : string) : option nat :=
  match s with
  | EmptyString => None
  | String c r =>
      match rfind_dot (S i) r with
      | Some j => Some j
      | None => if Ascii.eqb c "." then Some i else None
      end
  end.

(** [Path(p).suffix]: the name from its last dot on, when that dot is
    neither the first nor the last character of the name. *)
Definition path_suffix (p : string) : string :=
  let name := path_name p in
  match rfind_dot 0 name with
  | Some i =>
      if ((0 <? i) && (i <? String.length name - 1))%nat
      then String.substring i (String.length name - i) name
      else EmptyString
  | None => EmptyString
  end.

(** The argument of the hook: a path or a list of paths. *)
Inductive path_arg : Type :=
  | OnePath (p : string)
  | PathList (l : list string).

(** What the hook finds when it opens the file; an error other than
    IOError and JSONDecodeError is not caught by the hook. *)
Inductive probe : Type :=
  | ProbeIOError
  | ProbeDecodeError
  | ProbeOtherError
  | ProbeJson (is_dict has_masks has_labels_config : bool).

Inductive reader : Type := read_mask_data.

Definition mask_keywords : list string :=
  ["mask"; "usg"; "label"; "annotation"]%string.

Section Reader.

(** The file system, as far as the hook reads it. *)
Variable open_json : string → probe.

(** [napari_get_reader]: [Ok None] is the return of None, [Exc] an
    exception that leaves the hook. *)
Definition napari_get_reader (path : path_arg) : result (option reader) :=
  let single :=
    match path with
    | OnePath p => Some p
    | PathList [p] => Some p
    | PathList _ => None
    end in
  match single with
  | None => Ok None
  | Some p =>
      if negb (bool_decide (Py.lower (path_suffix p) = ".json"%string)) then Ok None
      else if existsb (fun k => Py.contains k (Py.lower (path_name p))) mask_keywords
      then Ok (Some read_mask_data)
      else
        match open_json p with
        | ProbeJson true true true => Ok (Some read_mask_data)
        | ProbeOtherError => Exc
        | _ => Ok None
        end
  end.

End Reader.


(* --------------------------------------------------------------------- *)
(* Sessions: the actions of the user, one after the other                *)
(* --------------------------------------------------------------------- *)

(** The event loop runs one handler after the other, each on the state the
    previous one left, whether it returned or raised. *)
Definition after (actions : list (M unit)) (s : widget) : widget :=
  foldl (fun s a => exec a s) s actions.

(** Frame navigation: the two buttons, and the slider dragged to a position
    (Qt binds the position and emits valueChanged as [setValue] does). *)
Inductive navigation : Type :=
  | Previous
  | Next
  | SliderTo (position : Z).

Definition navigate (n : navigation) : M unit :=
  match n with
  | Previous => prev_frame
  | Next => next_frame
  | SliderTo v => set_value v
  end.

(** Text made of decimal digits only. *)
Fixpoint all_digits (s : string) : bool :=
  match s with
  | EmptyString => true
  | String c r => bool_decide (is_Some (Py.digit_val c)) && all_digits r
  end.

(** The argument of the reader hook seen as one path, when it is one. *)
Definition single_path (path : path_arg) : option string :=
  match path with
  | OnePath p => Some p
  | PathList [p] => Some p
  | PathList _ => None
  end.

(* --------------------------------------------------------------------- *)
(* Vocabulary of the statements                                          *)
(* --------------------------------------------------------------------- *)

(** [wp m Q w]: run from [w], [m] ends, returning or raising, in a world
    that satisfies [Q]. *)
Definition wp {A} (m : M A) (Q : result A → world → Prop) (w : world) : Prop :=
  Q (fst (m w)) (snd (m w)).
Arguments wp {A} m Q w : simpl never.

(** What [create_new_mask] leaves alone. *)
Definition same_context (s s' : widget) : Prop :=
  current_video s' = current_video s ∧
  current_video_path s' = current_video_path s ∧
  current_frame s' = current_frame s ∧
  total_frames s' = total_frames s ∧
  labels_config s' = labels_config s ∧
  frame_slider s' = frame_slider s.

(** The store after the mask of frame [i] of [v] has been asked for: a frame
    without a mask gets a zero mask of the frame's shape. *)
Definition visited (v : video) (i : Z) (st : gmap Z Np.ndarray) : gmap Z Np.ndarray :=
  match v_index v i with
  | Some frame =>
      match st !! i with
      | Some _ => st
      | None => <[i := Np.zeros (Np.shape frame)]> st
      end
  | None => st
  end.

(** What [create_new_mask] does to the store. *)
Definition lazily_filled (s s' : widget) : Prop :=
  current_masks s' =
    match current_video s with
    | Some v => visited v (current_frame s) (current_masks s)
    | None => current_masks s
    end.

(** The store once the mask on the layer has been written back. *)
Definition persisted (s : widget) : gmap Z Np.ndarray :=
  match mask_layer s with
  | Some l => <[current_frame s := layer_data l]> (current_masks s)
  | None => current_masks s
  end.

(** What [create_new_mask] does to the layer: nothing when it stops before
    touching it; else the old layer is gone and the new one, if the colormap
    could be built, shows the stored mask of the current frame. *)
Definition layer_shown (s s' : widget) : Prop :=
  s' = s ∨
  mask_layer s' = None ∨
  ∃ l, mask_layer s' = Some l ∧
       current_masks s' !! current_frame s = Some (layer_data l).

(** What navigation leaves alone. *)
Definition same_video (s s' : widget) : Prop :=
  current_video s' = current_video s ∧
  current_video_path s' = current_video_path s ∧
  total_frames s' = total_frames s ∧
  labels_config s' = labels_config s.

(** The frame cursor and the slider after a video of [T] frames is loaded. *)
Definition cursor_inv (T : Z) (s : widget) : Prop :=
  total_frames s = T ∧
  s_min (frame_slider s) = 0 ∧
  s_max (frame_slider s) = T - 1 ∧
  0 ≤ current_frame s < T.

(** The widget holds the video [vo] (or none), and every mask it holds, in
    the store and on the layer, satisfies [P]. *)
Definition masks_all (vo : option video) (P : Np.ndarray → Prop) (s : widget) : Prop :=
  current_video s = vo ∧
  (∀ i m, current_masks s !! i = Some m → P m) ∧
  (∀ l, mask_layer s = Some l → P (layer_data l)).

(** A mask has the shape of the frames of the loaded video; without a
    video nothing is asked. *)
Definition shape_ok (vo : option video) (m : Np.ndarray) : Prop :=
  match vo with
  | Some v => Np.shape m = frame_shape v
  | None => True
  end.

(** The shape invariant: every mask held has the shape of the frames of the
    loaded video. *)
Definition shape_inv (s : widget) : Prop :=
  masks_all (current_video s) (shape_ok (current_video s)) s.

(* --------------------------------------------------------------------- *)
(* Bulk export, frame by frame                                           *)
(* --------------------------------------------------------------------- *)

Section export_vocabulary.
Context (imwrite_ok : Np.ndarray → bool) (root : string) (v : video)
  (masks : gmap Z Np.ndarray) (cm : gmap Z (Z * Z * Z)) (H W : nat).

(** The round of the export loop for frame [i] runs to its end. *)
Definition exportable (i : nat) : bool :=
  match v_index v (Z.of_nat i) with
  | Some frame =>
      imwrite_ok frame &&
      match masks !! Z.of_nat i with
      | Some m =>
          let mask := Np.astype_uint16 m in
          bool_decide (is_Some (Np.broadcast_2d H W mask)) &&
          imwrite_ok mask &&
          (bool_decide (cm = ∅) || Np.bool_index_ok (Np.shape mask) [H; W; 3%nat])
      | None => true
      end
  | None => false
  end.

(** The files of frame [i]: the frame pair, then the mask triple when the
    store has a mask for [i]. *)
Definition frame_artifacts (i : nat) : list (string * payload) :=
  match v_index v (Z.of_nat i) with
  | Some frame => [(frame_png root i, Png frame); (frame_npy root i, Npy frame)]
  | None => []
  end.

Definition mask_artifacts (i : nat) : list (string * payload) :=
  match masks !! Z.of_nat i with
  | Some m =>
      let mask := Np.astype_uint16 m in
      [(mask_raw_png root i, Png mask);
       (mask_color_png root i, PngRgb H W (colorize H W cm mask));
       (mask_npy root i, Npy mask)]
  | None => []
  end.

Definition artifacts (i : nat) : list (string * payload) :=
  frame_artifacts i ++ mask_artifacts i.

(** Slice [i] of the two stacks once the loop is through. *)
Definition frame_entry (i : nat) : list Z :=
  default [] (Np.data <$> v_index v (Z.of_nat i)).

Definition mask_entry (i : nat) : list Z :=
  match masks !! Z.of_nat i with
  | Some m => default [] (Np.broadcast_2d H W (Np.astype_uint16 m))
  | None => repeat 0 (H * W)%nat
  end.

End export_vocabulary.

(** [a[i]] on a stack of shape [(T, H, W)]. *)
Definition stack_slice (a : Np.ndarray) (i : nat) : option Np.ndarray :=
  match Np.shape a with
  | [T; H; W] =>
      if (i <? T)%nat
      then Some (Np.mk_array [H; W] (take (H * W) (drop (i * (H * W)) (Np.data a))))
      else None
  | _ => None
  end.

(** The export reported success. *)
Definition export_succeeds (imwrite_ok : Np.ndarray → bool) (root : string)
    (s : widget) : Prop :=
  shown (snd (run (export_frames_and_masks_png_npy imwrite_ok root) s))
  = [Information "Exported frames and masks"].

(** The five per-frame files of the export layout. *)
Inductive artifact_kind : Type :=
  | FramePng | FrameNpy | MaskRawPng | MaskColorPng | MaskNpy.

#[global] Instance artifact_kind_eq_dec : EqDecision artifact_kind.
Proof. solve_decision. Defined.

Definition artifact_path (root : string) (k : artifact_kind) (i : nat) : string :=
  match k with
  | FramePng => frame_png root i
  | FrameNpy => frame_npy root i
  | MaskRawPng => mask_raw_png root i
  | MaskColorPng => mask_color_png root i
  | MaskNpy => mask_npy root i
  end.

Definition is_mask_kind (k : artifact_kind) : bool :=
  match k with
  | FramePng | FrameNpy => false
  | MaskRawPng | MaskColorPng | MaskNpy => true
  end.

(** How many times a file was written. *)
Fixpoint count_path (p : string) (log : list (string * payload)) : nat :=
  match log with
  | [] => 0
  | e :: r => ((if bool_decide (e.1 = p) then 1 else 0) + count_path p r)%nat
  end.

(* --------------------------------------------------------------------- *)
(* Sample sessions                                                       *)
(* --------------------------------------------------------------------- *)

(** A clip of three frames of 1 x 2 pixels. *)
Definition clip3 : video := mk_video 1 2 [10; 20] [[30; 40]; [50; 60]].

(** The widget after [clip3] was loaded, and after a stroke on frame 0. *)
Definition loaded3 : widget := exec (load_video "clip.mp4" (ReadVideo clip3)) init.
Definition painted3 : widget := exec (paint [1%nat]) loaded3.

(** The widget after a clip whose frames have no rows was loaded. *)
Definition flat0 : widget :=
  exec (load_video "flat.mp4" (ReadVideo (mk_video 0 3 [] []))) init.

(** A mask document whose second frame index is not a number, and one whose
    mask has not the shape of the frames of [clip3]. *)
Definition bad_key_document : mask_document :=
  {| doc_masks := Some [("0"%string, [[5; 5]]); ("x"%string, [[1; 2]])];
     doc_labels_config := Some [("only"%string, mk_label 7 (RGB 1 2 3))];
     doc_video_info := None;
     doc_creation_date := None |}.

Definition wide_document : mask_document :=
  {| doc_masks := Some [("0"%string, [[1; 2; 3]])];
     doc_labels_config := None;
     doc_video_info := None;
     doc_creation_date := None |}.

(** The example of the specification: three frames of 5 x 5 pixels, a zero
    mask on frame 0 and a mask of ones on frame 2, reached by moving the
    slider to frame 2 and painting label 1 over the whole frame. *)
Definition clip5 : video :=
  mk_video 5 5 (repeat 7 25) [repeat 8 25; repeat 9 25].

Definition spec_example : widget :=
  exec (paint (seq 0 25))
    (exec (set_value 2) (exec (load_video "clip5.mp4" (ReadVideo clip5)) init)).

(* --------------------------------------------------------------------- *)
(* Everything the user can do                                            *)
(* --------------------------------------------------------------------- *)

Inductive action : Type :=
  | LoadVideo (path : string) (r : reader_result)
  | CreateNewMask
  | Paint (offsets : list nat)
  | MaskChanged
  | Navigate (n : navigation)
  | CopyFromPrevious
  | CopyToNext
  | ClearCurrentMask (reply_yes : bool)
  | AddCustomLabel (d : label_dialog)
  | SaveMasks (path : string) (can_open : bool) (now : string)
  | LoadMasks (path : string) (f : file_read mask_document)
  | LoadLabelConfig (path : string) (f : file_read config_document)
  | ExportFramesAndMasks (path : string).

Definition perform (imwrite_ok : Np.ndarray → bool) (a : action) : M unit :=
  match a with
  | LoadVideo path r => load_video path r
  | CreateNewMask => create_new_mask
  | Paint offsets => paint offsets
  | MaskChanged => on_mask_changed
  | Navigate n => navigate n
  | CopyFromPrevious => copy_from_previous
  | CopyToNext => copy_to_next
  | ClearCurrentMask reply_yes => clear_current_mask reply_yes
  | AddCustomLabel d => add_custom_label d
  | SaveMasks path can_open now => save_masks path can_open now
  | LoadMasks path f => load_masks path f
  | LoadLabelConfig path f => load_label_config path f
  | ExportFramesAndMasks path => export_frames_and_masks_png_npy imwrite_ok path
  end.

(** Every array of the document has the shape of the frames of the video. *)
Definition well_shaped_document (vo : option video) (d : mask_document) : Prop :=
  ∀ masks key rows a,
    doc_masks d = Some masks → (key, rows) ∈ masks →
    Np.array_uint16 rows = Some a → shape_ok vo a.

(** The action loads no mask document, or one made for the loaded video. *)
Definition loads_well_shaped (s : widget) (a : action) : Prop :=
  match a with
  | LoadMasks _ (Parsed d) => well_shaped_document (current_video s) d
  | _ => True
  end.

Fixpoint well_shaped_session (imwrite_ok : Np.ndarray → bool) (s : widget)
    (actions : list action) : Prop :=
  match actions with
  | [] => True
  | a :: rest =>
      loads_well_shaped s a ∧
      well_shaped_session imwrite_ok (exec (perform imwrite_ok a) s) rest
  end.

(** A mask document made for [clip3]. *)
Definition clip3_document : mask_document :=
  {| doc_masks := Some [("1"%string, [[3; 4]])];
     doc_labels_config := None;
     doc_video_info := None;
     doc_creation_date := None |}.




(* --------------------------------------------------------------------- *)
(* pathlib, os.path and format specifications used by the file names     *)
(* --------------------------------------------------------------------- *)

(** The components of a POSIX path between its slashes, the empty ones
    included. [cur] is the component being read. *)
Fixpoint split_slash (cur s : string) : list string :=
  match s with
  | EmptyString => [cur]
  | String c r =>
      if Ascii.eqb c "/" then cur :: split_slash EmptyString r
      else split_slash (cur +:+ String c EmptyString) r
  end.

(** [Path(p).parts] without the root: pathlib drops empty components and
    components that are a single dot. *)
Definition path_parts (p : string) : list string :=
  filter (fun c => c ≠ ""%string ∧ c ≠ "."%string) (split_slash "" p).

(** The root of [Path(p)]: exactly two leading slashes are kept, any other
    number of them is one slash. *)
Definition path_root (p : string) : string :=
  match p with
  | String "/" (String "/" (String "/" _)) => "/"
  | String "/" (String "/" _) => "//"
  | String "/" _ => "/"
  | _ => ""
  end.

(** [str] of a path with the given root and components. *)
Definition path_render (root : string) (parts : list string) : string :=
  match root, parts with
  | EmptyString, [] => "."
  | _, _ => root +:+ String.concat "/" parts
  end.

(** [str(Path(p))] *)
Definition path_str (p : string) : string :=
  path_render (path_root p) (path_parts p).

(** [str(Path(dir) / rel)]: a [rel] with a root replaces [dir]. *)
Definition path_join_str (dir rel : string) : string :=
  match path_root rel with
  | EmptyString => path_render (path_root dir) (path_parts dir ++ path_parts rel)
  | _ => path_str rel
  end.

(** [Path(p).stem]: the name up to its last dot, when that dot is neither
    the first nor the last character of the name. *)
Definition path_stem (p : string) : string :=
  let name := path_name p in
  match rfind_dot 0 name with
  | Some i =>
      if ((0 <? i) && (i <? String.length name - 1))%nat
      then String.substring 0 i name
      else name
  | None => name
  end.

Fixpoint last_char (s : string) : option ascii :=
  match s with
  | EmptyString => None
  | String c EmptyString => Some c
  | String _ r => last_char r
  end.

(** [os.path.join(a, b)] on POSIX. *)
Definition os_path_join (a b : string) : string :=
  if String.prefix "/" b then b
  else if bool_decide (a = ""%string) || bool_decide (last_char a = Some "/"%char)
  then a +:+ b
  else a +:+ "/" +:+ b.

(** [f"{z:04d}"] on any int: the sign, then the digits padded with zeros to
    four characters, the sign counted. *)
Definition format_04d (z : Z) : string :=
  if z <? 0 then
    let d := Py.digits (Z.abs_nat z) in
    String "-" (String.concat "" (repeat "0"%string (3 - String.length d)) +:+ d)
  else Py.fmt04 (Z.to_nat z).

(** Text without a slash. *)
Fixpoint no_slash (s : string) : bool :=
  match s with
  | EmptyString => true
  | String c r => negb (Ascii.eqb c "/") && no_slash r
  end.

(** [d[k]] on the items of a dict with str keys; [None] is KeyError. *)
Definition dict_get {A} (k : string) (d : list (string * A)) : option A :=
  snd <$> find (fun p => bool_decide (fst p = k)) d.

(** [text.split(sep)[0]]: the text before the first occurrence of [sep],
    the whole text when [sep] does not occur. *)
Fixpoint before_first (sep s : string) : string :=
  if String.prefix sep s then EmptyString
  else match s with
       | EmptyString => EmptyString
       | String c r => String c (before_first sep r)
       end.

(** Text of ASCII characters only. On such text [Py.int] is [int()]; text
    with other characters can hold white space and digits of Unicode, which
    [int()] reads as well. *)
Fixpoint ascii_text (s : string) : bool :=
  match s with
  | EmptyString => true
  | String c r => (nat_of_ascii c <? 128)%nat && ascii_text r
  end.

(* --------------------------------------------------------------------- *)
(* _reader.py: read_mask_data, save_mask_data, export_masks_as_images    *)
(* --------------------------------------------------------------------- *)

(** The metadata of a layer made by [read_mask_data]: [frame_index] for a
    single mask, [frame_indices] for a stack. *)
Inductive layer_frames : Type :=
  | FrameIndex (frame_idx : Z)
  | FrameIndices (frame_indices : list Z).

Record layer_metadata : Type := mk_layer_metadata {
  md_labels_config : registry;
  md_frames : layer_frames;
  md_source_file : string;
  md_video_info : option video_info
}.

(** A layer data tuple of [read_mask_data]: the array, the keyword arguments
    [name], [colormap] (the colours before their division by 255.0) and
    [metadata]. The opacity (0.7) and the layer type (labels) are the same
    for every tuple. *)
Record layer_data_tuple : Type := mk_layer_data {
  ld_data : Np.ndarray;
  ld_name : string;
  ld_colormap : gmap Z (Z * Z * Z);
  ld_metadata : layer_metadata
}.

(** [max(l)]; [None] is the ValueError on an empty list. *)
Definition list_max (l : list Z) : option Z :=
  match l with
  | [] => None
  | i :: r => Some (foldl Z.max i r)
  end.

(** [masks_3d[i] = src] for a slice of shape [sh]. [sh] is the shape of an
    array that [np.array] made of a list of lists, [(h, w)] or [(0,)]; a
    slice of one dimension takes what a single row of that extent takes. *)
Definition assign_slice (sh : list nat) (src : Np.ndarray) : option (list Z) :=
  match sh with
  | [H; W] => Np.broadcast_2d H W src
  | _ => Np.broadcast_2d 1 (Np.size_of sh) src
  end.

(** The loop [for frame_idx in frame_indices: masks_3d[frame_idx] = ...]
    on the slices of [masks_3d], of which there are [n]. *)
Definition fill_stack (masks_dict : list (string * list (list Z)))
    (n : Z) (sh : list nat) (frame_indices : list Z) (slices : list (list Z))
  : option (list (list Z)) :=
  foldl (fun acc frame_idx =>
           slices ← acc;
           rows ← dict_get (Py.str frame_idx) masks_dict;
           a ← Np.array_uint16 rows;
           i ← norm_index n frame_idx;
           slice ← assign_slice sh a;
           Some (<[i := slice]> slices))
        (Some slices) frame_indices.

(** The body of the [try] of [read_mask_data]; [None] is an exception,
    which the function answers with the empty list. [source_file] is
    [str(path)], [stem] is [path.stem]. *)
Definition read_layers (source_file stem : string) (f : file_read mask_document)
  : option (list layer_data_tuple) :=
  match f with
  | Parsed data =>
      match doc_masks data with
      | None => Some []
      | Some masks_dict =>
          let labels_config := default [] (doc_labels_config data) in
          let video_info := doc_video_info data in
          let colormap := export_colormap labels_config in
          if bool_decide (masks_dict = []) then Some []
          else
            keys ← mapM (fun p => Py.int (fst p)) masks_dict;
            let frame_indices := merge_sort Z.le keys in
            match frame_indices with
            | [frame_idx] =>
                rows ← dict_get (Py.str frame_idx) masks_dict;
                mask_2d ← Np.array_uint16 rows;
                Some [mk_layer_data mask_2d
                        ("USG Mask Frame " +:+ Py.str frame_idx
                         +:+ " (" +:+ stem +:+ ")")
                        colormap
                        (mk_layer_metadata labels_config (FrameIndex frame_idx)
                           source_file video_info)]
            | _ =>
                first ← head frame_indices;
                rows ← dict_get (Py.str first) masks_dict;
                first_mask ← Np.array_uint16 rows;
                let mask_shape := Np.shape first_mask in
                max_frame ← list_max frame_indices;
                if max_frame + 1 <? 0 then None
                else
                  let n := Z.to_nat (max_frame + 1) in
                  slices ← fill_stack masks_dict (max_frame + 1) mask_shape
                             frame_indices
                             (repeat (repeat 0 (Np.size_of mask_shape)) n);
                  Some [mk_layer_data
                          (Np.mk_array (n :: mask_shape) (concat slices))
                          ("USG Masks ("
                           +:+ Py.str (Z.of_nat (length frame_indices))
                           +:+ " frames) (" +:+ stem +:+ ")")
                          colormap
                          (mk_layer_metadata labels_config
                             (FrameIndices frame_indices) source_file video_info)]
            end
      end
  | _ => None
  end.

(** What [save_mask_data] writes: a mask document, and the number of masks
    under [metadata.total_masked_frames]. *)
Record reader_save : Type := mk_reader_save {
  rs_document : mask_document;
  rs_total_masked_frames : nat
}.

(** A colorized mask: an array of the shape of the mask with one more axis
    of extent 3, one colour per element of the mask. *)
Record rgb_image : Type := mk_rgb_image {
  rgb_shape : list nat;
  rgb_pixels : list (Z * Z * Z)
}.

(** The colouring of a mask by a registry: every element gets the colour
    of the last label with its value, black when there is none. *)
Definition color_mask (cfg : registry) (mask : Np.ndarray) : rgb_image :=
  mk_rgb_image (Np.shape mask ++ [3%nat])
    (map (fun z =>
            foldl (fun px p =>
                     if bool_decide (z = value (snd p))
                     then rgb (label_color (snd p)) else px)
                  (0, 0, 0) cfg)
         (Np.data mask)).

(** An int that numpy takes for an element of a [uint8] array; for any
    other int the assignment raises OverflowError. *)
Definition is_uint8 (z : Z) : bool := (0 <=? z) && (z <=? 255).

Definition pixel_fits (px : Z * Z * Z) : bool :=
  let '(r, g, b) := px in is_uint8 r && is_uint8 g && is_uint8 b.

(** [config['color'][:3]] can be assigned to elements of [colored_mask]. *)
Definition rgb_fits (c : color) : bool := pixel_fits (rgb c).

Definition colors_fit (cfg : registry) : bool :=
  forallb (fun p => rgb_fits (label_color (snd p))) cfg.

(** [colored_mask[mask == value] = color] *)
Definition assign_where (v : Z) (c : Z * Z * Z) (mask : Np.ndarray)
    (colored : rgb_image) : rgb_image :=
  mk_rgb_image (rgb_shape colored)
    (zip_with (fun z px => if bool_decide (z = v) then c else px)
              (Np.data mask) (rgb_pixels colored)).

(** [colored_mask = np.zeros(mask.shape + (3,), dtype=np.uint8)] followed
    by the loop over the labels in their order. The colour is converted to
    [uint8] before it is assigned, whatever the mask selects: [None] is the
    OverflowError of a colour component outside 0..255. *)
Definition colored_mask (cfg : registry) (mask : Np.ndarray) : option rgb_image :=
  foldl (fun acc p =>
           colored ← acc;
           if rgb_fits (label_color (snd p))
           then Some (assign_where (value (snd p)) (rgb (label_color (snd p)))
                                   mask colored)
           else None)
        (Some (mk_rgb_image (Np.shape mask ++ [3%nat])
                            (map (fun _ => (0, 0, 0)) (Np.data mask))))
        cfg.

(** Writing images one after the other, each after its mask was coloured:
    the files written, and whether the loop came to its end. It stops at
    the first mask whose colouring raises and at the first image the codec
    refuses. *)
Fixpoint imwrite_all (imwrite_ok : rgb_image → bool)
    (files : list (string * option rgb_image)) : list (string * rgb_image) * bool :=
  match files with
  | [] => ([], true)
  | f :: r =>
      match snd f with
      | Some colored =>
          if imwrite_ok colored
          then let '(written, done) := imwrite_all imwrite_ok r in
               ((fst f, colored) :: written, done)
          else ([], false)
      | None => ([], false)
      end
  end.

(** The three functions of the reader module after the hook. *)
Module MaskData.

(** [read_mask_data]; [f] is what opening and decoding the file gives. The
    first path of a list is read: an empty list raises IndexError before
    the [try] is entered. *)
Definition read_mask_data (path : path_arg) (f : file_read mask_document)
  : result (list layer_data_tuple) :=
  match path with
  | OnePath p | PathList (p :: _) =>
      Ok (default [] (read_layers (path_str p) (path_stem p) f))
  | PathList [] => Exc
  end.

(** [save_mask_data]: the value returned and the file written. [video_info]
    is the optional argument ([None] is written as the empty dict, which
    reads like a missing key), [can_open] says whether the file can be
    opened for writing, [now] is the date stamp. *)
Definition save_mask_data (masks : gmap Z Np.ndarray) (labels_config : registry)
    (output_path : string) (video_info : option video_info)
    (can_open : bool) (now : string) : bool * option (string * reader_save) :=
  let save_data :=
    mk_reader_save
      {| doc_masks :=
           Some (map (fun p => (Py.str (fst p), Np.tolist (snd p)))
                     (map_to_list masks));
         doc_labels_config := Some labels_config;
         doc_video_info := video_info;
         doc_creation_date := Some now |}
      (size masks) in
  if can_open then (true, Some (output_path, save_data)) else (false, None).

(** [export_masks_as_images] of the reader module: the value returned and
    the files written. [can_mkdir] says whether the output directory can be
    made. *)
Definition export_masks_as_images (imwrite_ok : rgb_image → bool)
    (masks : gmap Z Np.ndarray) (labels_config : registry)
    (output_dir prefix : string) (can_mkdir : bool)
  : bool * list (string * rgb_image) :=
  if can_mkdir then
    let '(written, done) :=
      imwrite_all imwrite_ok
        (map (fun p =>
                (path_join_str output_dir
                   (prefix +:+ "_" +:+ format_04d (fst p) +:+ ".png"),
                 colored_mask labels_config (snd p)))
             (map_to_list masks)) in
    (done, written)
  else (false, []).

End MaskData.

(* --------------------------------------------------------------------- *)
(* USGMaskerWidget: export of the masks as images                        *)
(* --------------------------------------------------------------------- *)

(** What an image export leaves: the message boxes and the files. *)
Record image_export : Type := mk_image_export {
  ie_shown : list message;
  ie_written : list (string * rgb_image)
}.

(** [export_masks_as_images] of the widget; [folder_path] is what the
    folder dialog returned. The widget is left as it is. *)
Definition export_masks_as_images (imwrite_ok : rgb_image → bool)
    (folder_path : string) (s : widget) : image_export :=
  if bool_decide (current_masks s = ∅)
  then mk_image_export [Warning "No masks to export"] []
  else if bool_decide (folder_path = ""%string) then mk_image_export [] []
  else
    let '(written, done) :=
      imwrite_all imwrite_ok
        (map (fun p =>
                (os_path_join folder_path
                   ("usg_mask_frame_" +:+ format_04d (fst p) +:+ ".png"),
                 colored_mask (labels_config s) (snd p)))
             (map_to_list (current_masks s))) in
    mk_image_export
      [if done then Information "Exported masks"
       else Critical "Failed to export masks"]
      written.

(* --------------------------------------------------------------------- *)
(* USGMaskerWidget: label selection, label list, colour of a label       *)
(* --------------------------------------------------------------------- *)

(** [update_label_combo]: the items of the combo box, every label name but
    [background], in the order of the registry. *)
Definition update_label_combo (cfg : registry) : list string :=
  filter (fun name => name ≠ "background"%string) (map fst cfg).

(** An item of the labels list: its text, its background, and whether its
    text is white (dark background) or black. *)
Record list_item : Type := mk_list_item {
  item_text : string;
  item_background : color;
  item_white_text : bool
}.

(** [update_labels_list] *)
Definition update_labels_list (cfg : registry) : list list_item :=
  map (fun p =>
         mk_list_item
           (fst p +:+ " (value: " +:+ Py.str (value (snd p)) +:+ ")")
           (label_color (snd p))
           (let '(r, g, b) := rgb (label_color (snd p)) in r + g + b <? 384))
      cfg.

Definition set_current_label (v : Z) (s : widget) : widget :=
  mk_widget (current_video s) (current_video_path s) (current_masks s)
    (current_frame s) (total_frames s) (labels_config s) v (brush_size s)
    (mask_layer s) (video_layer s) (frame_slider s).

(** [change_current_label]. The [selected_label] setter of the layer raises
    for a label outside the range of [uint16], the dtype of the layer, and
    the layer keeps the label it had; [current_label] is assigned before. *)
Definition change_current_label (label_name : string) : M unit :=
  s ← get;
  match reg_lookup label_name (labels_config s) with
  | Some e =>
      modify (set_current_label (value e));;
      match mask_layer s with
      | Some l =>
          if Np.is_uint16 (value e)
          then modify (set_layer (Some (mk_layer (layer_data l) (layer_shared l)
                                                 (value e) (layer_brush_size l))))
          else raise
      | None => mret tt
      end
  | None => mret tt
  end.

(** [edit_label_color]; [row] is the row of the current item of the labels
    list ([None] when no item is selected), [new_color] is the colour
    picked in the colour dialog ([None] when the dialog is cancelled). The
    list shows the registry, as every change of the registry is followed by
    [update_labels_list]. *)
Definition edit_label_color (row : option nat) (new_color : option (Z * Z * Z))
  : M unit :=
  s ← get;
  match row ≫= (fun i => update_labels_list (labels_config s) !! i) with
  | None => show (Warning "Please select a label to edit")
  | Some current_item =>
      let label_name := before_first " (value:" (item_text current_item) in
      match reg_lookup label_name (labels_config s) with
      | None => mret tt
      | Some e =>
          match new_color with
          | Some (r, g, b) =>
              let cfg := reg_set label_name (mk_label (value e) (RGBA r g b 255))
                                 (labels_config s) in
              modify (set_labels cfg);;
              match mask_layer s with
              | Some _ => _ ← lift (create_colormap cfg); mret tt
              | None => mret tt
              end
          | None => mret tt
          end
      end
  end.

(* --------------------------------------------------------------------- *)
(* USGMaskerWidget: frame counter and statistics                         *)
(* --------------------------------------------------------------------- *)

(** [update_frame_display]: the text of the frame counter and the state of
    the two navigation buttons. *)
Record frame_display : Type := mk_frame_display {
  frame_label : string;
  prev_frame_btn : bool;
  next_frame_btn : bool
}.

Definition update_frame_display (s : widget) : frame_display :=
  {| frame_label := Py.str (current_frame s + 1) +:+ "/" +:+ Py.str (total_frames s);
     prev_frame_btn := 0 <? current_frame s;
     next_frame_btn := current_frame s <? total_frames s - 1 |}.

(** The counting loop of [update_statistics]: [np.unique] with its counts,
    added to [label_counts] mask after mask. *)
Definition count_values (d : list Z) (label_counts : gmap Z nat) : gmap Z nat :=
  foldl (fun acc z => <[z := S (default 0%nat (acc !! z))]> acc) label_counts d.

Definition label_counts (masks : gmap Z Np.ndarray) : gmap Z nat :=
  map_fold (fun _ mask acc => count_values (Np.data mask) acc) ∅ masks.

(** The name shown for a label value: the first label of the registry with
    that value. *)
Definition label_name_of (cfg : registry) (v : Z) : string :=
  match find (fun p => bool_decide (value (snd p) = v)) cfg with
  | Some p => fst p
  | None => "unknown"
  end.

(** The order of [sorted(label_counts.items())]: by label value, the keys
    of a dict being distinct. *)
Definition by_value (p q : Z * nat) : Prop := fst p ≤ fst q.

#[global] Instance by_value_dec : RelDecision by_value.
Proof. intros p q. unfold by_value. apply _. Defined.

(** The lines of the label distribution: for every value that occurs, in
    increasing order, the name of the label and the number of pixels. The
    percentage shown is this number against [total_pixels]. *)
Definition label_distribution (s : widget) : list (string * nat) :=
  map (fun p => (label_name_of (labels_config s) (fst p), snd p))
      (merge_sort by_value (map_to_list (label_counts (current_masks s)))).

(* --------------------------------------------------------------------- *)
(* What napari takes for the Labels layer                                *)
(* --------------------------------------------------------------------- *)

(** A colormap that [viewer.add_labels] takes: at least two rows, with
    components between 0 and 255 (the code divides them by 255.0). A
    colormap of a single row, as a registry that holds only label value 0
    gives, is refused with an exception. *)
Definition colormap_accepted (rows : list (Z * Z * Z * Z)) : bool :=
  (2 <=? length rows)%nat &&
  forallb (fun row => let '(r, g, b, a) := row in
                      is_uint8 r && is_uint8 g && is_uint8 b && is_uint8 a)
          rows.

(** [create_new_mask] gets its layer, at every frame: the registry has a
    colormap that napari takes, the current label is in the range of
    [uint16], the dtype of the layer, as the [selected_label] setter asks,
    and the data is an array with elements: the frames of the video have
    rows and columns, and every mask held has the shape of the frames. *)
Definition layer_accepted (s : widget) : Prop :=
  (∃ rows, create_colormap (labels_config s) = Some rows ∧
           colormap_accepted rows = true) ∧
  Np.is_uint16 (current_label s) = true ∧
  shape_inv s ∧
  (∀ v, current_video s = Some v → (0 < v_height v)%nat ∧ (0 < v_width v)%nat).

(* --------------------------------------------------------------------- *)
(* Vocabulary of the statements on the frame cursor                      *)
(* --------------------------------------------------------------------- *)

(** The slider shows the cursor, and both are bound by the loaded video. *)
Definition cursor_ok (s : widget) : Prop :=
  s_min (frame_slider s) = 0 ∧
  s_value (frame_slider s) = current_frame s ∧
  match current_video s with
  | Some v =>
      total_frames s = Z.of_nat (v_len v) ∧
      s_max (frame_slider s) = total_frames s - 1 ∧
      0 ≤ current_frame s < total_frames s
  | None =>
      total_frames s = 0 ∧ s_max (frame_slider s) = 0 ∧ current_frame s = 0
  end.

(** The widget once the mask on the layer has been written back to the
    store ([self.current_masks[self.current_frame] = self.mask_layer.data.copy()],
    when there is a layer). *)
Definition written_back (s : widget) : widget :=
  match mask_layer s with
  | Some l => store_current (Np.copy (layer_data l)) s
  | None => s
  end.

(** The widget after [create_new_mask] ran to its end on a frame of shape
    [sh]: the layer shows a copy of the stored mask of the current frame,
    or the zero mask that was put into the store for it. *)
Definition mask_shown (sh : list nat) (s : widget) : widget :=
  match current_masks s !! current_frame s with
  | Some m =>
      set_layer (Some (mk_layer (Np.copy m) false (current_label s) (brush_size s))) s
  | None =>
      set_layer (Some (mk_layer (Np.zeros sh) true (current_label s) (brush_size s)))
        (set_masks (<[current_frame s := Np.zeros sh]> (current_masks s)) s)
  end.

(** The widget after the slider moved to frame [x] of the video [v] and
    [change_frame] ran to its end. *)
Definition moved_to (v : video) (x : Z) (s : widget) : widget :=
  mask_shown (frame_shape v)
    (set_frame x
       (set_slider (mk_slider (s_min (frame_slider s)) (s_max (frame_slider s)) x)
          (written_back s))).

(* ===================================================================== *)
(* Properties                                                            *)
(* ===================================================================== *)

(* --------------------------------------------------------------------- *)
(* The primitives on concrete inputs                                     *)
(* --------------------------------------------------------------------- *)

Example str_12 : Py.str 12 = "12"%string. Proof. reflexivity. Qed.
Example str_m3 : Py.str (-3) = "-3"%string. Proof. reflexivity. Qed.
Example int_sp : Py.int " +1_000 " = Some 1000. Proof. reflexivity. Qed.
Example int_bad : Py.int "abc" = None. Proof. reflexivity. Qed.
Example int_bad2 : Py.int "1__0" = None. Proof. reflexivity. Qed.
Example fmt_7 : Py.fmt04 7 = "0007"%string. Proof. reflexivity. Qed.
Example fmt_1234 : Py.fmt04 1234 = "1234"%string. Proof. reflexivity. Qed.
Example zeros_2_3 : Np.zeros [2; 3]%nat = Np.mk_array [2; 3]%nat [0; 0; 0; 0; 0; 0].
Proof. reflexivity. Qed.
Example tolist_2_2 :
  Np.tolist (Np.mk_array [2; 2]%nat [1; 2; 3; 4]) = [[1; 2]; [3; 4]].
Proof. reflexivity. Qed.
Example array_ragged : Np.array_uint16 [[1; 2]; [3]] = None.
Proof. reflexivity. Qed.
Example array_empty : Np.array_uint16 [] = Some (Np.mk_array [0%nat] []).
Proof. reflexivity. Qed.
Example tolist_zero_rows : Np.tolist (Np.zeros [0; 5]%nat) = [].
Proof. reflexivity. Qed.
Example broadcast_1_1 :
  Np.broadcast_2d 2 2 (Np.mk_array [1; 1]%nat [7]) = Some [7; 7; 7; 7].
Proof. reflexivity. Qed.
Example broadcast_row :
  Np.broadcast_2d 2 3 (Np.mk_array [1; 3]%nat [1; 2; 3]) = Some [1; 2; 3; 1; 2; 3].
Proof. reflexivity. Qed.
Example broadcast_fail : Np.broadcast_2d 2 2 (Np.mk_array [1; 3]%nat [1; 2; 3]) = None.
Proof. reflexivity. Qed.
Example suffix_json : path_suffix "/data/run.JSON" = ".JSON"%string.
Proof. reflexivity. Qed.
Example suffix_hidden : path_suffix "/data/.json" = ""%string.
Proof. reflexivity. Qed.
Example suffix_two : path_suffix "a.tar.gz" = ".gz"%string.
Proof. reflexivity. Qed.
Example name_dir : path_name "/a/b/c.json/" = "c.json"%string.
Proof. reflexivity. Qed.
Example name_dots : path_name "a//b/./" = "b"%string.
Proof. reflexivity. Qed.
Example name_root : path_name "/" = ""%string.
Proof. reflexivity. Qed.
Example name_parent : path_name "a/.." = ".."%string.
Proof. reflexivity. Qed.

(* --------------------------------------------------------------------- *)
(* Weakest preconditions for the actions                                 *)
(* --------------------------------------------------------------------- *)

Section wp_rules.
Context {A B : Type}.
Implicit Types (w : world) (Q : result A → world → Prop).

Lemma wp_ret (a : A) Q w : Q (Ok a) w → wp (mret a) Q w.
Proof. done. Qed.

Lemma wp_bind (m : M B) (k : B → M A) Q w :
  wp m (fun r w' => match r with Ok b => wp (k b) Q w' | Exc => Q Exc w' end) w →
  wp (m ≫= k) Q w.
Proof. unfold wp, mbind, M_bind. by destruct (m w) as [[b|] w']. Qed.

Lemma wp_raise Q w : Q Exc w → wp raise Q w.
Proof. done. Qed.

Lemma wp_lift (o : option A) Q w :
  match o with Some a => Q (Ok a) w | None => Q Exc w end → wp (lift o) Q w.
Proof. by destruct o. Qed.

Lemma wp_mono (m : M A) Q Q' w :
  wp m Q' w → (∀ r w', Q' r w' → Q r w') → wp m Q w.
Proof. unfold wp. auto. Qed.
End wp_rules.

Lemma wp_get (Q : result widget → world → Prop) w : Q (Ok (wd w)) w → wp get Q w.
Proof. done. Qed.

Lemma wp_modify f (Q : result unit → world → Prop) w :
  Q (Ok tt) (mk_world (f (wd w)) (shown w) (written w)) → wp (modify f) Q w.
Proof. done. Qed.

Lemma wp_show msg (Q : result unit → world → Prop) w :
  Q (Ok tt) (mk_world (wd w) (shown w ++ [msg]) (written w)) → wp (show msg) Q w.
Proof. done. Qed.

Lemma wp_write path p (Q : result unit → world → Prop) w :
  Q (Ok tt) (mk_world (wd w) (shown w) (written w ++ [(path, p)])) →
  wp (write path p) Q w.
Proof. done. Qed.

Lemma wp_try (body handler : M unit) (Q : result unit → world → Prop) w :
  wp body (fun r w' => match r with Ok _ => Q (Ok tt) w' | Exc => wp handler Q w' end) w →
  wp (try_except body handler) Q w.
Proof. unfold wp, try_except. by destruct (body w) as [[[]|] w']. Qed.

Lemma wp_when (b : bool) (m : M unit) (Q : result unit → world → Prop) w :
  (if b then wp m Q w else Q (Ok tt) w) → wp (when b m) Q w.
Proof. by destruct b. Qed.

Lemma wp_exec {A} (m : M A) (s : widget) (P : widget → Prop) :
  wp m (fun _ w' => P (wd w')) (mk_world s [] []) → P (exec m s).
Proof. done. Qed.

Lemma wp_for_each_inv {A} (I : world → Prop) (l : list A) (body : A → M unit) w :
  I w →
  (∀ x w0, x ∈ l → I w0 → wp (body x) (fun _ w' => I w') w0) →
  wp (for_each l body) (fun _ w' => I w') w.
Proof.
  revert w. induction l as [|x l IH]; intros w HI Hbody; simpl.
  - by apply wp_ret.
  - apply wp_bind. eapply wp_mono; [apply Hbody; [left|done]|].
    intros [[]|] w' HI'; [|done].
    apply IH; [done|]. intros y w0 Hy. apply Hbody. by right.
Qed.

(** One step of symbolic execution. *)
Ltac wp_step :=
  lazymatch goal with
  | |- wp (mbind _ _) _ _ => apply wp_bind
  | |- wp (mret _) _ _ => apply wp_ret
  | |- wp get _ _ => apply wp_get
  | |- wp (modify _) _ _ => apply wp_modify
  | |- wp (show _) _ _ => apply wp_show
  | |- wp (write _ _) _ _ => apply wp_write
  | |- wp raise _ _ => apply wp_raise
  | |- wp (lift _) _ _ => apply wp_lift
  | |- wp (when _ _) _ _ => apply wp_when
  | |- wp (try_except _ _) _ _ => apply wp_try
  | |- wp (match ?x with _ => _ end) _ _ => destruct x eqn:?
  | |- wp (if ?b then _ else _) _ _ => destruct b eqn:?
  | |- match ?x with _ => _ end => destruct x eqn:?
  | |- if ?b then _ else _ => destruct b eqn:?
  end; cbn beta iota.

Ltac wp_run := repeat (wp_step; simpl).

(* --------------------------------------------------------------------- *)
(* The mask layer                                                        *)
(* --------------------------------------------------------------------- *)

Lemma wp_create_new_mask (Q : result unit → world → Prop) w :
  (∀ r w', same_context (wd w) (wd w') → lazily_filled (wd w) (wd w') →
           layer_shown (wd w) (wd w') → Q r w') →
  wp create_new_mask Q w.
Proof.
  intros HQ. unfold create_new_mask. destruct w as [s sh wr].
  wp_run; apply HQ; simpl;
    unfold same_context, lazily_filled, layer_shown, visited, Np.copy; simpl;
    repeat match goal with H : _ = _ |- _ => rewrite H end;
    try (repeat split; done); try (by left); try (by right; left).
  - right; right. eexists. split; [done|]. done.
  - right; right. eexists. split; [done|]. simpl. by rewrite lookup_insert_eq.
Qed.

(* --------------------------------------------------------------------- *)
(* Frames of the video                                                   *)
(* --------------------------------------------------------------------- *)

Lemma v_index_shape (v : video) (i : Z) (f : Np.ndarray) :
  v_index v i = Some f → Np.shape f = frame_shape v.
Proof.
  unfold v_index. repeat case_match; try done.
  all: destruct (v_frames v !! _); simpl; intros [= <-]; done.
Qed.

Lemma v_index_in_range (v : video) (i : Z) :
  0 ≤ i < Z.of_nat (v_len v) → is_Some (v_index v i).
Proof.
  intros Hi. unfold v_index.
  replace ((0 <=? i) && (i <? Z.of_nat (v_len v))) with true
    by (symmetry; apply andb_true_iff; lia).
  destruct (lookup_lt_is_Some_2 (v_frames v) (Z.to_nat i)) as [x ->];
    [unfold v_len in Hi; lia|]. by eexists.
Qed.

(* --------------------------------------------------------------------- *)
(* Decimal text: [str], [int] and the zero padded frame numbers          *)
(* --------------------------------------------------------------------- *)

Lemma parse_digits_uint (d : Decimal.uint) (acc : nat) :
  Py.parse_digits acc true (NilEmpty.string_of_uint d) = Some (Nat.of_uint_acc d acc).
Proof.
  revert acc. induction d; intros acc; simpl; [done|..];
    rewrite IHd; f_equal; f_equal; rewrite Nat.tail_mul_spec;
    lia.
Qed.

Lemma parse_digits_zero_uint (d : Decimal.uint) (prev : bool) :
  Py.parse_digits 0 prev (NilZero.string_of_uint d) = Some (Nat.of_uint d).
Proof.
  unfold Nat.of_uint.
  destruct d; simpl; try reflexivity;
    rewrite parse_digits_uint; f_equal; f_equal;
    rewrite ?Nat.tail_mul_spec; lia.
Qed.

Lemma parse_digits_digits (n : nat) (prev : bool) :
  Py.parse_digits 0 prev (Py.digits n) = Some n.
Proof.
  unfold Py.digits. rewrite parse_digits_zero_uint.
  f_equal. apply DecimalNat.Unsigned.of_to.
Qed.

Lemma all_digits_uint (d : Decimal.uint) : all_digits (NilEmpty.string_of_uint d) = true.
Proof. induction d; simpl; try done. Qed.

Lemma all_digits_digits (n : nat) : all_digits (Py.digits n) = true.
Proof.
  unfold Py.digits, NilZero.string_of_uint.
  destruct (Nat.to_uint n) eqn:E; try (rewrite <- E; apply all_digits_uint).
  reflexivity.
Qed.

Lemma digit_not_space (c : ascii) :
  is_Some (Py.digit_val c) → Py.is_space c = false.
Proof.
  unfold Py.digit_val, Py.is_space. intros [d Hd].
  destruct (48 <=? nat_of_ascii c)%nat eqn:H1; simpl in Hd; [|done].
  destruct (nat_of_ascii c <=? 57)%nat eqn:H2; simpl in Hd; [|done].
  apply Nat.leb_le in H1, H2.
  repeat (apply orb_false_iff; split); try apply andb_false_iff.
  - right. apply Nat.leb_gt. lia.
  - apply Nat.eqb_neq. lia.
Qed.

Lemma rstrip_all_digits (s : string) : all_digits s = true → Py.rstrip s = s.
Proof.
  induction s as [|c r IH]; simpl; [done|].
  intros [Hc Hr]%andb_true_iff. rewrite (IH Hr).
  apply bool_decide_eq_true in Hc. rewrite (digit_not_space c Hc).
  by destruct r.
Qed.

Lemma lstrip_all_digits (s : string) : all_digits s = true → Py.lstrip s = s.
Proof.
  destruct s as [|c r]; simpl; [done|].
  intros [Hc Hr]%andb_true_iff.
  apply bool_decide_eq_true in Hc. by rewrite (digit_not_space c Hc).
Qed.

Lemma digit_not_sign (c : ascii) :
  is_Some (Py.digit_val c) → c ≠ "-"%char ∧ c ≠ "+"%char.
Proof. intros [d Hd]. split; intros ->; vm_compute in Hd; done. Qed.

(** [int] reads back a string of digits as [parse_digits] does. *)
Lemma int_all_digits (s : string) :
  all_digits s = true → Py.int s = Z.of_nat <$> Py.parse_digits 0 false s.
Proof.
  intros Hs. unfold Py.int.
  rewrite (lstrip_all_digits s Hs), (rstrip_all_digits s Hs).
  destruct s as [|c r]; [done|].
  simpl in Hs. apply andb_true_iff in Hs as [Hc _].
  apply bool_decide_eq_true, digit_not_sign in Hc as [H1 H2].
  destruct c as [[] [] [] [] [] [] [] []]; try done.
Qed.

Lemma int_str_nat (n : nat) : Py.int (Py.digits n) = Some (Z.of_nat n).
Proof.
  rewrite int_all_digits by apply all_digits_digits.
  by rewrite parse_digits_digits.
Qed.

(** [int(str(z)) = z] *)
Lemma int_str (z : Z) : Py.int (Py.str z) = Some z.
Proof.
  unfold Py.str. destruct (z <? 0) eqn:Hz.
  - apply Z.ltb_lt in Hz. unfold Py.int.
    pose proof (all_digits_digits (Z.abs_nat z)) as Hd.
    assert (Py.lstrip (String "-" (Py.digits (Z.abs_nat z)))
            = String "-" (Py.digits (Z.abs_nat z))) as -> by reflexivity.
    assert (Py.rstrip (String "-" (Py.digits (Z.abs_nat z)))
            = String "-" (Py.digits (Z.abs_nat z))) as ->.
    { simpl. rewrite (rstrip_all_digits _ Hd).
      by destruct (Py.digits (Z.abs_nat z)). }
    rewrite parse_digits_digits. simpl. f_equal. lia.
  - apply Z.ltb_ge in Hz. rewrite int_str_nat. f_equal. lia.
Qed.

Lemma str_inj (z1 z2 : Z) : Py.str z1 = Py.str z2 → z1 = z2.
Proof.
  intros H. apply (f_equal Py.int) in H. rewrite !int_str in H. congruence.
Qed.

Lemma concat_zeros (k : nat) :
  String.concat "" (repeat "0"%string (S k))
  = String "0" (String.concat "" (repeat "0"%string k)).
Proof. destruct k; reflexivity. Qed.

Lemma all_digits_app (s t : string) :
  all_digits s = true → all_digits t = true → all_digits (s +:+ t) = true.
Proof.
  induction s as [|c r IH]; simpl; [done|].
  intros [Hc Hr]%andb_true_iff Ht. rewrite Hc. simpl. by apply IH.
Qed.

Lemma all_digits_zeros (k : nat) :
  all_digits (String.concat "" (repeat "0"%string k)) = true.
Proof.
  induction k as [|k IH]; [done|]. rewrite concat_zeros. simpl. exact IH.
Qed.

Lemma parse_digits_zeros (k : nat) (prev : bool) (t : string) :
  Py.parse_digits 0 prev (String.concat "" (repeat "0"%string k) +:+ t)
  = Py.parse_digits 0 (prev || bool_decide (0 < k)%nat) t.
Proof.
  revert prev. induction k as [|k IH]; intros prev.
  - simpl. by rewrite orb_false_r.
  - rewrite concat_zeros. simpl. rewrite IH. by rewrite orb_true_r.
Qed.

(** The frame number in a file name reads back as the frame index. *)
Lemma int_fmt04 (i : nat) : Py.int (Py.fmt04 i) = Some (Z.of_nat i).
Proof.
  unfold Py.fmt04.
  rewrite int_all_digits
    by (apply all_digits_app; [apply all_digits_zeros|apply all_digits_digits]).
  by rewrite parse_digits_zeros, parse_digits_digits.
Qed.

Lemma fmt04_inj (i j : nat) : Py.fmt04 i = Py.fmt04 j → i = j.
Proof.
  intros H. apply (f_equal Py.int) in H. rewrite !int_fmt04 in H.
  injection H. lia.
Qed.


Lemma single_path_list (l : list string) :
  length l ≠ 1%nat → single_path (PathList l) = None.
Proof. destruct l as [|p [|q l]]; simpl; congruence. Qed.

(** C10: napari_get_reader returns None for a list of paths whose length is
    not 1 and for a path whose suffix, lower-cased, is not ".json"; when it
    returns a reader, the argument is a single path with a JSON suffix. *)
Theorem napari_get_reader_json_only (open_json : string → probe) (path : path_arg) :
  (∀ l, path = PathList l → length l ≠ 1%nat →
        napari_get_reader open_json path = Ok None) ∧
  (∀ p, single_path path = Some p → Py.lower (path_suffix p) ≠ ".json"%string →
        napari_get_reader open_json path = Ok None) ∧
  (∀ r, napari_get_reader open_json path = Ok (Some r) →
        ∃ p, single_path path = Some p ∧ Py.lower (path_suffix p) = ".json"%string).
Proof.
  split; [|split].
  - intros l -> Hl. unfold napari_get_reader.
    destruct l as [|p [|q l]]; simpl in *; congruence.
  - intros p Hp Hs. unfold napari_get_reader.
    fold (single_path path). rewrite Hp.
    rewrite bool_decide_eq_false_2 by done. reflexivity.
  - intros r. unfold napari_get_reader. fold (single_path path).
    destruct (single_path path) as [p|]; [|discriminate].
    case_bool_decide as Hs; simpl; [|discriminate].
    intros _. by exists p.
Qed.

Example reader_two_paths :
  napari_get_reader (fun _ => ProbeJson true true true)
    (PathList ["usg_masks.json"; "b.json"]%string) = Ok None.
Proof. reflexivity. Qed.
Example reader_no_path :
  napari_get_reader (fun _ => ProbeJson true true true) (PathList []) = Ok None.
Proof. reflexivity. Qed.
Example reader_png :
  napari_get_reader (fun _ => ProbeJson true true true) (OnePath "usg_mask.png") = Ok None.
Proof. reflexivity. Qed.
Example reader_upper :
  napari_get_reader (fun _ => ProbeIOError) (PathList ["/d/USG_Masks.JSON"%string])
  = Ok (Some read_mask_data).
Proof. reflexivity. Qed.
Example reader_probe :
  napari_get_reader (fun _ => ProbeJson true true true) (OnePath "/d/run1.json")
  = Ok (Some read_mask_data).
Proof. reflexivity. Qed.
Example reader_probe_none :
  napari_get_reader (fun _ => ProbeJson true true false) (OnePath "/d/run1.json")
  = Ok None.
Proof. reflexivity. Qed.

(* --------------------------------------------------------------------- *)
(* Label registry                                                        *)
(* --------------------------------------------------------------------- *)

Lemma reg_lookup_None (name : string) (cfg : registry) :
  reg_lookup name cfg = None ↔ name ∉ map fst cfg.
Proof.
  unfold reg_lookup. induction cfg as [|[n e] cfg IH]; simpl.
  - split; [intros _; apply not_elem_of_nil|done].
  - case_bool_decide as Hn; simpl in *.
    + subst. split; [done|]. intros H. exfalso. apply H. left.
    + rewrite IH, not_elem_of_cons. simpl. split; [by intros ?; split|by intros [_ ?]].
Qed.

Lemma reg_mem_false (name : string) (cfg : registry) :
  reg_mem name cfg = false ↔ name ∉ map fst cfg.
Proof.
  unfold reg_mem. rewrite bool_decide_eq_false, <- reg_lookup_None.
  rewrite <- eq_None_not_Some. done.
Qed.

Lemma reg_set_fresh (name : string) (e : label_entry) (cfg : registry) :
  name ∉ map fst cfg → reg_set name e cfg = cfg ++ [(name, e)].
Proof.
  induction cfg as [|[n e'] cfg IH]; simpl; [done|].
  rewrite not_elem_of_cons. intros [Hne Hnot].
  rewrite bool_decide_eq_false_2 by done. by rewrite IH.
Qed.

Lemma foldl_max_ge (vs : list Z) (v : Z) : v ≤ foldl Z.max v vs.
Proof.
  revert v. induction vs as [|x vs IH]; intros v; simpl; [lia|].
  etrans; [|apply IH]. lia.
Qed.

Lemma foldl_max_bound (vs : list Z) (v x : Z) : x ∈ vs → x ≤ foldl Z.max v vs.
Proof.
  revert v. induction vs as [|y vs IH]; intros v; simpl.
  - intros H. by apply elem_of_nil in H.
  - rewrite elem_of_cons. intros [->|Hin]; [|by apply IH].
    etrans; [|apply foldl_max_ge]. lia.
Qed.

Lemma max_value_bound (cfg : registry) (mx v : Z) :
  max_value cfg = Some mx → v ∈ reg_values cfg → v ≤ mx.
Proof.
  unfold max_value. destruct (reg_values cfg) as [|v0 vs]; [done|].
  intros [= <-]. rewrite elem_of_cons. intros [->|Hin].
  - apply foldl_max_ge.
  - by apply foldl_max_bound.
Qed.

Lemma max_value_None (cfg : registry) : max_value cfg = None ↔ cfg = [].
Proof. unfold max_value, reg_values. destruct cfg; simpl; split; done. Qed.

Lemma max_value_fresh (cfg : registry) (mx : Z) :
  max_value cfg = Some mx → mx + 1 ∉ reg_values cfg.
Proof. intros Hmx Hin. pose proof (max_value_bound _ _ _ Hmx Hin). lia. Qed.

(** The registry [add_custom_label] leaves, read off its branches. *)
Lemma add_custom_label_registry (s : widget) (d : label_dialog) :
  labels_config (exec (add_custom_label d) s) =
    if negb (dlg_ok d) || bool_decide (dlg_name d = ""%string) then labels_config s
    else if reg_mem (dlg_name d) (labels_config s) then labels_config s
    else match max_value (labels_config s), dlg_color d with
         | Some mx, Some (r, g, b) =>
             reg_set (dlg_name d) (mk_label (mx + 1) (RGBA r g b 255)) (labels_config s)
         | _, _ => labels_config s
         end.
Proof.
  unfold exec, run, add_custom_label, mbind, M_bind, get, lift, modify, show,
    mret, M_ret, raise; simpl.
  destruct (negb (dlg_ok d) || bool_decide (dlg_name d = ""%string)); [done|].
  destruct (reg_mem (dlg_name d) (labels_config s)); [done|].
  destruct (max_value (labels_config s)) as [mx|]; simpl; [|done].
  destruct (dlg_color d) as [[[r g] b]|]; simpl; [|done].
  destruct (mask_layer s); simpl; [|done].
  by destruct (create_colormap _).
Qed.

(** C6: on a registry with pairwise distinct values, an add under a name in
    use is rejected and leaves the registry as it was; an accepted add
    appends one entry whose value was not in use, so no add brings in a
    value already in use; the registry grows, by one entry, exactly when the
    add is accepted; and the values stay pairwise distinct. *)
Theorem add_custom_label_unique (s : widget) (d : label_dialog) :
  NoDup (reg_values (labels_config s)) →
  let cfg := labels_config s in
  let cfg' := labels_config (exec (add_custom_label d) s) in
  (reg_mem (dlg_name d) cfg = true → cfg' = cfg) ∧
  (cfg' = cfg ∨
   ∃ e, cfg' = cfg ++ [(dlg_name d, e)] ∧ value e ∉ reg_values cfg) ∧
  (cfg' ≠ cfg ↔
   dlg_ok d = true ∧ dlg_name d ≠ ""%string ∧ reg_mem (dlg_name d) cfg = false ∧
   cfg ≠ [] ∧ is_Some (dlg_color d)) ∧
  ((length cfg < length cfg')%nat ↔ cfg' ≠ cfg) ∧
  NoDup (reg_values cfg').
Proof.
  intros Hnd cfg cfg'. subst cfg'. rewrite add_custom_label_registry. fold cfg.
  assert (Hgrow : ∀ e : label_entry, cfg ++ [(dlg_name d, e)] ≠ cfg).
  { intros e Heq. apply (f_equal length) in Heq.
    rewrite length_app in Heq. simpl in Heq. lia. }
  assert (Hrej : ∀ P : Prop, ¬ P →
            (reg_mem (dlg_name d) cfg = true → cfg = cfg) ∧
            (cfg = cfg ∨
             ∃ e, cfg = cfg ++ [(dlg_name d, e)] ∧ value e ∉ reg_values cfg) ∧
            (cfg ≠ cfg ↔ P) ∧
            ((length cfg < length cfg)%nat ↔ cfg ≠ cfg) ∧
            NoDup (reg_values cfg)).
  { intros P HP. split; [done|]. split; [by left|]. split; [tauto|].
    split; [|done]. split; [lia|done]. }
  destruct (dlg_ok d) eqn:Hok; simpl.
  2:{ apply Hrej. intros (? & _); done. }
  case_bool_decide as Hname; simpl.
  { apply Hrej. tauto. }
  destruct (reg_mem (dlg_name d) cfg) eqn:Hmem.
  { apply Hrej. intros (_ & _ & ? & _); done. }
  apply reg_mem_false in Hmem.
  destruct (max_value cfg) as [mx|] eqn:Hmx.
  2:{ apply max_value_None in Hmx. apply Hrej. tauto. }
  destruct (dlg_color d) as [[[r g] b]|] eqn:Hc.
  2:{ apply Hrej. intros (_ & _ & _ & _ & [? ?]); done. }
  rewrite reg_set_fresh by done.
  pose proof (max_value_fresh _ _ Hmx) as Hfresh.
  split; [done|]. split.
  { right. eexists. split; [reflexivity|]. done. }
  split.
  { split; [intros _|intros _; apply Hgrow].
    repeat split; try done. intros ->. done. }
  split.
  { rewrite length_app. simpl. split; [intros _; apply Hgrow|lia]. }
  unfold reg_values. rewrite map_app. simpl.
  apply NoDup_app. split; [done|]. split.
  - intros x Hx Hin. apply list_elem_of_singleton in Hin. by subst.
  - apply NoDup_singleton.
Qed.

Lemma DEFAULT_LABELS_distinct : NoDup (reg_values DEFAULT_LABELS).
Proof. apply (bool_decide_unpack _). by vm_compute. Qed.

Lemma add_custom_label_unique_witness :
  NoDup (reg_values (labels_config init)) ∧
  labels_config
    (exec (add_custom_label (mk_label_dialog "cyst" true (Some (0, 0, 255)))) init)
  = DEFAULT_LABELS ++ [("cyst"%string, mk_label 3 (RGBA 0 0 255 255))] ∧
  NoDup (reg_values (labels_config
    (exec (add_custom_label (mk_label_dialog "cyst" true (Some (0, 0, 255)))) init))).
Proof.
  split; [apply DEFAULT_LABELS_distinct|]. split; [reflexivity|].
  apply (add_custom_label_unique init
           (mk_label_dialog "cyst" true (Some (0, 0, 255)))
           DEFAULT_LABELS_distinct).
Defined.

Example add_custom_label_name_in_use :
  labels_config
    (exec (add_custom_label (mk_label_dialog "background" true (Some (1, 2, 3)))) init)
  = DEFAULT_LABELS.
Proof. reflexivity. Qed.

(* --------------------------------------------------------------------- *)
(* Frame cursor                                                          *)
(* --------------------------------------------------------------------- *)

Lemma wp_change_frame (i : Z) (Q : result unit → world → Prop) w :
  (∀ r w', same_video (wd w) (wd w') →
           frame_slider (wd w') = frame_slider (wd w) →
           ((∃ v, current_video (wd w) = Some v ∧ current_frame (wd w') = i ∧
                  current_masks (wd w') = visited v i (persisted (wd w))) ∨
            wd w' = wd w ∧ current_video (wd w) = None) → Q r w') →
  wp (change_frame i) Q w.
Proof.
  intros HQ. unfold change_frame. destruct w as [s sh wr].
  wp_run.
  1,2: apply wp_create_new_mask;
       intros r w' (Hv & Hp & Hf & Ht & Hl & Hs) Hfill _; simpl in *;
       apply HQ; simpl; [done|done|left];
       eexists; split; [done|]; split; [done|];
       unfold lazily_filled, persisted in *; simpl in *;
       repeat match goal with H : _ = _ |- _ => rewrite H in * end; done.
  apply HQ; simpl; [done|done|by right].
Qed.

Lemma bound_range (sl : slider) (v : Z) :
  s_min sl ≤ s_max sl → s_min sl ≤ bound sl v ≤ s_max sl.
Proof. unfold bound. lia. Qed.

Lemma wp_set_value (v : Z) (Q : result unit → world → Prop) w :
  (∀ w', same_video (wd w) (wd w') →
         frame_slider (wd w') =
           mk_slider (s_min (frame_slider (wd w))) (s_max (frame_slider (wd w)))
                     (bound (frame_slider (wd w)) v) →
         ((∃ vid, current_video (wd w) = Some vid ∧
                  current_frame (wd w') = bound (frame_slider (wd w)) v ∧
                  current_masks (wd w') =
                    visited vid (bound (frame_slider (wd w)) v) (persisted (wd w))) ∨
          current_frame (wd w') = current_frame (wd w) ∧
          current_masks (wd w') = current_masks (wd w) ∧
          (bound (frame_slider (wd w)) v = s_value (frame_slider (wd w)) ∨
           current_video (wd w) = None)) →
         Q (Ok tt) w') →
  wp (set_value v) Q w.
Proof.
  intros HQ. unfold set_value. destruct w as [s sh wr].
  wp_run.
  - apply bool_decide_eq_true in Heqb.
    apply HQ; simpl; [done| |by right; split; [|split; [|left]]].
    rewrite Heqb. by destruct (frame_slider s).
  - apply wp_change_frame. intros r w' Hv Hs Hc. simpl in *.
    assert (Q (Ok tt) w') as HQ'.
    { apply HQ; simpl; [done|by rewrite Hs|].
      destruct Hc as [(vid & ? & ? & ?)|[-> ?]];
        [left; by exists vid|right; split; [done|split; [done|by right]]]. }
    destruct r as [[]|]; [done|]. by apply wp_ret.
Qed.

Lemma wp_set_maximum (x : Z) (Q : result unit → world → Prop) w :
  (∀ w', same_video (wd w) (wd w') →
         s_min (frame_slider (wd w')) = Z.min (s_min (frame_slider (wd w))) x →
         s_max (frame_slider (wd w')) =
           Z.max (Z.min (s_min (frame_slider (wd w))) x) x →
         (current_frame (wd w') = s_value (frame_slider (wd w')) ∨
          current_frame (wd w') = current_frame (wd w) ∧
          current_masks (wd w') = current_masks (wd w)) →
         Q (Ok tt) w') →
  wp (set_maximum x) Q w.
Proof.
  intros HQ. unfold set_maximum. destruct w as [s sh wr].
  wp_run.
  - apply andb_true_iff in Heqb as [H1%bool_decide_eq_true H2%bool_decide_eq_true].
    apply HQ; simpl; [done|done|done|by right].
  - apply wp_set_value. simpl. intros w' Hv Hs Hc.
    apply HQ; simpl; [done|by rewrite Hs|by rewrite Hs|].
    rewrite Hs. simpl.
    destruct Hc as [(? & _ & ? & _)|(? & ? & _)]; [by left|by right].
Qed.

Lemma navigate_cursor (T : Z) (n : navigation) (s : widget) :
  cursor_inv T s → cursor_inv T (exec (navigate n) s).
Proof.
  intros (Ht & Hmin & Hmax & Hc). apply wp_exec.
  assert (s_min (frame_slider s) ≤ s_max (frame_slider s)) as Hrange by lia.
  assert (∀ v s0,
    total_frames s0 = total_frames s → frame_slider s0 = frame_slider s →
    current_frame s0 = current_frame s →
    wp (set_value v) (fun _ w' => cursor_inv T (wd w')) (mk_world s0 [] []))
    as Hset.
  { intros v s0 Ht0 Hs0 Hc0. apply wp_set_value. simpl.
    intros w' (_ & _ & Ht' & _) Hsl Hcur. unfold cursor_inv.
    rewrite Hsl, Hs0 in *. simpl.
    pose proof (bound_range (frame_slider s) v Hrange).
    destruct Hcur as [(? & _ & ? & _)|[? _]]; lia. }
  destruct n as [| |v]; simpl.
  - unfold prev_frame. wp_run; try done; by apply Hset.
  - unfold next_frame. wp_run; try done; by apply Hset.
  - by apply Hset.
Qed.

Lemma after_navigate_cursor (T : Z) (ns : list navigation) (s : widget) :
  cursor_inv T s → cursor_inv T (after (navigate <$> ns) s).
Proof.
  revert s. induction ns as [|n ns IH]; intros s Hs; simpl; [done|].
  apply IH. by apply navigate_cursor.
Qed.

(** After [load_video] has decoded a video, the cursor is on frame 0 and
    the slider spans the frames. *)
Lemma load_video_cursor (s : widget) (path : string) (v : video) :
  path ≠ ""%string → s_min (frame_slider s) = 0 →
  let s' := exec (load_video path (ReadVideo v)) s in
  cursor_inv (Z.of_nat (v_len v)) s' ∧ current_frame s' = 0 ∧
  current_video s' = Some v ∧ current_video_path s' = Some path ∧
  labels_config s' = labels_config s.
Proof.
  intros Hpath Hmin s'. subst s'.
  assert (1 ≤ Z.of_nat (v_len v)) as HT by (unfold v_len, v_frames; simpl; lia).
  set (Goal := fun s' : widget =>
    cursor_inv (Z.of_nat (v_len v)) s' ∧ current_frame s' = 0 ∧
    current_video s' = Some v ∧ current_video_path s' = Some path ∧
    labels_config s' = labels_config s).
  apply (wp_exec _ _ Goal).
  unfold load_video. rewrite bool_decide_eq_false_2 by done.
  wp_run.
  all: apply wp_set_maximum; simpl;
    intros w1 (Hv1 & Hp1 & Ht1 & Hl1) Hmin1 Hmax1 Hc1; simpl in *;
    rewrite Hmin in Hmin1, Hmax1;
    wp_step; apply wp_set_value; intros w2 (Hv2 & Hp2 & Ht2 & Hl2) Hs2 Hc2;
    assert (bound (frame_slider (wd w1)) 0 = 0) as Hb by (unfold bound; lia);
    rewrite Hb in *;
    assert (current_frame (wd w2) = 0) as Hcur
      by (destruct Hc2 as [(? & _ & ? & _)|(Hc2 & _ & [Hb2|Hn])];
            [done| |congruence];
          rewrite Hc2; destruct Hc1 as [Hc1|[? _]]; [|done]; by rewrite Hc1);
    wp_step; apply wp_create_new_mask;
    intros r w3 (Hv3 & Hp3 & Hf3 & Ht3 & Hl3 & Hs3) _ _;
    assert (Goal (wd w3)) as HG
      by (unfold Goal, cursor_inv;
          rewrite Hs3, Hs2, Hf3, Ht3, Ht2, Hv3, Hv2, Hp3, Hp2, Hl3, Hl2; simpl;
          repeat split; try done; try lia; congruence);
    destruct r as [[]|]; by wp_run.
Qed.

(** C7: once a video of T frames is loaded, whatever sequence of previous,
    next and slider moves follows, the cursor stays within [0, T);
    previous on frame 0 and next on frame T - 1 change nothing. The slider
    of the prior state has the minimum 0 that setup_ui gives it. *)
Theorem frame_cursor_in_bounds
    (s : widget) (path : string) (v : video) (ns : list navigation) :
  path ≠ ""%string → s_min (frame_slider s) = 0 →
  let T := Z.of_nat (v_len v) in
  let s' := after (navigate <$> ns) (exec (load_video path (ReadVideo v)) s) in
  total_frames s' = T ∧
  0 ≤ current_frame s' < T ∧
  (current_frame s' = 0 → exec prev_frame s' = s') ∧
  (current_frame s' = T - 1 → exec next_frame s' = s').
Proof.
  intros Hpath Hmin T s'.
  destruct (load_video_cursor s path v Hpath Hmin) as (Hinv & _).
  apply (after_navigate_cursor _ ns) in Hinv. fold T in Hinv. fold s' in Hinv.
  destruct Hinv as (Ht & _ & _ & Hc).
  split; [done|]. split; [done|]. split.
  - intros H0. unfold exec, run, prev_frame, mbind, M_bind, get; simpl.
    rewrite H0. done.
  - intros HT. unfold exec, run, next_frame, mbind, M_bind, get; simpl.
    rewrite HT, Ht. by rewrite Z.ltb_irrefl.
Qed.

Lemma frame_cursor_in_bounds_witness :
  "scan.mp4"%string ≠ ""%string ∧ s_min (frame_slider init) = 0 ∧
  0 ≤ current_frame
        (after (navigate <$> [Next; Next; Next; Previous; SliderTo 7; Next])
           (exec (load_video "scan.mp4"
                    (ReadVideo (mk_video 1 2 [1; 2] [[3; 4]; [5; 6]]))) init))
    < 3.
Proof.
  split; [done|]. split; [reflexivity|].
  apply (frame_cursor_in_bounds init "scan.mp4"
           (mk_video 1 2 [1; 2] [[3; 4]; [5; 6]])
           [Next; Next; Next; Previous; SliderTo 7; Next]); [done|reflexivity].
Defined.

Example cursor_after_walk :
  current_frame
    (after (navigate <$> [Next; Next; Next; Previous; SliderTo 7; Next])
       (exec (load_video "scan.mp4"
                (ReadVideo (mk_video 1 2 [1; 2] [[3; 4]; [5; 6]]))) init))
  = 2.
Proof. reflexivity. Qed.

(* --------------------------------------------------------------------- *)
(* Invariants of the masks held                                          *)
(* --------------------------------------------------------------------- *)

Section masks_all.
Context (vo : option video) (P : Np.ndarray → Prop).
Hypothesis P_zeros : ∀ v, vo = Some v → P (Np.zeros (frame_shape v)).

Let Inv (s : widget) : Prop := masks_all vo P s.
Let Post {A} : result A → world → Prop := fun _ w' => Inv (wd w').

Lemma masks_all_store_current (a : Np.ndarray) (s : widget) :
  Inv s → P a → Inv (store_current a s).
Proof.
  intros (Hv & Hm & Hl) Ha. repeat split; simpl; try done.
  - intros i m. destruct (decide (current_frame s = i)) as [<-|Hne].
    + rewrite lookup_insert_eq. by intros [= <-].
    + rewrite lookup_insert_ne by done. apply Hm.
  - intros l. destruct (mask_layer s) as [l0|] eqn:Hl0; simpl; [|done].
    intros [= <-]. simpl. by apply Hl.
Qed.

Lemma masks_all_visited (v : video) (i : Z) (st : gmap Z Np.ndarray) :
  vo = Some v →
  (∀ j m, st !! j = Some m → P m) →
  ∀ j m, visited v i st !! j = Some m → P m.
Proof.
  intros Hvo Hst j m. unfold visited.
  destruct (v_index v i) as [f|] eqn:Hf; [|apply Hst].
  destruct (st !! i) eqn:Hi; [apply Hst|].
  destruct (decide (i = j)) as [<-|Hne].
  - rewrite lookup_insert_eq. intros [= <-].
    rewrite (v_index_shape _ _ _ Hf). by apply P_zeros.
  - rewrite lookup_insert_ne by done. apply Hst.
Qed.

Lemma masks_all_create_new_mask w :
  Inv (wd w) → wp create_new_mask Post w.
Proof.
  intros (Hv & Hm & Hl). apply wp_create_new_mask.
  intros r w' (Hv' & _ & Hf' & Ht' & _ & _) Hfill Hshown. unfold Post.
  assert (∀ i m, current_masks (wd w') !! i = Some m → P m) as Hm'.
  { unfold lazily_filled in Hfill. rewrite Hfill.
    destruct (current_video (wd w)) as [v|] eqn:Hcv; [|done].
    apply (masks_all_visited v); [congruence|done]. }
  repeat split; try congruence; try done.
  destruct Hshown as [->|[->|(l & -> & Hlook)]]; [done|done|].
  intros l' [= <-]. by eapply Hm'.
Qed.

Lemma masks_all_change_frame (i : Z) w :
  Inv (wd w) → wp (change_frame i) Post w.
Proof.
  intros HI. unfold change_frame. destruct w as [s sh wr]. simpl in HI.
  wp_run; try done.
  - apply masks_all_create_new_mask; simpl.
    destruct (masks_all_store_current (Np.copy (layer_data l)) s HI)
      as (? & ? & ?); [by apply HI|]. done.
  - apply masks_all_create_new_mask; simpl.
    destruct HI as (? & ? & ?). done.
Qed.

Lemma masks_all_set_value (x : Z) w :
  Inv (wd w) → wp (set_value x) Post w.
Proof.
  intros HI. unfold set_value. destruct w as [s sh wr]. simpl in HI.
  wp_run; try done.
  eapply wp_mono.
  - apply masks_all_change_frame. simpl. destruct HI as (? & ? & ?). done.
  - intros [[]|] w' Hw'; [done|]. by apply wp_ret.
Qed.

Lemma masks_all_set_maximum (x : Z) w :
  Inv (wd w) → wp (set_maximum x) Post w.
Proof.
  intros HI. unfold set_maximum. destruct w as [s sh wr]. simpl in HI.
  wp_run; try done.
  all: apply masks_all_set_value; simpl; destruct HI as (? & ? & ?); done.
Qed.

Lemma masks_all_navigate (n : navigation) w :
  Inv (wd w) → wp (navigate n) Post w.
Proof.
  intros HI. destruct w as [s sh wr]. simpl in HI.
  destruct n as [| |x]; simpl; [unfold prev_frame|unfold next_frame|];
    wp_run; try done; apply masks_all_set_value; simpl; try done.
  all: apply masks_all_store_current; [done|by apply HI].
Qed.

Lemma masks_all_on_mask_changed w :
  Inv (wd w) → wp on_mask_changed Post w.
Proof.
  intros HI. unfold on_mask_changed. destruct w as [s sh wr]. simpl in HI.
  wp_run; try done. apply masks_all_store_current; [done|by apply HI].
Qed.

Lemma masks_all_copy_from_previous w :
  Inv (wd w) → wp copy_from_previous Post w.
Proof.
  intros HI. unfold copy_from_previous. destruct w as [s sh wr]. simpl in HI.
  wp_run; try done.
  eapply wp_mono.
  - apply masks_all_create_new_mask. simpl.
    apply masks_all_store_current; [done|]. destruct HI as (_ & Hm & _).
    by eapply Hm.
  - intros [[]|] w' Hw'; [|done]. by wp_run.
Qed.

Lemma masks_all_copy_to_next w :
  Inv (wd w) → wp copy_to_next Post w.
Proof.
  intros HI. unfold copy_to_next. destruct w as [s sh wr]. simpl in HI.
  wp_run; try done. destruct HI as (Hv & Hm & Hl).
  repeat split; simpl; try done.
  intros i m. destruct (decide (current_frame s + 1 = i)) as [<-|Hne].
  - rewrite lookup_insert_eq. intros [= <-]. by eapply Hm.
  - rewrite lookup_insert_ne by done. apply Hm.
Qed.

Lemma masks_all_clear_current_mask (reply : bool) w :
  Inv (wd w) → wp (clear_current_mask reply) Post w.
Proof.
  intros HI. unfold clear_current_mask. destruct w as [s sh wr]. simpl in HI.
  wp_run; try done.
  apply masks_all_create_new_mask. simpl.
  apply masks_all_store_current; [done|].
  rewrite (v_index_shape _ _ _ Heqo0). apply P_zeros.
  destruct HI as (Hv & _). congruence.
Qed.
Lemma masks_all_labels (cfg : registry) (s : widget) :
  Inv s → Inv (set_labels cfg s).
Proof. intros (? & ? & ?). by repeat split. Qed.

Lemma masks_all_add_custom_label (d : label_dialog) w :
  Inv (wd w) → wp (add_custom_label d) Post w.
Proof.
  intros HI. unfold add_custom_label. destruct w as [s sh wr]. simpl in HI.
  wp_run; try done; by apply masks_all_labels.
Qed.

Lemma masks_all_load_label_config (path : string) (f : file_read config_document) w :
  Inv (wd w) → wp (load_label_config path f) Post w.
Proof.
  intros HI. unfold load_label_config, json_load. destruct w as [s sh wr].
  simpl in HI. wp_run; try done; by apply masks_all_labels.
Qed.

(** [load_masks] keeps the invariant when every array of the document
    satisfies [P]. *)
Lemma masks_all_load_masks (path : string) (f : file_read mask_document) w :
  (∀ d masks key rows a,
     f = Parsed d → doc_masks d = Some masks → (key, rows) ∈ masks →
     Np.array_uint16 rows = Some a → P a) →
  Inv (wd w) → wp (load_masks path f) Post w.
Proof.
  intros Hdoc HI. unfold load_masks, json_load. destruct w as [s sh wr].
  simpl in HI.
  assert (∀ w0, Inv (wd w0) →
            wp (s0 ← get;
                match mask_layer s0 with
                | Some _ => create_new_mask
                | None => mret tt
                end;; show (Information "Loaded masks"))
               (fun r w' =>
                  match r with
                  | Ok _ => Inv (wd w')
                  | Exc => wp (show (Critical "Failed to load masks")) Post w'
                  end) w0) as Htail.
  { intros w0 HI0. wp_run; try done.
    eapply wp_mono; [by apply masks_all_create_new_mask|].
    intros [[]|] w' HI'; by wp_run. }
  assert (∀ w0 masks,
            current_video (wd w0) = vo →
            current_masks (wd w0) = ∅ →
            (∀ l, mask_layer (wd w0) = Some l → P (layer_data l)) →
            (∀ key rows a, (key, rows) ∈ masks →
                           Np.array_uint16 rows = Some a → P a) →
            wp (for_each masks load_one) (fun _ w' => Inv (wd w')) w0) as Hloop.
  { intros w0 masks Hv0 Hm0 Hl0 Hmasks.
    apply (wp_for_each_inv (fun w' => Inv (wd w'))).
    - repeat split; try done. intros i m. by rewrite Hm0, lookup_empty.
    - intros [key rows] w1 Hin (Hv1 & Hm1 & Hl1). unfold load_one.
      destruct w1 as [s1 sh1 wr1]. wp_run; try done.
      repeat split; simpl; try done.
      intros i m. destruct (decide (z = i)) as [->|Hne].
      + rewrite lookup_insert_eq. intros [= <-]. by eapply Hmasks.
      + rewrite lookup_insert_ne by done. apply Hm1. }
  wp_step; [done|]. wp_step. wp_step.
  destruct f as [| |d]; [by wp_run..|]. wp_step.
  assert (∀ s0, Inv s0 →
            wp (match doc_masks d with
                | Some masks =>
                    modify (fun s1 => set_layer (unshare <$> mask_layer s1)
                                                (set_masks ∅ s1));;
                    for_each masks load_one
                | None => mret tt
                end)
               (fun _ w' => Inv (wd w')) (mk_world s0 sh wr)) as Hmasks.
  { intros s0 (Hv0 & Hm0 & Hl0).
    destruct (doc_masks d) as [masks|] eqn:Hd; [|by wp_run].
    wp_step. wp_step.
    apply Hloop; simpl; [done|done| |by eauto].
    intros l1. destruct (mask_layer s0) as [l0|]; simpl; [|done].
    intros [= <-]. simpl. by apply Hl0. }
  wp_step.
  destruct (doc_labels_config d) as [cfg|]; wp_step.
  all: wp_step; eapply wp_mono;
    [apply Hmasks; simpl; try done; by apply masks_all_labels|];
    intros [[]|] w' HI'; [by apply Htail|by wp_run].
Qed.

(** [load_video] without a decoded video: nothing but the mask of the layer
    written back. *)
Lemma masks_all_load_video_failed (path : string) w :
  Inv (wd w) → wp (load_video path ReadError) Post w.
Proof.
  intros HI. unfold load_video. destruct w as [s sh wr]. simpl in HI.
  wp_run; try done.
  apply masks_all_store_current; [done|by apply HI].
Qed.
End masks_all.

(** The masks held do not depend on what was held before a video is
    decoded: the store starts empty, the layer is gone. *)
Lemma masks_all_load_video (path : string) (v : video) (P : Np.ndarray → Prop) w :
  path ≠ ""%string → P (Np.zeros (frame_shape v)) →
  wp (load_video path (ReadVideo v))
     (fun _ w' => masks_all (Some v) P (wd w')) w.
Proof.
  intros Hpath HP0.
  assert (∀ v0, Some v = Some v0 → P (Np.zeros (frame_shape v0))) as HP
    by (by intros v0 [= <-]).
  unfold load_video. rewrite bool_decide_eq_false_2 by done.
  destruct w as [s sh wr]. wp_run.
  all: eapply wp_mono;
    [apply (masks_all_set_maximum (Some v) P HP); by repeat split|];
    intros [[]|] w1 HI1; [|by wp_run];
    wp_step; eapply wp_mono; [by apply (masks_all_set_value (Some v) P HP)|];
    intros [[]|] w2 HI2; [|by wp_run];
    wp_step; eapply wp_mono; [by apply (masks_all_create_new_mask (Some v) P HP)|];
    intros [[]|] w3 HI3; by wp_run.
Qed.

Section masks_painted.
Context (vo : option video) (P : Np.ndarray → Prop).
Hypothesis P_shape : ∀ a d, P a → P (Np.mk_array (Np.shape a) d).

(** A brush stroke changes pixels, not the extent of the array. *)
Lemma masks_all_paint (offsets : list nat) w :
  masks_all vo P (wd w) →
  wp (paint offsets) (fun _ w' => masks_all vo P (wd w')) w.
Proof.
  intros (Hv & Hm & Hl). unfold paint. destruct w as [s sh wr]. simpl in *.
  wp_run; try done.
  - repeat split; simpl; try done.
    + intros i m. destruct (decide (current_frame s = i)) as [<-|Hne].
      * rewrite lookup_insert_eq. intros [= <-]. by apply P_shape, Hl.
      * rewrite lookup_insert_ne by done. apply Hm.
    + intros l' [= <-]. simpl. by apply P_shape, Hl.
  - repeat split; simpl; try done.
    intros l' [= <-]. simpl. by apply P_shape, Hl.
  - repeat split; try done. intros l' Hl'. apply Hl. congruence.
Qed.
End masks_painted.

(* --------------------------------------------------------------------- *)
(* Loading a video                                                       *)
(* --------------------------------------------------------------------- *)

Lemma wp_use {A} (m : M A) (Q1 Q : result A → world → Prop) w :
  wp m Q1 w → wp m (fun r w' => Q1 r w' → Q r w') w → wp m Q w.
Proof. unfold wp. auto. Qed.

Lemma visited_lookup (v : video) (i : Z) (st : gmap Z Np.ndarray) :
  0 ≤ i < Z.of_nat (v_len v) → is_Some (visited v i st !! i).
Proof.
  intros Hi. unfold visited.
  destruct (v_index_in_range v i Hi) as [f ->].
  destruct (st !! i) eqn:Hst; [by rewrite Hst|].
  rewrite lookup_insert_eq. by eexists.
Qed.

(** [load_video] on a decoded video: cursor on frame 0, slider over the
    frames, and every mask held is one allocated for the new video. *)
Lemma load_video_fresh (s : widget) (path : string) (v : video)
    (P : Np.ndarray → Prop) :
  path ≠ ""%string → s_min (frame_slider s) = 0 →
  P (Np.zeros (frame_shape v)) →
  let s' := exec (load_video path (ReadVideo v)) s in
  masks_all (Some v) P s' ∧ is_Some (current_masks s' !! 0).
Proof.
  intros Hpath Hmin HP0 s'. subst s'.
  assert (∀ v0, Some v = Some v0 → P (Np.zeros (frame_shape v0))) as HP
    by (by intros v0 [= <-]).
  assert (1 ≤ Z.of_nat (v_len v)) as HT by (unfold v_len, v_frames; simpl; lia).
  set (Goal := fun s' : widget =>
    masks_all (Some v) P s' ∧ is_Some (current_masks s' !! 0)).
  apply (wp_exec _ _ Goal).
  unfold load_video. rewrite bool_decide_eq_false_2 by done.
  wp_run.
  all: eapply wp_use;
    [apply (masks_all_set_maximum (Some v) P HP); by repeat split|];
    apply wp_set_maximum; simpl;
    intros w1 (Hv1 & Hp1 & Ht1 & Hl1) Hmin1 Hmax1 Hc1 HI1; simpl in *;
    rewrite Hmin in Hmin1, Hmax1;
    wp_step;
    eapply wp_use; [by apply (masks_all_set_value (Some v) P HP)|];
    apply wp_set_value; intros w2 (Hv2 & Hp2 & Ht2 & Hl2) Hs2 Hc2 HI2;
    assert (bound (frame_slider (wd w1)) 0 = 0) as Hb by (unfold bound; lia);
    rewrite Hb in *;
    assert (current_frame (wd w2) = 0) as Hcur
      by (destruct Hc2 as [(? & _ & ? & _)|(Hc2 & _ & [Hb2|Hn])];
            [done| |congruence];
          rewrite Hc2; destruct Hc1 as [Hc1|[? _]]; [|done]; by rewrite Hc1);
    wp_step;
    eapply wp_use; [by apply (masks_all_create_new_mask (Some v) P HP)|];
    apply wp_create_new_mask;
    intros r w3 (Hv3 & Hp3 & Hf3 & Ht3 & Hl3 & Hs3) Hfill _ HI3;
    assert (Goal (wd w3)) as HG
      by (split; [done|]; unfold lazily_filled in Hfill;
          rewrite Hfill, Hv2, Hv1, Hcur; simpl; by apply visited_lookup);
    destruct r as [[]|]; by wp_run.
Qed.

(** What a read that fails leaves: the mask on the layer written back to
    the store, nothing else. *)
Lemma load_video_read_error (s : widget) (path : string) (l : labels_layer) (v0 : video) :
  path ≠ ""%string → mask_layer s = Some l → current_video s = Some v0 →
  exec (load_video path ReadError) s = store_current (Np.copy (layer_data l)) s.
Proof.
  intros Hpath Hl Hv. unfold exec, run, load_video.
  rewrite bool_decide_eq_false_2 by done.
  unfold try_except, mbind, M_bind, get, modify, raise, show; simpl.
  by rewrite Hl, Hv.
Qed.

(** C8: loading a new video while a video and a mask layer are active first
    writes the mask of the current frame into the in-memory store (this is
    what is left when the read then fails); when the video is read, the
    store is replaced: every mask it holds afterwards is a zero mask
    allocated for the new video, frame 0 has one, and the widget holds the
    new video with its frame count and the cursor on frame 0. *)
Theorem load_video_discards_prior_state
    (s : widget) (path : string) (v v0 : video) (l : labels_layer) :
  path ≠ ""%string → s_min (frame_slider s) = 0 →
  mask_layer s = Some l → current_video s = Some v0 →
  let failed := exec (load_video path ReadError) s in
  let s' := exec (load_video path (ReadVideo v)) s in
  current_masks failed !! current_frame s = Some (layer_data l) ∧
  failed = store_current (Np.copy (layer_data l)) s ∧
  current_video s' = Some v ∧
  current_video_path s' = Some path ∧
  total_frames s' = Z.of_nat (v_len v) ∧
  current_frame s' = 0 ∧
  (∀ i m, current_masks s' !! i = Some m → m = Np.zeros (frame_shape v)) ∧
  current_masks s' !! 0 = Some (Np.zeros (frame_shape v)).
Proof.
  intros Hpath Hmin Hl Hv failed s'.
  assert (failed = store_current (Np.copy (layer_data l)) s) as Hfailed
    by (by apply (load_video_read_error s path l v0)).
  destruct (load_video_cursor s path v Hpath Hmin)
    as ((Ht & _) & Hc & Hvid & Hp & _).
  destruct (load_video_fresh s path v (fun m => m = Np.zeros (frame_shape v))
              Hpath Hmin eq_refl) as ((_ & Hm & _) & [m0 H0]).
  fold s' in Ht, Hc, Hvid, Hp, Hm, H0.
  split; [rewrite Hfailed; simpl; by rewrite lookup_insert_eq|].
  repeat split; try done.
  rewrite H0. f_equal. by eapply Hm.
Qed.

Lemma load_video_discards_prior_state_witness :
  "next.mp4"%string ≠ ""%string ∧
  s_min (frame_slider painted3) = 0 ∧
  mask_layer painted3 = Some (mk_layer (Np.mk_array [1; 2]%nat [0; 1]) true 1 10) ∧
  current_video painted3 = Some clip3 ∧
  current_masks (exec (load_video "next.mp4" ReadError) painted3) !! 0
    = Some (Np.mk_array [1; 2]%nat [0; 1]) ∧
  current_masks
    (exec (load_video "next.mp4" (ReadVideo (mk_video 2 1 [5; 5] []))) painted3) !! 0
    = Some (Np.zeros [2; 1]%nat).
Proof.
  split; [done|]. split; [reflexivity|]. split; [reflexivity|].
  split; [reflexivity|].
  destruct (load_video_discards_prior_state painted3 "next.mp4"
              (mk_video 2 1 [5; 5] []) clip3
              (mk_layer (Np.mk_array [1; 2]%nat [0; 1]) true 1 10)
              ltac:(done) eq_refl eq_refl eq_refl)
    as (Hpersist & _ & _ & _ & _ & _ & _ & Hzero).
  split; [exact Hpersist|exact Hzero].
Defined.

Example load_video_keeps_nothing :
  map_to_list (current_masks
    (exec (load_video "next.mp4" (ReadVideo (mk_video 2 1 [5; 5] []))) painted3))
  = [(0, Np.zeros [2; 1]%nat)].
Proof. reflexivity. Qed.

Example load_video_failed_read_persists :
  map_to_list (current_masks
    (exec (load_video "b.mp4" ReadError)
       (exec (on_mask_changed ;; paint [1%nat])
          (exec (load_video "a.mp4" (ReadVideo (mk_video 1 2 [9; 9] [[8; 8]]))) init))))
  = [(0, Np.mk_array [1; 2]%nat [0; 1])].
Proof. reflexivity. Qed.

(* --------------------------------------------------------------------- *)
(* Bulk export                                                           *)
(* --------------------------------------------------------------------- *)

Section export_loop.
Context (imwrite_ok : Np.ndarray → bool) (root : string) (v : video)
  (masks : gmap Z Np.ndarray) (cm : gmap Z (Z * Z * Z)) (H W : nat).

Let body := export_frame imwrite_ok root v masks cm H W.
Let ok := exportable imwrite_ok v masks cm H W.
Let files := artifacts root v masks cm H W.

(** One round of the loop: it raises unless the frame is exportable, and
    else appends the files of the frame and sets the two slices. *)
Lemma wp_export_frame (i : nat) (fs ms : list (list Z))
    (Q : result (list (list Z) * list (list Z)) → world → Prop) w :
  (if ok i
   then Q (Ok (<[i := frame_entry v i]> fs, 
               match masks !! Z.of_nat i with
               | Some _ => <[i := mask_entry masks H W i]> ms
               | None => ms
               end))
          (mk_world (wd w) (shown w) (written w ++ files i))
   else ∀ w', wd w' = wd w → shown w' = shown w → Q Exc w') →
  wp (body i (fs, ms)) Q w.
Proof.
  subst body ok files. unfold export_frame, exportable, artifacts,
    frame_artifacts, mask_artifacts, frame_entry, mask_entry, imwrite.
  destruct w as [s sh wr]. simpl.
  intros HQ. wp_run; simpl in *;
    repeat match goal with
           | H : ?x = _ |- context [?x] => rewrite H
           | H : ?x = _, H' : context [?x] |- _ => rewrite H in H'
           end; simpl in *;
    try (apply HQ; done).
  all: try (rewrite <- !app_assoc; simpl; exact HQ).
Qed.

(** The loop over [range(a, a + n)], the slices before [a] being set: it
    returns when every round does, with the files of the frames in order and
    the slices of the frames set. *)
Lemma wp_export_loop (n a : nat) (pf pm : list (list Z)) (z : list Z)
    (Q : result (list (list Z) * list (list Z)) → world → Prop) w :
  length pf = a → length pm = a →
  (if forallb ok (seq a n)
   then Q (Ok (pf ++ map (frame_entry v) (seq a n),
               pm ++ map (fun i => match masks !! Z.of_nat i with
                                   | Some _ => mask_entry masks H W i
                                   | None => z
                                   end) (seq a n)))
          (mk_world (wd w) (shown w) (written w ++ flat_map files (seq a n)))
   else ∀ w', wd w' = wd w → shown w' = shown w → Q Exc w') →
  wp (fold_m (seq a n) body (pf ++ repeat z n, pm ++ repeat z n)) Q w.
Proof.
  revert a pf pm w. induction n as [|n IH]; intros a pf pm w Hpf Hpm; simpl.
  - rewrite !app_nil_r. destruct w. by apply wp_ret.
  - intros HQ. wp_step. apply wp_export_frame. fold ok.
    destruct (ok a) eqn:Hok; simpl in *.
    + replace (<[a:=frame_entry v a]> (pf ++ z :: repeat z n))
        with ((pf ++ [frame_entry v a]) ++ repeat z n).
      2:{ rewrite <- Hpf, insert_app_r_alt, Nat.sub_diag by lia.
          simpl. by rewrite <- app_assoc. }
      replace (match masks !! Z.of_nat a with
               | Some _ => <[a:=mask_entry masks H W a]> (pm ++ z :: repeat z n)
               | None => pm ++ z :: repeat z n
               end)
        with ((pm ++ [match masks !! Z.of_nat a with
                      | Some _ => mask_entry masks H W a
                      | None => z
                      end]) ++ repeat z n).
      2:{ destruct (masks !! Z.of_nat a).
          - rewrite <- Hpm, insert_app_r_alt, Nat.sub_diag by lia.
            simpl. by rewrite <- app_assoc.
          - by rewrite <- app_assoc. }
      apply IH; [rewrite length_app; simpl; lia..|].
      simpl. destruct (forallb ok (seq (S a) n)).
      * rewrite <- !app_assoc. simpl. exact HQ.
      * done.
    + intros w' Hw' Hs'. by apply HQ.
Qed.
End export_loop.

(** [export_frames_and_masks_png_npy], read off its branches: with a video
    and a folder, it reports success and has written the files of every
    frame in order, the two stacks and the metadata when every frame is
    exportable, and reports failure else; the widget is as before. *)
Lemma export_outcome (imwrite_ok : Np.ndarray → bool) (root : string)
    (s : widget) (v : video) :
  current_video s = Some v → root ≠ ""%string →
  let T := Z.to_nat (total_frames s) in
  let H := v_height v in
  let W := v_width v in
  let cm := export_colormap (labels_config s) in
  let w' := snd (run (export_frames_and_masks_png_npy imwrite_ok root) s) in
  wd w' = s ∧
  if forallb (exportable imwrite_ok v (current_masks s) cm H W) (seq 0 T)
  then
    shown w' = [Information "Exported frames and masks"] ∧
    written w' =
      flat_map (artifacts root v (current_masks s) cm H W) (seq 0 T) ++
      [(frames_stack_npy root,
        Npy (Np.mk_array [T; H; W] (concat (map (frame_entry v) (seq 0 T)))));
       (masks_stack_npy root,
        Npy (Np.mk_array [T; H; W]
               (concat (map (mask_entry (current_masks s) H W) (seq 0 T)))));
       (export_metadata_json root,
        JsonExport
          (mk_export_metadata (current_video_path s) (total_frames s) [H; W]
             (merge_sort Z.le (map fst (map_to_list (current_masks s))))
             (labels_config s)))]
  else shown w' = [Critical "Failed to export data"].
Proof.
  intros Hv Hroot T H W cm w'. subst w'.
  unfold run.
  set (Q := fun (_ : result unit) (w' : world) =>
    wd w' = s ∧
    if forallb (exportable imwrite_ok v (current_masks s) cm H W) (seq 0 T)
    then shown w' = [Information "Exported frames and masks"] ∧
         written w' = flat_map (artifacts root v (current_masks s) cm H W) (seq 0 T) ++
           [(frames_stack_npy root,
             Npy (Np.mk_array [T; H; W] (concat (map (frame_entry v) (seq 0 T)))));
            (masks_stack_npy root,
             Npy (Np.mk_array [T; H; W]
                    (concat (map (mask_entry (current_masks s) H W) (seq 0 T)))));
            (export_metadata_json root,
             JsonExport
               (mk_export_metadata (current_video_path s) (total_frames s) [H; W]
                  (merge_sort Z.le (map fst (map_to_list (current_masks s))))
                  (labels_config s)))]
    else shown w' = [Critical "Failed to export data"]).
  change (wp (export_frames_and_masks_png_npy imwrite_ok root) Q (mk_world s [] [])).
  unfold export_frames_and_masks_png_npy.
  wp_step. wp_step. simpl. rewrite Hv. simpl.
  rewrite bool_decide_eq_false_2 by done.
  wp_step. wp_step.
  apply (wp_export_loop imwrite_ok root v (current_masks s) cm H W T 0 [] []
           (repeat 0 (H * W)%nat)); [done|done|]. simpl.
  fold T H W cm.
  destruct (forallb (exportable imwrite_ok v (current_masks s) cm H W) (seq 0 T)) eqn:Hall.
  - wp_run. unfold Q. simpl. split; [done|]. split; [done|].
    rewrite <- !app_assoc. simpl. do 3 f_equal.
    do 4 f_equal. apply map_ext. intros i. unfold mask_entry.
    by destruct (current_masks s !! Z.of_nat i).
  - intros w' Hw' Hs'. wp_run. unfold Q. simpl.
    split; [done|]. by rewrite Hs'.
Qed.

(* --------------------------------------------------------------------- *)
(* The file names of the export layout                                   *)
(* --------------------------------------------------------------------- *)

Lemma string_app_inv_head (r x y : string) : r +:+ x = r +:+ y → x = y.
Proof. induction r as [|c r IH]; simpl; [done|]. intros [= H]. by apply IH. Qed.

Lemma string_app_length (x y : string) :
  String.length (x +:+ y) = (String.length x + String.length y)%nat.
Proof. induction x as [|c x IH]; simpl; [done|]. by rewrite IH. Qed.

Lemma string_app_inv_tail (x y t : string) : x +:+ t = y +:+ t → x = y.
Proof.
  revert y. induction x as [|c x IH]; intros [|d y]; simpl; try done.
  - intros H. apply (f_equal String.length) in H.
    rewrite !string_app_length in H. simpl in H. lia.
  - intros H. apply (f_equal String.length) in H.
    rewrite !string_app_length in H. simpl in H. lia.
  - intros [= -> H]. f_equal. by apply IH.
Qed.

Lemma artifact_path_inj (root : string) (k1 k2 : artifact_kind) (i j : nat) :
  artifact_path root k1 i = artifact_path root k2 j → k1 = k2 ∧ i = j.
Proof.
  unfold artifact_path, frame_png, frame_npy, mask_raw_png, mask_color_png, mask_npy.
  destruct k1, k2; intros H; apply string_app_inv_head in H; simpl in H;
    try discriminate H;
    (split; [done|]); injection H as H;
    change (Py.fmt04 i +:+ ".png" = Py.fmt04 j +:+ ".png")%string in H
    || change (Py.fmt04 i +:+ ".npy" = Py.fmt04 j +:+ ".npy")%string in H;
    apply string_app_inv_tail in H; by apply fmt04_inj.
Qed.

Lemma artifact_path_not_final (root : string) (k : artifact_kind) (i : nat) :
  artifact_path root k i ≠ frames_stack_npy root ∧
  artifact_path root k i ≠ masks_stack_npy root ∧
  artifact_path root k i ≠ export_metadata_json root.
Proof.
  unfold artifact_path, frame_png, frame_npy, mask_raw_png, mask_color_png,
    mask_npy, frames_stack_npy, masks_stack_npy, export_metadata_json.
  repeat split; destruct k; intros H; apply string_app_inv_head in H;
    simpl in H; discriminate H.
Qed.

Lemma count_path_app (p : string) (l1 l2 : list (string * payload)) :
  count_path p (l1 ++ l2) = (count_path p l1 + count_path p l2)%nat.
Proof. induction l1 as [|e l1 IH]; simpl; [done|]. rewrite IH. lia. Qed.

Lemma bool_decide_artifact_path (root : string) (k1 k2 : artifact_kind) (i j : nat) :
  bool_decide (artifact_path root k1 i = artifact_path root k2 j)
  = bool_decide (k1 = k2) && bool_decide (i = j).
Proof.
  destruct (decide (k1 = k2 ∧ i = j)) as [[-> ->]|Hne].
  - by rewrite !bool_decide_eq_true_2.
  - rewrite bool_decide_eq_false_2.
    + symmetry. apply andb_false_iff.
      destruct (decide (k1 = k2)) as [->|?].
      * right. apply bool_decide_eq_false_2. intros ->. by apply Hne.
      * left. by apply bool_decide_eq_false_2.
    + intros H. by apply artifact_path_inj in H.
Qed.

Section counting.
Context (root : string) (v : video) (masks : gmap Z Np.ndarray)
  (cm : gmap Z (Z * Z * Z)) (H W : nat).

Let files := artifacts root v masks cm H W.

(** How often the file of kind [k] of frame [i] is written in the round of
    frame [j]. *)
Lemma count_path_artifacts (k : artifact_kind) (i j : nat) :
  is_Some (v_index v (Z.of_nat j)) →
  count_path (artifact_path root k i) (files j) =
    if bool_decide (i = j) &&
       (negb (is_mask_kind k) || bool_decide (is_Some (masks !! Z.of_nat j)))
    then 1%nat else 0%nat.
Proof.
  intros [frame Hf]. subst files.
  unfold artifacts, frame_artifacts, mask_artifacts. rewrite Hf.
  change (frame_png root j) with (artifact_path root FramePng j).
  change (frame_npy root j) with (artifact_path root FrameNpy j).
  change (mask_raw_png root j) with (artifact_path root MaskRawPng j).
  change (mask_color_png root j) with (artifact_path root MaskColorPng j).
  change (mask_npy root j) with (artifact_path root MaskNpy j).
  destruct (masks !! Z.of_nat j) as [m|]; cbn [count_path app fst];
    rewrite !bool_decide_artifact_path;
    destruct (decide (i = j)) as [->|Hne].
  - rewrite !(bool_decide_eq_true_2 (j = j)) by done.
    rewrite (bool_decide_eq_true_2 (is_Some (Some m))) by (by eexists).
    by destruct k.
  - rewrite !(bool_decide_eq_false_2 (j = i)) by congruence.
    rewrite (bool_decide_eq_false_2 (i = j)) by done.
    by rewrite !andb_false_r.
  - rewrite !(bool_decide_eq_true_2 (j = j)) by done.
    rewrite (bool_decide_eq_false_2 (is_Some None)) by (by intros [? ?]).
    by destruct k.
  - rewrite !(bool_decide_eq_false_2 (j = i)) by congruence.
    rewrite (bool_decide_eq_false_2 (i = j)) by done.
    by rewrite !andb_false_r.
Qed.

Lemma count_path_frames (k : artifact_kind) (i a n : nat) :
  (∀ j, (a ≤ j < a + n)%nat → is_Some (v_index v (Z.of_nat j))) →
  count_path (artifact_path root k i) (flat_map files (seq a n)) =
    if bool_decide (a ≤ i < a + n)%nat &&
       (negb (is_mask_kind k) || bool_decide (is_Some (masks !! Z.of_nat i)))
    then 1%nat else 0%nat.
Proof.
  revert a. induction n as [|n IH]; intros a Hv; simpl.
  - rewrite bool_decide_eq_false_2 by lia. done.
  - rewrite count_path_app, count_path_artifacts by (apply Hv; lia).
    rewrite IH by (intros j Hj; apply Hv; lia).
    destruct (decide (i = a)) as [->|Hne].
    + rewrite (bool_decide_eq_true_2 (a = a)) by done.
      rewrite (bool_decide_eq_false_2 (S a ≤ a < _)%nat) by lia.
      rewrite (bool_decide_eq_true_2 (a ≤ a < _)%nat) by lia.
      simpl. lia.
    + rewrite (bool_decide_eq_false_2 (i = a)) by done. simpl.
      destruct (decide (S a ≤ i < S a + n)%nat).
      * rewrite (bool_decide_eq_true_2 (S a ≤ i < S a + n)%nat),
          (bool_decide_eq_true_2 (a ≤ i < a + S n)%nat) by lia. by simpl.
      * rewrite (bool_decide_eq_false_2 (S a ≤ i < S a + n)%nat),
          (bool_decide_eq_false_2 (a ≤ i < a + S n)%nat) by lia. by simpl.
Qed.

Lemma length_frames (a n : nat) :
  (∀ j, (a ≤ j < a + n)%nat → is_Some (v_index v (Z.of_nat j))) →
  length (flat_map files (seq a n)) =
    (2 * n + 3 * length (filter (fun j => is_Some (masks !! Z.of_nat j)) (seq a n)))%nat.
Proof.
  revert a. induction n as [|n IH]; intros a Hv; simpl; [done|].
  rewrite length_app, IH by (intros j Hj; apply Hv; lia).
  destruct (Hv a) as [frame Hf]; [lia|].
  subst files. unfold artifacts, frame_artifacts, mask_artifacts. rewrite Hf.
  rewrite filter_cons. destruct (masks !! Z.of_nat a) as [m|] eqn:Hm.
  - rewrite decide_True by (by eexists). simpl. lia.
  - rewrite decide_False by (by intros [? ?]). simpl. lia.
Qed.
End counting.

Lemma exportable_frame (imwrite_ok : Np.ndarray → bool) (v : video)
    (masks : gmap Z Np.ndarray) (cm : gmap Z (Z * Z * Z)) (H W i : nat) :
  exportable imwrite_ok v masks cm H W i = true →
  is_Some (v_index v (Z.of_nat i)).
Proof. unfold exportable. destruct (v_index v (Z.of_nat i)); [by eexists|done]. Qed.

(** A successful export went through every round of its loop. *)
Lemma export_succeeds_exportable (imwrite_ok : Np.ndarray → bool) (root : string)
    (s : widget) (v : video) :
  current_video s = Some v → root ≠ ""%string →
  export_succeeds imwrite_ok root s →
  forallb (exportable imwrite_ok v (current_masks s)
             (export_colormap (labels_config s)) (v_height v) (v_width v))
          (seq 0 (Z.to_nat (total_frames s))) = true.
Proof.
  intros Hv Hroot Hok. unfold export_succeeds in Hok.
  destruct (export_outcome imwrite_ok root s v Hv Hroot) as [_ Hout].
  destruct (forallb _ _); [done|]. rewrite Hout in Hok. discriminate Hok.
Qed.

(** C2: a successful bulk export has written, for every frame index below
    the frame count, the frame PNG and the frame NPY exactly once, and the
    raw mask PNG, the colorized mask PNG and the mask NPY exactly once when
    the store has a mask for the index and not at all when it has none;
    no such file is written for any other index, and beside these only the
    two stacks and the metadata are written. *)
Theorem export_completeness (imwrite_ok : Np.ndarray → bool) (root : string)
    (s : widget) (v : video) :
  current_video s = Some v → root ≠ ""%string →
  export_succeeds imwrite_ok root s →
  let T := Z.to_nat (total_frames s) in
  let log := written (snd (run (export_frames_and_masks_png_npy imwrite_ok root) s)) in
  (∀ k i, count_path (artifact_path root k i) log =
          if bool_decide (i < T)%nat &&
             (negb (is_mask_kind k) ||
              bool_decide (is_Some (current_masks s !! Z.of_nat i)))
          then 1%nat else 0%nat) ∧
  length log =
    (2 * T
     + 3 * length (filter (fun i => is_Some (current_masks s !! Z.of_nat i)) (seq 0 T))
     + 3)%nat.
Proof.
  intros Hv Hroot Hok T log.
  pose proof (export_succeeds_exportable imwrite_ok root s v Hv Hroot Hok) as Hall.
  destruct (export_outcome imwrite_ok root s v Hv Hroot) as [_ Hout].
  rewrite Hall in Hout. destruct Hout as [_ Hlog]. fold T log in Hlog.
  assert (∀ j, (0 ≤ j < 0 + T)%nat → is_Some (v_index v (Z.of_nat j))) as Hframes.
  { intros j Hj. rewrite forallb_forall in Hall.
    eapply exportable_frame, Hall. apply in_seq. fold T. lia. }
  split.
  - intros k i. rewrite Hlog, count_path_app, count_path_frames by done.
    destruct (artifact_path_not_final root k i) as (H1 & H2 & H3).
    cbn [count_path fst].
    rewrite (bool_decide_eq_false_2 (frames_stack_npy root = _)),
      (bool_decide_eq_false_2 (masks_stack_npy root = _)),
      (bool_decide_eq_false_2 (export_metadata_json root = _)) by congruence.
    rewrite (bool_decide_ext (0 ≤ i < 0 + T)%nat (i < T)%nat) by lia.
    lia.
  - rewrite Hlog, length_app, length_frames by done. simpl. lia.
Qed.

Lemma export_completeness_witness :
  current_video loaded3 = Some clip3 ∧ "out"%string ≠ ""%string ∧
  export_succeeds (fun _ => true) "out" loaded3 ∧
  count_path (artifact_path "out" FramePng 2)
    (written (snd (run (export_frames_and_masks_png_npy (fun _ => true) "out") loaded3)))
  = 1%nat ∧
  count_path (artifact_path "out" MaskRawPng 0)
    (written (snd (run (export_frames_and_masks_png_npy (fun _ => true) "out") loaded3)))
  = 1%nat ∧
  count_path (artifact_path "out" MaskRawPng 2)
    (written (snd (run (export_frames_and_masks_png_npy (fun _ => true) "out") loaded3)))
  = 0%nat.
Proof.
  split; [reflexivity|]. split; [done|]. split; [reflexivity|].
  pose proof (export_completeness (fun _ => true) "out" loaded3 clip3
                eq_refl ltac:(done) eq_refl) as [Hcount _].
  split; [exact (Hcount FramePng 2%nat)|].
  split; [exact (Hcount MaskRawPng 0%nat)|exact (Hcount MaskRawPng 2%nat)].
Defined.
(* --------------------------------------------------------------------- *)
(* Bulk export: the files of an export that stops, and the stack of masks *)
(* --------------------------------------------------------------------- *)

Lemma wp_fold_m_inv {A S} (I : world → Prop) (l : list A) (body : A → S → M S)
    (acc : S) w :
  I w →
  (∀ x acc w0, x ∈ l → I w0 → wp (body x acc) (fun _ w' => I w') w0) →
  wp (fold_m l body acc) (fun _ w' => I w') w.
Proof.
  revert acc w. induction l as [|x l IH]; intros acc w Hw Hbody; cbn [fold_m].
  - by apply wp_ret.
  - apply wp_bind. eapply wp_mono; [apply Hbody; [by left|exact Hw]|].
    intros [acc'|] w' Hw'; cbn beta iota; [|done].
    apply IH; [done|]. intros y acc0 w0 Hy. apply Hbody. by right.
Qed.

Section export_paths.
Context (imwrite_ok : Np.ndarray → bool) (root : string) (v : video)
  (masks : gmap Z Np.ndarray) (cm : gmap Z (Z * Z * Z)) (H W T : nat).

(** Nothing shown yet, and only files of single frames written. *)
Let frame_files (w : world) : Prop :=
  shown w = [] ∧
  Forall (fun f => ∃ k i, (i < T)%nat ∧ fst f = artifact_path root k i) (written w).

Lemma export_frame_paths (i : nat) (stacks : list (list Z) * list (list Z)) w :
  (i < T)%nat → frame_files w →
  wp (export_frame imwrite_ok root v masks cm H W i stacks)
     (fun _ w' => frame_files w') w.
Proof.
  intros Hi [Hshown Hfiles]. unfold export_frame, imwrite.
  destruct w as [s sh wr]. cbn [shown written] in *. subst sh.
  assert (∀ k, ∃ k' i', (i' < T)%nat ∧ artifact_path root k i = artifact_path root k' i')
    as Hpath by (intros k; by exists k, i).
  wp_run; (split; [done|]); cbn [written];
    repeat (apply Forall_app; split); try exact Hfiles;
    apply Forall_singleton; cbn [fst];
    first [apply (Hpath FramePng) | apply (Hpath FrameNpy) | apply (Hpath MaskRawPng)
          | apply (Hpath MaskColorPng) | apply (Hpath MaskNpy)].
Qed.
End export_paths.

Lemma export_written_paths (imwrite_ok : Np.ndarray → bool) (root : string)
    (s : widget) (v : video) :
  current_video s = Some v → root ≠ ""%string →
  let w' := snd (run (export_frames_and_masks_png_npy imwrite_ok root) s) in
  shown w' = [Information "Exported frames and masks"] ∨
  Forall (fun f => ∃ k i, (i < Z.to_nat (total_frames s))%nat ∧
                          fst f = artifact_path root k i) (written w').
Proof.
  intros Hv Hroot w'. subst w'. unfold run.
  set (Q := fun (_ : result unit) (w' : world) =>
    shown w' = [Information "Exported frames and masks"] ∨
    Forall (fun f => ∃ k i, (i < Z.to_nat (total_frames s))%nat ∧
                            fst f = artifact_path root k i) (written w')).
  change (wp (export_frames_and_masks_png_npy imwrite_ok root) Q (mk_world s [] [])).
  unfold export_frames_and_masks_png_npy.
  wp_step. wp_step. simpl. rewrite Hv. simpl.
  rewrite bool_decide_eq_false_2 by done.
  wp_step. wp_step.
  eapply wp_mono.
  { apply (wp_fold_m_inv
             (fun w => shown w = [] ∧
                Forall (fun f => ∃ k i, (i < Z.to_nat (total_frames s))%nat ∧
                                        fst f = artifact_path root k i) (written w))).
    - by split.
    - intros i acc w0 Hi%elem_of_seq Hw0.
      apply export_frame_paths; [lia|exact Hw0]. }
  intros [stacks|] w' [Hshown Hfiles]; cbn beta iota.
  - wp_run. left. cbn. by rewrite Hshown.
  - wp_run. right. exact Hfiles.
Qed.



(* --------------------------------------------------------------------- *)
(* The stacked masks                                                     *)
(* --------------------------------------------------------------------- *)

Lemma astype_uint16_id (m : Np.ndarray) :
  Np.wf_uint16 m = true → Np.astype_uint16 m = m.
Proof.
  unfold Np.wf_uint16, Np.astype_uint16. intros [_ Hr]%andb_true_iff.
  destruct m as [sh d]. simpl in *. f_equal.
  induction d as [|x d IH]; simpl in *; [done|].
  apply andb_true_iff in Hr as [Hx Hd]. rewrite IH by done. f_equal.
  unfold Np.is_uint16 in Hx. apply Z.mod_small. lia.
Qed.

(** A row read element by element. *)
Lemma row_of_nth (W a : nat) (d : list Z) :
  (a + W ≤ length d)%nat →
  map (fun c => nth (a + c) d 0) (seq 0 W) = take W (drop a d).
Proof.
  intros Hlen. apply list_eq. intros k.
  rewrite list_lookup_fmap. destruct (decide (k < W)%nat) as [Hk|Hk].
  - rewrite lookup_seq_lt by done. simpl.
    rewrite lookup_take_lt, lookup_drop by done.
    destruct (nth_lookup_or_length d (a + k) 0) as [->|?]; [done|lia].
  - rewrite lookup_seq_ge by lia. simpl.
    symmetry. apply lookup_take_ge. lia.
Qed.

(** A 2-D array assigned to a slice of its own shape is its content. *)
Lemma rows_of_nth (W H : nat) (d : list Z) :
  (H * W ≤ length d)%nat →
  flat_map (fun r => map (fun c => nth (r * W + c) d 0) (seq 0 W)) (seq 0 H)
  = take (H * W) d.
Proof.
  induction H as [|H IH]; intros Hlen; [done|].
  rewrite seq_S, flat_map_app, IH by lia. simpl. rewrite app_nil_r.
  rewrite row_of_nth by lia. rewrite take_take_drop. f_equal. lia.
Qed.

Lemma flat_map_ext_elem {A B} (f g : A → list B) (l : list A) :
  (∀ x, x ∈ l → f x = g x) → flat_map f l = flat_map g l.
Proof.
  induction l as [|x l IH]; intros Hfg; simpl; [done|].
  rewrite Hfg by left. rewrite IH; [done|]. intros y Hy. apply Hfg. by right.
Qed.

Lemma broadcast_2d_same_shape (H W : nat) (m : Np.ndarray) :
  Np.shape m = [H; W] → length (Np.data m) = (H * W)%nat →
  Np.broadcast_2d H W m = Some (Np.data m).
Proof.
  intros Hsh Hlen. unfold Np.broadcast_2d. rewrite Hsh. simpl.
  rewrite !Nat.eqb_refl. simpl. f_equal.
  etrans; [|apply (take_ge (Np.data m) (H * W)); lia].
  rewrite <- rows_of_nth by lia.
  apply flat_map_ext_elem. intros r Hr%elem_of_seq.
  apply map_ext_in. intros c Hc%in_seq.
  f_equal. destruct (H =? 1)%nat eqn:H1, (W =? 1)%nat eqn:W1;
    rewrite ?Nat.eqb_eq in *; subst; lia.
Qed.

(** Slice [i] of a stack whose slices all have [n] elements. *)
Lemma concat_slice (n i : nat) (rows : list (list Z)) (r : list Z) :
  Forall (fun row => length row = n) rows → rows !! i = Some r →
  take n (drop (i * n) (concat rows)) = r.
Proof.
  revert i. induction rows as [|row rows IH]; intros i Hall Hi; [done|].
  apply Forall_cons in Hall as [Hrow Hall]. destruct i as [|i]; simpl in *.
  - injection Hi as ->. rewrite drop_0. by rewrite take_app_length'.
  - rewrite drop_app_ge by lia.
    replace (n + i * n - length row)%nat with (i * n)%nat by lia.
    by apply IH.
Qed.

Section stacked_masks.
Context (imwrite_ok : Np.ndarray → bool) (root : string) (s : widget) (v : video).
Hypothesis Hvideo : current_video s = Some v.
Hypothesis Htotal : total_frames s = Z.of_nat (v_len v).
Hypothesis Hcodec : ∀ a, Np.shape a = frame_shape v → imwrite_ok a = true.
Hypothesis Hstore : ∀ i m,
  current_masks s !! i = Some m → 0 ≤ i < total_frames s →
  Np.shape m = frame_shape v ∧ Np.wf_uint16 m = true.

Let H := v_height v.
Let W := v_width v.
Let cm := export_colormap (labels_config s).


Lemma well_shaped_exportable (i : nat) :
  (i < v_len v)%nat → exportable imwrite_ok v (current_masks s) cm H W i = true.
Proof.
  intros Hi. unfold exportable.
  destruct (v_index_in_range v (Z.of_nat i)) as [frame Hf]; [lia|].
  rewrite Hf. rewrite (Hcodec frame (v_index_shape _ _ _ Hf)). simpl.
  destruct (current_masks s !! Z.of_nat i) as [m|] eqn:Hm; [|done].
  destruct (Hstore _ _ Hm) as [Hsh Hwf]; [lia|].
  rewrite (astype_uint16_id m Hwf).
  rewrite broadcast_2d_same_shape; [|done|].
  2:{ apply andb_true_iff in Hwf as [Hlen _]. apply Nat.eqb_eq in Hlen.
      rewrite Hlen, Hsh. simpl. lia. }
  rewrite bool_decide_eq_true_2 by (by eexists).
  rewrite (Hcodec m Hsh). rewrite Hsh. simpl.
  subst H W. rewrite !Nat.eqb_refl. simpl. by rewrite orb_true_r.
Qed.

Lemma well_shaped_all_exportable :
  forallb (exportable imwrite_ok v (current_masks s) cm H W)
          (seq 0 (Z.to_nat (total_frames s))) = true.
Proof.
  apply forallb_forall. intros i Hi%in_seq.
  apply well_shaped_exportable. rewrite Htotal in Hi. lia.
Qed.
End stacked_masks.


Lemma spec_example_store :
  current_masks spec_example
  = <[2 := Np.mk_array [5; 5]%nat (repeat 1 25)]> {[ 0 := Np.zeros [5; 5]%nat ]}.
Proof. reflexivity. Qed.


Example masks_stack_of_spec_example :
  (masks_stack_npy "out",
   Npy (Np.mk_array [3; 5; 5]%nat (repeat 0 25 ++ repeat 0 25 ++ repeat 1 25)))
  ∈ written (snd (run (export_frames_and_masks_png_npy (fun _ => true) "out")
                    spec_example)).
Proof. vm_compute. do 13 right. left. Qed.


(* --------------------------------------------------------------------- *)
(* The JSON mask document: save, then load                               *)
(* --------------------------------------------------------------------- *)

Lemma chunks_length (n k : nat) (d : list Z) : length (Np.chunks n k d) = n.
Proof. revert d. induction n as [|n IH]; intros d; simpl; [done|]. by rewrite IH. Qed.

Lemma chunks_concat (n k : nat) (d : list Z) :
  concat (Np.chunks n k d) = take (n * k) d.
Proof.
  revert d. induction n as [|n IH]; intros d; simpl; [done|].
  rewrite IH. apply take_take_drop.
Qed.

Lemma chunks_rows (n k : nat) (d : list Z) :
  (n * k ≤ length d)%nat → Forall (fun r => length r = k) (Np.chunks n k d).
Proof.
  revert d. induction n as [|n IH]; intros d Hlen; simpl; [done|].
  constructor.
  - rewrite length_take. lia.
  - apply IH. rewrite length_drop. lia.
Qed.

Lemma chunks_uint16 (n k : nat) (d : list Z) :
  forallb Np.is_uint16 d = true →
  forallb (forallb Np.is_uint16) (Np.chunks n k d) = true.
Proof.
  revert d. induction n as [|n IH]; intros d Hd; simpl; [done|].
  rewrite forallb_forall in Hd.
  apply andb_true_iff. split.
  - apply forallb_forall. intros x Hx. apply Hd.
    apply list_elem_of_In. apply list_elem_of_In in Hx.
    by apply (subseteq_take k d).
  - apply IH. apply forallb_forall. intros x Hx. apply Hd.
    apply list_elem_of_In. apply list_elem_of_In in Hx.
    by apply (subseteq_drop k d).
Qed.

(** [np.array(m.tolist(), dtype=np.uint16)] is [m] for a 2-D uint16 array
    with at least one row. *)
Lemma array_uint16_tolist (m : Np.ndarray) (h w : nat) :
  Np.shape m = [S h; w] → Np.wf_uint16 m = true →
  Np.array_uint16 (Np.tolist m) = Some m.
Proof.
  intros Hsh [Hlen Hr]%andb_true_iff. apply Nat.eqb_eq in Hlen.
  destruct m as [sh d]. simpl in *. subst sh.
  unfold Np.size_of in Hlen. simpl in Hlen.
  unfold Np.tolist. simpl.
  assert (Forall (fun r => length r = w) (Np.chunks h w (drop w d))) as Hrows
    by (apply chunks_rows; rewrite length_drop; lia).
  assert (length (take w d) = w) as Hfirst by (rewrite length_take; lia).
  rewrite Hfirst, Nat.eqb_refl. simpl.
  replace (forallb (fun r' => (length r' =? w)%nat) (Np.chunks h w (drop w d)))
    with true.
  2:{ symmetry. apply forallb_forall. intros r Hr'.
      rewrite Forall_forall in Hrows. apply Nat.eqb_eq, Hrows.
      by apply list_elem_of_In. }
  pose proof (chunks_uint16 (S h) w d Hr) as Hall. simpl in Hall.
  rewrite Hall. simpl. rewrite chunks_length.
  f_equal. f_equal. rewrite chunks_concat, take_take_drop.
  apply take_ge. lia.
Qed.

(** Storing a list of entries one after the other; with distinct keys the
    order does not matter. *)
Lemma foldl_insert_lookup (l : list (Z * Np.ndarray)) (acc : gmap Z Np.ndarray) (k : Z) :
  NoDup l.*1 →
  foldl (fun st p => <[p.1 := p.2]> st) acc l !! k
  = match (list_to_map l : gmap Z Np.ndarray) !! k with
    | Some a => Some a
    | None => acc !! k
    end.
Proof.
  revert acc. induction l as [|[k0 a0] l IH]; intros acc Hnd; simpl; [done|].
  apply NoDup_cons in Hnd as [Hk0 Hnd]. rewrite IH by done.
  destruct (decide (k = k0)) as [->|Hne].
  - rewrite lookup_insert_eq.
    rewrite (not_elem_of_list_to_map_1 l k0 Hk0). by rewrite lookup_insert_eq.
  - rewrite !lookup_insert_ne by done. done.
Qed.

Lemma foldl_insert_map_to_list (st : gmap Z Np.ndarray) :
  foldl (fun acc p => <[p.1 := p.2]> acc) ∅ (map_to_list st) = st.
Proof.
  apply map_eq. intros k.
  rewrite foldl_insert_lookup by apply NoDup_fst_map_to_list.
  rewrite list_to_map_to_list, lookup_empty. by destruct (st !! k).
Qed.

(** The loop of [load_masks] on what [save_masks] wrote for a list of
    entries: every entry is read back and stored. *)
Lemma wp_load_saved (l : list (Z * Np.ndarray)) (Q : result unit → world → Prop) w :
  (∀ p, p ∈ l → ∃ h c, Np.shape p.2 = [S h; c] ∧ Np.wf_uint16 p.2 = true) →
  Q (Ok tt)
    (mk_world (set_masks (foldl (fun st p => <[p.1 := p.2]> st)
                                (current_masks (wd w)) l) (wd w))
              (shown w) (written w)) →
  wp (for_each (map (fun p => (Py.str p.1, Np.tolist p.2)) l) load_one) Q w.
Proof.
  revert w. induction l as [|[k a] l IH]; intros w Hl HQ; simpl.
  - apply wp_ret. by destruct w as [[] ? ?].
  - wp_step. unfold load_one. cbn [fst snd].
    wp_step. rewrite int_str. wp_step.
    destruct (Hl (k, a)) as (h & c & Hsh & Hwf); [left|]. cbn [fst snd] in *.
    wp_step. rewrite (array_uint16_tolist a h c Hsh Hwf). wp_step.
    wp_step. apply IH; [intros p Hp; apply Hl; by right|].
    exact HQ.
Qed.

Lemma save_masks_written (s : widget) (path now : string) :
  path ≠ ""%string → current_masks s ≠ ∅ →
  written (snd (run (save_masks path true now) s))
  = [(path, JsonMasks (save_data now s))].
Proof.
  intros Hpath Hne. unfold run, save_masks, mbind, M_bind, get. simpl.
  rewrite !bool_decide_eq_false_2 by done. reflexivity.
Qed.

(** C1, as the code has it: for a store that is not empty and holds 2-D
    uint16 arrays with at least one row, and any registry, save_masks
    writes a document, and load_masks on that document leaves exactly that
    store and that registry, provided the loading widget shows no mask
    layer or its current frame has a mask in the store that was saved. *)
Theorem save_load_round_trip
    (s_save s_load : widget) (path path' now : string) :
  path ≠ ""%string → path' ≠ ""%string →
  current_masks s_save ≠ ∅ →
  (∀ i m, current_masks s_save !! i = Some m →
          ∃ h c, Np.shape m = [S h; c] ∧ Np.wf_uint16 m = true) →
  (mask_layer s_load = None ∨
   is_Some (current_masks s_save !! current_frame s_load)) →
  ∃ d,
    written (snd (run (save_masks path true now) s_save)) = [(path, JsonMasks d)] ∧
    current_masks (exec (load_masks path' (Parsed d)) s_load) = current_masks s_save ∧
    labels_config (exec (load_masks path' (Parsed d)) s_load) = labels_config s_save.
Proof.
  intros Hpath Hpath' Hne Hwf Hlayer.
  exists (save_data now s_save). split; [by apply save_masks_written|].
  apply (wp_exec _ _ (fun s' => current_masks s' = current_masks s_save ∧
                               labels_config s' = labels_config s_save)).
  unfold load_masks. rewrite bool_decide_eq_false_2 by done.
  wp_run. apply wp_load_saved.
  { intros [k a] Hp%elem_of_map_to_list. by eapply Hwf. }
  cbn [wd shown written].
  change (current_masks (set_layer _ (set_masks ∅ _))) with (∅ : gmap Z Np.ndarray).
  rewrite foldl_insert_map_to_list.
  destruct (mask_layer s_load) as [l|] eqn:Hl; wp_run; [|done].
  apply wp_create_new_mask. cbn [wd].
  intros r w' (Hv & _ & _ & _ & Hlab & _) Hfill _.
  assert (current_masks (wd w') = current_masks s_save ∧
          labels_config (wd w') = labels_config s_save) as Hgoal.
  { split; [|by rewrite Hlab].
    unfold lazily_filled in Hfill. simpl in Hfill. rewrite Hfill.
    destruct (current_video s_load) as [v|]; [|done].
    unfold visited. destruct Hlayer as [?|[m Hm]]; [done|].
    rewrite Hm. by destruct (v_index v (current_frame s_load)). }
  destruct r as [[]|]; wp_run; exact Hgoal.
Qed.

Lemma painted3_store :
  current_masks painted3 = {[ 0 := Np.mk_array [1; 2]%nat [0; 1] ]}.
Proof. reflexivity. Qed.

Lemma save_load_round_trip_witness :
  ∃ d,
    written (snd (run (save_masks "masks.json" true "2024-01-01") painted3))
      = [("masks.json"%string, JsonMasks d)] ∧
    current_masks (exec (load_masks "masks.json" (Parsed d)) init)
      = current_masks painted3 ∧
    labels_config (exec (load_masks "masks.json" (Parsed d)) init)
      = labels_config painted3.
Proof.
  apply (save_load_round_trip painted3 init "masks.json" "masks.json" "2024-01-01").
  - done.
  - done.
  - rewrite painted3_store. apply insert_non_empty.
  - rewrite painted3_store. intros i m [_ <-]%lookup_singleton_Some.
    exists 0%nat, 2%nat. split; reflexivity.
  - left. reflexivity.
Defined.

(** C1 as stated fails in three ways: an empty store is not saved at all;
    an array without rows comes back with shape (0,); and a loading widget
    that shows a mask layer adds a zero mask for its current frame when the
    document has none for it. *)
Lemma save_load_round_trip_counterexample :
  written (snd (run (save_masks "masks.json" true "2024-01-01") init)) = [] ∧
  (current_masks flat0 !! 0 = Some (Np.zeros [0; 3]%nat) ∧
   current_masks
     (exec (load_masks "masks.json" (Parsed (save_data "2024-01-01" flat0))) init) !! 0
   = Some (Np.mk_array [0%nat] [])) ∧
  (written (snd (run (save_masks "masks.json" true "2024-01-01") loaded3))
   = [("masks.json"%string, JsonMasks (save_data "2024-01-01" loaded3))] ∧
   current_masks
     (exec (load_masks "masks.json" (Parsed (save_data "2024-01-01" loaded3)))
        (exec next_frame loaded3))
   ≠ current_masks loaded3).
Proof.
  split; [reflexivity|]. split; [split; reflexivity|]. split; [reflexivity|].
  intros H. apply (f_equal (fun st => st !! 1)) in H. vm_compute in H. discriminate H.
Qed.

(* --------------------------------------------------------------------- *)
(* Failures of the user-triggered actions                                *)
(* --------------------------------------------------------------------- *)

Lemma try_except_returns (body : M unit) (msg : message) w :
  fst (try_except body (show msg) w) = Ok tt.
Proof. unfold try_except, show. by destruct (body w) as [[[]|] w']. Qed.

Lemma load_video_returns path r s : fst (run (load_video path r) s) = Ok tt.
Proof.
  unfold run, load_video. case_bool_decide; [done|]. apply try_except_returns.
Qed.

Lemma load_masks_returns path f s : fst (run (load_masks path f) s) = Ok tt.
Proof.
  unfold run, load_masks. case_bool_decide; [done|]. apply try_except_returns.
Qed.

Lemma load_label_config_returns path f s :
  fst (run (load_label_config path f) s) = Ok tt.
Proof.
  unfold run, load_label_config. case_bool_decide; [done|].
  apply try_except_returns.
Qed.

Lemma save_masks_returns path can_open now s :
  fst (run (save_masks path can_open now) s) = Ok tt.
Proof.
  unfold run, save_masks, mbind, M_bind, get. simpl.
  case_bool_decide; [done|]. case_bool_decide; [done|]. apply try_except_returns.
Qed.

Lemma export_returns imwrite_ok path s :
  fst (run (export_frames_and_masks_png_npy imwrite_ok path) s) = Ok tt.
Proof.
  unfold run, export_frames_and_masks_png_npy, mbind at 1, M_bind at 1, get. simpl.
  destruct (current_video s); [|done].
  case_bool_decide; [done|]. apply try_except_returns.
Qed.

Lemma save_masks_state path can_open now s :
  exec (save_masks path can_open now) s = s.
Proof.
  unfold exec, run, save_masks, mbind, M_bind, get, try_except, show, write, raise.
  simpl. case_bool_decide; [done|]. case_bool_decide; [done|].
  by destruct can_open.
Qed.

Lemma export_state imwrite_ok path s :
  exec (export_frames_and_masks_png_npy imwrite_ok path) s = s.
Proof.
  destruct (current_video s) as [v|] eqn:Hv.
  - destruct (decide (path = ""%string)) as [->|Hpath].
    + unfold exec, run, export_frames_and_masks_png_npy, mbind, M_bind, get.
      simpl. by rewrite Hv.
    + by destruct (export_outcome imwrite_ok path s v Hv Hpath) as [? _].
  - unfold exec, run, export_frames_and_masks_png_npy, mbind, M_bind, get.
    simpl. by rewrite Hv.
Qed.

(** C4, as the code has it: each of the five actions returns normally, a
    failure being caught at its boundary. save_masks and the bulk export
    never change the widget; load_masks and load_label_config leave it as
    it was when the file cannot be opened or decoded; a load_video whose
    read fails leaves it as it was but for the mask of the layer, written
    back to the store before the read. *)
Theorem failures_caught_at_boundary
    (imwrite_ok : Np.ndarray → bool) (s : widget) (path now : string)
    (can_open : bool) (r : reader_result) (fm : file_read mask_document)
    (fc : file_read config_document) :
  (fst (run (load_video path r) s) = Ok tt ∧
   fst (run (load_masks path fm) s) = Ok tt ∧
   fst (run (save_masks path can_open now) s) = Ok tt ∧
   fst (run (load_label_config path fc) s) = Ok tt ∧
   fst (run (export_frames_and_masks_png_npy imwrite_ok path) s) = Ok tt) ∧
  exec (save_masks path can_open now) s = s ∧
  exec (export_frames_and_masks_png_npy imwrite_ok path) s = s ∧
  exec (load_masks path Unreadable) s = s ∧
  exec (load_masks path Malformed) s = s ∧
  exec (load_label_config path Unreadable) s = s ∧
  exec (load_label_config path Malformed) s = s ∧
  exec (load_video path ReadError) s =
    match mask_layer s, current_video s with
    | Some l, Some _ =>
        if bool_decide (path = ""%string) then s
        else store_current (Np.copy (layer_data l)) s
    | _, _ => s
    end.
Proof.
  split.
  { auto using load_video_returns, load_masks_returns, save_masks_returns,
      load_label_config_returns, export_returns. }
  split; [apply save_masks_state|]. split; [apply export_state|].
  repeat split.
  1-2: unfold exec, run, load_masks; by case_bool_decide.
  1-2: unfold exec, run, load_label_config; by case_bool_decide.
  unfold exec, run, load_video, try_except, mbind, M_bind, get, modify, raise, show.
  destruct (bool_decide (path = ""%string));
    destruct (mask_layer s) eqn:Hl, (current_video s) eqn:Hv; cbn;
    rewrite ?Hl, ?Hv; done.
Qed.

Example load_masks_fails_midway_shown :
  shown (snd (run (load_masks "bad.json" (Parsed bad_key_document)) painted3))
  = [Critical "Failed to load masks"].
Proof. reflexivity. Qed.

(** C4 as stated fails: load_masks on a document whose second frame index
    is not a number reports the failure, and has by then replaced the
    registry and the store. *)
Lemma failures_caught_at_boundary_counterexample :
  shown (snd (run (load_masks "bad.json" (Parsed bad_key_document)) painted3))
    = [Critical "Failed to load masks"] ∧
  labels_config (exec (load_masks "bad.json" (Parsed bad_key_document)) painted3)
    = [("only"%string, mk_label 7 (RGB 1 2 3))] ∧
  labels_config painted3 = DEFAULT_LABELS ∧
  current_masks (exec (load_masks "bad.json" (Parsed bad_key_document)) painted3) !! 0
    = Some (Np.mk_array [1; 2]%nat [5; 5]) ∧
  current_masks painted3 !! 0 = Some (Np.mk_array [1; 2]%nat [0; 1]).
Proof. repeat split; reflexivity. Qed.

(* --------------------------------------------------------------------- *)
(* Masks that come into being by looking at a frame                      *)
(* --------------------------------------------------------------------- *)

Lemma visited_keeps (v : video) (i k : Z) (st : gmap Z Np.ndarray) :
  is_Some (st !! k) → is_Some (visited v i st !! k).
Proof.
  intros Hk. unfold visited. destruct (v_index v i); [|done].
  destruct (st !! i) eqn:Hi; [done|].
  destruct (decide (i = k)) as [->|Hne].
  - rewrite lookup_insert_eq. by eexists.
  - by rewrite lookup_insert_ne.
Qed.

Lemma visited_zero (v : video) (i : Z) (st : gmap Z Np.ndarray) :
  0 ≤ i < Z.of_nat (v_len v) → st !! i = None →
  visited v i st !! i = Some (Np.zeros (frame_shape v)).
Proof.
  intros Hi Hst. unfold visited.
  destruct (v_index_in_range v i Hi) as [f Hf]. rewrite Hf, Hst.
  rewrite lookup_insert_eq. by rewrite (v_index_shape _ _ _ Hf).
Qed.

Lemma persisted_keeps (s : widget) (k : Z) :
  is_Some (current_masks s !! k) → is_Some (persisted s !! k).
Proof.
  intros Hk. unfold persisted. destruct (mask_layer s) as [l|]; [|done].
  destruct (decide (current_frame s = k)) as [->|Hne].
  - rewrite lookup_insert_eq. by eexists.
  - by rewrite lookup_insert_ne.
Qed.

(** What [change_frame] leaves in the store. *)
Lemma change_frame_store (s : widget) (v : video) (i : Z) :
  current_video s = Some v →
  current_masks (exec (change_frame i) s) = visited v i (persisted s) ∧
  total_frames (exec (change_frame i) s) = total_frames s ∧
  current_video (exec (change_frame i) s) = Some v.
Proof.
  intros Hv.
  apply (wp_exec _ _ (fun s' => current_masks s' = visited v i (persisted s) ∧
                               total_frames s' = total_frames s ∧
                               current_video s' = Some v)).
  apply wp_change_frame. simpl.
  intros r w' (Hv' & _ & Ht' & _) _ [(v0 & Hv0 & _ & Hst)|[_ Hnone]]; [|congruence].
  rewrite Hv', Ht', Hst. split; [congruence|done].
Qed.

(** Navigation never takes a mask out of the store. *)
Lemma navigate_keeps_keys (n : navigation) (s : widget) (k : Z) :
  is_Some (current_masks s !! k) →
  is_Some (current_masks (exec (navigate n) s) !! k).
Proof.
  intros Hk.
  apply (wp_exec _ _ (fun s' => is_Some (current_masks s' !! k))).
  assert (∀ x s0, is_Some (current_masks s0 !! k) →
            wp (set_value x) (fun _ w' => is_Some (current_masks (wd w') !! k))
               (mk_world s0 [] [])) as Hset.
  { intros x s0 Hs0. apply wp_set_value. simpl.
    intros w' _ _ [(vid & _ & _ & ->)|(_ & -> & _)]; [|done].
    by apply visited_keeps, persisted_keeps. }
  destruct n as [| |x]; simpl; [unfold prev_frame|unfold next_frame|];
    wp_run; try done; apply Hset; try done.
  all: simpl; destruct (decide (current_frame s = k)) as [->|Hne];
    [rewrite lookup_insert_eq; by eexists|by rewrite lookup_insert_ne].
Qed.

Lemma after_navigate_keeps_keys (ns : list navigation) (s : widget) (k : Z) :
  is_Some (current_masks s !! k) →
  is_Some (current_masks (after (navigate <$> ns) s) !! k).
Proof.
  revert s. induction ns as [|n ns IH]; intros s Hk; simpl; [done|].
  by apply IH, navigate_keeps_keys.
Qed.

(** The mask files of a frame with a mask are among the files of a
    successful export. *)
Lemma export_writes_mask (imwrite_ok : Np.ndarray → bool) (root : string)
    (s : widget) (v : video) (i : nat) (m : Np.ndarray) :
  current_video s = Some v → root ≠ ""%string →
  export_succeeds imwrite_ok root s →
  (i < Z.to_nat (total_frames s))%nat →
  current_masks s !! Z.of_nat i = Some m →
  ∀ k, is_mask_kind k = true →
       artifact_path root k i
       ∈ (written (snd (run (export_frames_and_masks_png_npy imwrite_ok root) s))).*1.
Proof.
  intros Hv Hroot Hok Hi Hm k Hk.
  pose proof (export_succeeds_exportable imwrite_ok root s v Hv Hroot Hok) as Hall.
  destruct (export_outcome imwrite_ok root s v Hv Hroot) as [_ Hout].
  rewrite Hall in Hout. destruct Hout as [_ ->].
  rewrite fmap_app. apply elem_of_app. left.
  apply list_elem_of_fmap.
  assert (∀ e, e ∈ mask_artifacts root (current_masks s)
                     (export_colormap (labels_config s)) (v_height v) (v_width v) i →
               e ∈ flat_map (artifacts root v (current_masks s)
                               (export_colormap (labels_config s))
                               (v_height v) (v_width v))
                            (seq 0 (Z.to_nat (total_frames s)))) as Hin.
  { intros e He. apply list_elem_of_In, in_flat_map. exists i. split.
    - apply in_seq. lia.
    - apply list_elem_of_In. unfold artifacts. apply elem_of_app. by right. }
  unfold mask_artifacts in Hin. rewrite Hm in Hin.
  destruct k; try done.
  - exists (mask_raw_png root i, Png (Np.astype_uint16 m)).
    split; [reflexivity|]. apply Hin. left.
  - eexists (mask_color_png root i, PngRgb _ _ _).
    split; [reflexivity|]. apply Hin. right; left.
  - exists (mask_npy root i, Npy (Np.astype_uint16 m)).
    split; [reflexivity|]. apply Hin. right; right; left.
Qed.

Lemma create_new_mask_store (s : widget) (v : video) :
  current_video s = Some v →
  current_masks (exec create_new_mask s)
  = visited v (current_frame s) (current_masks s).
Proof.
  intros Hv.
  apply (wp_exec _ _ (fun s' => current_masks s'
                               = visited v (current_frame s) (current_masks s))).
  apply wp_create_new_mask. simpl. intros r w' _ Hfill _.
  unfold lazily_filled in Hfill. by rewrite Hv in Hfill.
Qed.

Lemma persisted_other_frame (s : widget) (k : Z) :
  current_masks s !! k = None → k ≠ current_frame s → persisted s !! k = None.
Proof.
  intros Hk Hne. unfold persisted. destruct (mask_layer s); [|done].
  by rewrite lookup_insert_ne.
Qed.

(** C9: showing the mask of a frame that has none puts a zero mask of the
    frame's shape into the store, by create_new_mask on the current frame
    and by change_frame on the frame moved to. From then on the frame is
    one of the frames counted in the statistics, it is in the masks and in
    masked_frames of the document save_masks builds, its three mask files
    are among those a successful bulk export writes, and no navigation
    takes it out of the store. *)
Theorem visiting_a_frame_stores_a_mask
    (imwrite_ok : Np.ndarray → bool) (root now : string)
    (s : widget) (v : video) (i : nat) (ns : list navigation) :
  current_video s = Some v →
  total_frames s = Z.of_nat (v_len v) →
  (i < v_len v)%nat →
  current_masks s !! Z.of_nat i = None →
  let s' := exec (change_frame (Z.of_nat i)) s in
  (current_frame s = Z.of_nat i →
   current_masks (exec create_new_mask s) !! Z.of_nat i
   = Some (Np.zeros (frame_shape v))) ∧
  (current_frame s ≠ Z.of_nat i →
   current_masks s' !! Z.of_nat i = Some (Np.zeros (frame_shape v)) ∧
   size (current_masks s') = S (size (persisted s))) ∧
  is_Some (current_masks s' !! Z.of_nat i) ∧
  (∃ st, update_statistics s' = Some st ∧
         frames_with_masks st = size (current_masks s')) ∧
  (∃ rows masks info,
     doc_masks (save_data now s') = Some masks ∧
     (Py.str (Z.of_nat i), rows) ∈ masks ∧
     doc_video_info (save_data now s') = Some info ∧
     Z.of_nat i ∈ vi_masked_frames info) ∧
  (root ≠ ""%string → export_succeeds imwrite_ok root s' →
   ∀ k, is_mask_kind k = true →
        artifact_path root k i
        ∈ (written (snd (run (export_frames_and_masks_png_npy imwrite_ok root) s'))).*1) ∧
  is_Some (current_masks (after (navigate <$> ns) s') !! Z.of_nat i).
Proof.
  intros Hv Ht Hi Hnone s'.
  destruct (change_frame_store s v (Z.of_nat i) Hv) as (Hst & Ht' & Hv').
  fold s' in Hst, Ht', Hv'.
  assert (is_Some (current_masks s' !! Z.of_nat i)) as Hsome
    by (rewrite Hst; apply visited_lookup; lia).
  split.
  { intros Hcur. rewrite (create_new_mask_store s v Hv), Hcur.
    apply visited_zero; [lia|done]. }
  split.
  { intros Hcur.
    pose proof (persisted_other_frame s (Z.of_nat i) Hnone (not_eq_sym Hcur)) as Hp.
    rewrite Hst. split; [apply visited_zero; [lia|done]|].
    unfold visited. destruct (v_index_in_range v (Z.of_nat i)) as [f ->]; [lia|].
    rewrite Hp. by apply map_size_insert_None. }
  split; [done|]. split.
  { unfold update_statistics. rewrite bool_decide_eq_false_2.
    - eexists. split; [reflexivity|done].
    - intros Hempty. rewrite Hempty, lookup_empty in Hsome. by destruct Hsome. }
  split.
  { destruct Hsome as [m Hm]. apply elem_of_map_to_list in Hm.
    eexists (Np.tolist m), _, _. split; [reflexivity|]. split.
    - apply list_elem_of_fmap. by exists (Z.of_nat i, m).
    - split; [reflexivity|]. simpl. apply list_elem_of_fmap.
      by exists (Z.of_nat i, m). }
  split.
  { intros Hroot Hok k Hk. destruct Hsome as [m Hm].
    apply (export_writes_mask imwrite_ok root s' v i m); try done.
    rewrite Ht', Ht. lia. }
  by apply after_navigate_keeps_keys.
Qed.

Lemma visiting_a_frame_stores_a_mask_witness :
  current_masks loaded3 !! 2 = None ∧
  current_masks (exec (change_frame 2) loaded3) !! 2 = Some (Np.zeros [1; 2]%nat) ∧
  size (current_masks (exec (change_frame 2) loaded3)) = 2%nat.
Proof.
  split; [reflexivity|].
  destruct (visiting_a_frame_stores_a_mask (fun _ => true) "out" "now"
              loaded3 clip3 2 [] eq_refl eq_refl ltac:(vm_compute; lia) eq_refl)
    as (_ & Hvisit & _).
  destruct (Hvisit ltac:(done)) as [Hzero Hsize].
  split; [exact Hzero|exact Hsize].
Defined.

Example visited_frames_are_saved :
  doc_masks (save_data "now" (after (navigate <$> [Next; Next]) loaded3))
  = Some [("2"%string, [[0; 0]]); ("1"%string, [[0; 0]]); ("0"%string, [[0; 0]])].
Proof. reflexivity. Qed.

Example visited_frames_are_counted :
  frames_with_masks <$> update_statistics (after (navigate <$> [Next; Next]) loaded3)
  = Some 3%nat.
Proof. reflexivity. Qed.

(* --------------------------------------------------------------------- *)
(* The shape invariant                                                   *)
(* --------------------------------------------------------------------- *)

Lemma shape_ok_zeros (vo : option video) (v : video) :
  vo = Some v → shape_ok vo (Np.zeros (frame_shape v)).
Proof. by intros ->. Qed.

Lemma shape_ok_paint (vo : option video) (a : Np.ndarray) (d : list Z) :
  shape_ok vo a → shape_ok vo (Np.mk_array (Np.shape a) d).
Proof. by destruct vo. Qed.

Lemma shape_inv_init : shape_inv init.
Proof. repeat split; simpl; try done. Qed.

(** One action keeps the shape invariant, a mask document being loaded
    only for the video it was made for. *)
Lemma shape_inv_step (imwrite_ok : Np.ndarray → bool) (a : action) (s : widget) :
  shape_inv s → loads_well_shaped s a → shape_inv (exec (perform imwrite_ok a) s).
Proof.
  intros HI Hload. unfold shape_inv in *.
  set (vo := current_video s) in *.
  assert (∀ m : M unit,
            wp m (fun _ w' => masks_all vo (shape_ok vo) (wd w')) (mk_world s [] []) →
            masks_all (current_video (exec m s))
                      (shape_ok (current_video (exec m s))) (exec m s)) as Hkeep.
  { intros m Hm. apply wp_exec in Hm. destruct Hm as (Hv & ?). by rewrite Hv. }
  pose proof (shape_ok_zeros vo) as Hz.
  destruct a; simpl.
  - destruct r as [|v].
    + by apply Hkeep, masks_all_load_video_failed.
    + destruct (decide (path = ""%string)) as [->|Hpath]; [done|].
      pose proof (masks_all_load_video path v (shape_ok (Some v))
                    (mk_world s [] []) Hpath eq_refl) as Hm.
      apply wp_exec in Hm. destruct Hm as (Hv & ?). by rewrite Hv.
  - by apply Hkeep, masks_all_create_new_mask.
  - apply Hkeep, masks_all_paint; [|done]. apply shape_ok_paint.
  - by apply Hkeep, masks_all_on_mask_changed.
  - by apply Hkeep, masks_all_navigate.
  - by apply Hkeep, masks_all_copy_from_previous.
  - by apply Hkeep, masks_all_copy_to_next.
  - by apply Hkeep, masks_all_clear_current_mask.
  - by apply Hkeep, masks_all_add_custom_label.
  - by rewrite save_masks_state.
  - apply Hkeep, masks_all_load_masks; [done| |done].
    intros d masks key rows arr -> Hd Hin Harr. by eapply Hload.
  - by apply Hkeep, masks_all_load_label_config.
  - by rewrite export_state.
Qed.

(** C5, as the code has it: in every session that starts with the widget
    as it is created, and in which a mask document is loaded only when its
    arrays have the shape of the frames of the loaded video, every mask in
    the store and the mask on the layer have the shape of the frames of the
    loaded video. Each action keeps this: creating a mask, painting,
    copying between frames, clearing, navigating, loading a video. *)
Theorem shape_invariant (imwrite_ok : Np.ndarray → bool) (actions : list action) :
  well_shaped_session imwrite_ok init actions →
  let s := after (perform imwrite_ok <$> actions) init in
  ∀ v, current_video s = Some v →
       (∀ i m, current_masks s !! i = Some m → Np.shape m = frame_shape v) ∧
       (∀ l, mask_layer s = Some l → Np.shape (layer_data l) = frame_shape v).
Proof.
  assert (∀ acts s0, shape_inv s0 → well_shaped_session imwrite_ok s0 acts →
            shape_inv (after (perform imwrite_ok <$> acts) s0)) as Hsession.
  { induction acts as [|a acts IH]; intros s0 HI Hs; simpl; [done|].
    destruct Hs as [Ha Hrest]. apply IH; [|done]. by apply shape_inv_step. }
  intros Hs s v Hv.
  pose proof (Hsession actions init shape_inv_init Hs) as (_ & Hm & Hl).
  fold s in Hm, Hl. rewrite Hv in Hm, Hl. split; [exact Hm|exact Hl].
Qed.

Lemma clip3_document_well_shaped : well_shaped_document (Some clip3) clip3_document.
Proof.
  intros masks key rows a [= <-] Hin Ha.
  apply list_elem_of_singleton in Hin as [= -> ->].
  vm_compute in Ha. injection Ha as <-. reflexivity.
Qed.

Lemma shape_invariant_witness :
  well_shaped_session (fun _ => true) init
    [LoadVideo "clip.mp4" (ReadVideo clip3); Navigate Next; Paint [0%nat];
     LoadMasks "masks.json" (Parsed clip3_document); CopyToNext] ∧
  ∀ i m,
    current_masks
      (after (perform (fun _ => true) <$>
                [LoadVideo "clip.mp4" (ReadVideo clip3); Navigate Next;
                 Paint [0%nat]; LoadMasks "masks.json" (Parsed clip3_document);
                 CopyToNext]) init) !! i = Some m →
    Np.shape m = [1; 2]%nat.
Proof.
  assert (well_shaped_session (fun _ => true) init
            [LoadVideo "clip.mp4" (ReadVideo clip3); Navigate Next; Paint [0%nat];
             LoadMasks "masks.json" (Parsed clip3_document); CopyToNext]) as Hs.
  { simpl. repeat split. exact clip3_document_well_shaped. }
  split; [exact Hs|].
  exact (proj1 (shape_invariant (fun _ => true) _ Hs clip3 eq_refl)).
Defined.

Example session_store :
  map_to_list (current_masks
    (after (perform (fun _ => true) <$>
              [LoadVideo "clip.mp4" (ReadVideo clip3); Navigate Next;
               Paint [0%nat]; LoadMasks "masks.json" (Parsed clip3_document);
               CopyToNext]) init))
  = [(2, Np.mk_array [1; 2]%nat [3; 4]); (1, Np.mk_array [1; 2]%nat [3; 4])].
Proof. reflexivity. Qed.

(** C5 as stated fails: load_masks stores the arrays of the document as
    they are; a mask of one row of three values is stored for frame 0 of a
    video whose frames have one row of two pixels. *)
Lemma shape_invariant_counterexample :
  current_video (exec (load_masks "wide.json" (Parsed wide_document)) loaded3)
    = Some clip3 ∧
  frame_shape clip3 = [1; 2]%nat ∧
  current_masks (exec (load_masks "wide.json" (Parsed wide_document)) loaded3) !! 0
    = Some (Np.mk_array [1; 3]%nat [1; 2; 3]).
Proof. repeat split; reflexivity. Qed.

(* --------------------------------------------------------------------- *)
(* The slider keeps the minimum that setup_ui gives it                   *)
(* --------------------------------------------------------------------- *)

Section slider_minimum.
Let Inv (s : widget) : Prop := s_min (frame_slider s) = 0.
Let Post {A} : result A → world → Prop := fun _ w' => Inv (wd w').

Lemma min_create_new_mask w : Inv (wd w) → wp create_new_mask Post w.
Proof.
  intros HI. apply wp_create_new_mask.
  intros r w' (_ & _ & _ & _ & _ & Hs) _ _. unfold Post, Inv. by rewrite Hs.
Qed.

Lemma min_set_value (x : Z) w : Inv (wd w) → wp (set_value x) Post w.
Proof.
  intros HI. apply wp_set_value. intros w' _ Hs _. unfold Post, Inv.
  by rewrite Hs.
Qed.

Lemma min_navigate (n : navigation) w : Inv (wd w) → wp (navigate n) Post w.
Proof.
  intros HI. destruct w as [s sh wr]. simpl in HI.
  destruct n as [| |x]; simpl; [unfold prev_frame|unfold next_frame|];
    wp_run; try done; by apply min_set_value.
Qed.

Lemma min_load_video (path : string) (r : reader_result) w :
  Inv (wd w) → wp (load_video path r) Post w.
Proof.
  intros HI. unfold load_video. destruct w as [s sh wr]. simpl in HI.
  wp_run; try done.
  all: apply wp_set_maximum; simpl; intros w1 _ Hmin1 _ _;
    assert (Inv (wd w1)) as HI1
      by (unfold Inv; rewrite Hmin1, HI; unfold v_len, v_frames; simpl; lia);
    wp_step; eapply wp_mono; [by apply min_set_value|];
    intros [[]|] w2 HI2; [|by wp_run];
    wp_step; eapply wp_mono; [by apply min_create_new_mask|];
    intros [[]|] w3 HI3; by wp_run.
Qed.

Lemma min_load_masks (path : string) (f : file_read mask_document) w :
  Inv (wd w) → wp (load_masks path f) Post w.
Proof.
  intros HI. unfold load_masks, json_load. destruct w as [s sh wr]. simpl in HI.
  assert (∀ masks w0, Inv (wd w0) →
            wp (for_each masks load_one) (fun _ w' => Inv (wd w')) w0) as Hloop.
  { intros masks w0 HI0. apply (wp_for_each_inv (fun w' => Inv (wd w'))); [done|].
    intros [key rows] [s1 sh1 wr1] _ HI1. unfold load_one. by wp_run. }
  assert (∀ w0, Inv (wd w0) →
            wp (s0 ← get;
                match mask_layer s0 with
                | Some _ => create_new_mask
                | None => mret tt
                end;; show (Information "Loaded masks"))
               (fun r w' =>
                  match r with
                  | Ok _ => Inv (wd w')
                  | Exc => wp (show (Critical "Failed to load masks")) Post w'
                  end) w0) as Htail.
  { intros w0 HI0. wp_run; try done.
    eapply wp_mono; [by apply min_create_new_mask|].
    intros [[]|] w' HI'; by wp_run. }
  wp_step; [done|]. wp_step. wp_step.
  destruct f as [| |d]; [by wp_run..|]. wp_step. wp_step.
  destruct (doc_labels_config d) as [cfg|]; wp_step.
  all: wp_step; destruct (doc_masks d) as [masks|]; wp_step;
    try (by apply Htail);
    wp_step; eapply wp_mono; [by apply Hloop|];
    intros [[]|] w' HI'; [by apply Htail|by wp_run].
Qed.

Lemma min_perform (imwrite_ok : Np.ndarray → bool) (a : action) (s : widget) :
  Inv s → Inv (exec (perform imwrite_ok a) s).
Proof.
  intros HI.
  assert (∀ m : M unit,
            wp m (fun _ w' => Inv (wd w')) (mk_world s [] []) → Inv (exec m s))
    as Hkeep by (intros m Hm; by apply wp_exec in Hm).
  destruct a; simpl.
  - by apply Hkeep, min_load_video.
  - by apply Hkeep, min_create_new_mask.
  - apply Hkeep. unfold paint. by wp_run.
  - apply Hkeep. unfold on_mask_changed. by wp_run.
  - by apply Hkeep, min_navigate.
  - apply Hkeep. unfold copy_from_previous. wp_run; try done.
    eapply wp_mono; [by apply min_create_new_mask|].
    intros [[]|] w' HI'; by wp_run.
  - apply Hkeep. unfold copy_to_next. by wp_run.
  - apply Hkeep. unfold clear_current_mask. wp_run; try done.
    by apply min_create_new_mask.
  - apply Hkeep. unfold add_custom_label. by wp_run.
  - by rewrite save_masks_state.
  - by apply Hkeep, min_load_masks.
  - apply Hkeep. unfold load_label_config, json_load. by wp_run.
  - by rewrite export_state.
Qed.
End slider_minimum.

(** In every session the slider has the minimum 0. *)
Lemma slider_minimum_in_sessions (imwrite_ok : Np.ndarray → bool)
    (actions : list action) :
  s_min (frame_slider (after (perform imwrite_ok <$> actions) init)) = 0.
Proof.
  assert (∀ acts s, s_min (frame_slider s) = 0 →
            s_min (frame_slider (after (perform imwrite_ok <$> acts) s)) = 0) as H.
  { induction acts as [|a acts IH]; intros s Hs; simpl; [done|].
    by apply IH, min_perform. }
  by apply H.
Qed.

(* --------------------------------------------------------------------- *)
(* _reader.py: reading back what was saved                               *)
(* --------------------------------------------------------------------- *)

Lemma mapM_int_saved (l : list (Z * Np.ndarray)) :
  mapM (fun p : string * list (list Z) => Py.int (fst p))
       (map (fun p => (Py.str (fst p), Np.tolist (snd p))) l)
  = Some (l.*1).
Proof.
  induction l as [|[k a] l IH]; [done|].
  cbn [map mapM fst snd]. rewrite int_str, IH. reflexivity.
Qed.

Lemma dict_get_saved (l : list (Z * Np.ndarray)) (k : Z) (m : Np.ndarray) :
  NoDup l.*1 → (k, m) ∈ l →
  dict_get (Py.str k) (map (fun p => (Py.str (fst p), Np.tolist (snd p))) l)
  = Some (Np.tolist m).
Proof.
  unfold dict_get. induction l as [|[k' a] l IH]; intros Hnd Hin.
  - by apply elem_of_nil in Hin.
  - apply NoDup_cons in Hnd as [Hk' Hnd]. cbn [map find fst snd].
    apply elem_of_cons in Hin as [Heq|Hin].
    + injection Heq as -> ->. by rewrite bool_decide_eq_true_2.
    + rewrite bool_decide_eq_false_2; [by apply IH|].
      intros ->%str_inj. apply Hk'.
      apply list_elem_of_fmap. by exists (k, m).
Qed.

Lemma dict_get_saved_None (l : list (Z * Np.ndarray)) (k : string) :
  (∀ p, p ∈ l → Py.str (fst p) ≠ k) →
  dict_get k (map (fun p => (Py.str (fst p), Np.tolist (snd p))) l) = None.
Proof.
  unfold dict_get. induction l as [|[k' a] l IH]; intros Hl; [done|].
  cbn [map find fst snd]. rewrite bool_decide_eq_false_2.
  - apply IH. intros p Hp. apply Hl. by right.
  - apply (Hl (k', a)). by left.
Qed.

Lemma foldl_max_in (vs : list Z) (v : Z) :
  foldl Z.max v vs = v ∨ foldl Z.max v vs ∈ vs.
Proof.
  revert v. induction vs as [|x vs IH]; intros v; [by left|].
  cbn [foldl]. destruct (IH (Z.max v x)) as [H|H].
  - rewrite H. destruct (Z.max_spec v x) as [[_ ->]|[_ ->]]; [right; by left|by left].
  - right. by right.
Qed.

Lemma list_max_spec (l : list Z) (mx : Z) :
  list_max l = Some mx → mx ∈ l ∧ ∀ x, x ∈ l → x ≤ mx.
Proof.
  destruct l as [|i r]; [done|]. intros [= <-]. split.
  - destruct (foldl_max_in r i) as [->|H]; [by left|by right].
  - intros x [->|Hx]%elem_of_cons; [apply foldl_max_ge|by apply foldl_max_bound].
Qed.

(** The slices of the stack after the loop: the saved mask at every frame
    index of the loop, the slice as it was elsewhere. *)
Lemma fill_stack_saved (st : gmap Z Np.ndarray) (n : Z) (H W : nat)
    (ks : list Z) (slices : list (list Z)) :
  NoDup (map_to_list st).*1 →
  (∀ k, k ∈ ks → 0 ≤ k < n ∧ ∃ m, st !! k = Some m ∧ Np.shape m = [S H; W] ∧
                                   Np.wf_uint16 m = true) →
  ∃ slices',
    fill_stack (map (fun p => (Py.str (fst p), Np.tolist (snd p))) (map_to_list st))
               n [S H; W] ks slices = Some slices' ∧
    length slices' = length slices ∧
    (∀ k m, k ∈ ks → st !! k = Some m → (Z.to_nat k < length slices)%nat →
            slices' !! Z.to_nat k = Some (Np.data m)) ∧
    (∀ i, (∀ k, k ∈ ks → Z.to_nat k ≠ i) → slices' !! i = slices !! i).
Proof.
  intros Hnd. unfold fill_stack. revert slices.
  induction ks as [|k ks IH]; intros slices Hks.
  - exists slices. cbn [foldl]. split; [done|]. split; [done|]. split; [|done].
    intros k m Hk. by apply elem_of_nil in Hk.
  - destruct (Hks k) as [Hk (m & Hm & Hsh & Hwf)]; [by left|].
    cbn [foldl]. cbn [mbind option_bind].
    rewrite (dict_get_saved _ k m Hnd) by by apply elem_of_map_to_list.
    cbn [mbind option_bind].
    rewrite (array_uint16_tolist m H W Hsh Hwf). cbn [mbind option_bind].
    unfold norm_index.
    replace ((0 <=? k) && (k <? n)) with true
      by (symmetry; apply andb_true_intro; split; [apply Z.leb_le|apply Z.ltb_lt]; lia).
    cbn [mbind option_bind]. unfold assign_slice.
    rewrite broadcast_2d_same_shape; [|done|].
    2:{ unfold Np.wf_uint16 in Hwf. apply andb_prop in Hwf as [Hlen _].
        apply Nat.eqb_eq in Hlen. rewrite Hlen, Hsh. cbn. lia. }
    cbn [mbind option_bind].
    destruct (IH (<[Z.to_nat k := Np.data m]> slices)) as (sl & Hsl & Hlen & Hin & Hout).
    { intros k' Hk'. apply Hks. by right. }
    exists sl. split; [exact Hsl|]. split; [by rewrite Hlen, length_insert|]. split.
    + intros k' m' Hk' Hm' Hlt.
      destruct (decide (k' ∈ ks)) as [Hin'|Hnin].
      * apply Hin; [done|done|by rewrite length_insert].
      * apply elem_of_cons in Hk' as [->|?]; [|done].
        rewrite Hout.
        -- rewrite list_lookup_insert_eq by done. congruence.
        -- intros k' Hk' Heq. destruct (Hks k') as [? _]; [by right|].
           assert (k' = k) as -> by lia. done.
    + intros i Hi. rewrite Hout.
      * apply list_lookup_insert_ne. apply Hi. by left.
      * intros k' Hk'. apply Hi. by right.
Qed.
Lemma repeat_replicate {A} (x : A) (n : nat) : repeat x n = replicate n x.
Proof. induction n; [done|]. cbn. by f_equal. Qed.

Lemma read_layers_saved_stack (st : gmap Z Np.ndarray) (cfg : option registry)
    (vi : option video_info) (dt : option string) (src stem : string) (H W : nat) :
  (∀ i m, st !! i = Some m →
          0 ≤ i ∧ Np.shape m = [S H; W] ∧ Np.wf_uint16 m = true) →
  (2 ≤ size st)%nat →
  ∃ T data name ks,
    read_layers src stem
      (Parsed (mk_document
                 (Some (map (fun p => (Py.str (fst p), Np.tolist (snd p)))
                            (map_to_list st))) cfg vi dt))
    = Some [mk_layer_data (Np.mk_array [T; S H; W] data) name
              (export_colormap (default [] cfg))
              (mk_layer_metadata (default [] cfg) (FrameIndices ks) src vi)] ∧
    ks ≡ₚ (map_to_list st).*1 ∧ Sorted Z.le ks ∧
    (∃ k, is_Some (st !! k) ∧ Z.of_nat T = k + 1) ∧
    (∀ k, is_Some (st !! k) → k < Z.of_nat T) ∧
    ∀ i, (i < T)%nat →
         stack_slice (Np.mk_array [T; S H; W] data) i
         = Some (default (Np.zeros [S H; W]) (st !! Z.of_nat i)).
Proof.
  intros Hst Hsize.
  pose proof (NoDup_fst_map_to_list st) as Hnd.
  assert (Hkeys : ∀ k, k ∈ (map_to_list st).*1 ↔ is_Some (st !! k)).
  { intros k. rewrite list_elem_of_fmap. split.
    - intros ([k' m] & -> & Hin%elem_of_map_to_list). by exists m.
    - intros [m Hm]. exists (k, m). split; [done|]. by apply elem_of_map_to_list. }
  unfold read_layers. cbn [doc_masks doc_labels_config doc_video_info].
  rewrite bool_decide_eq_false_2.
  2:{ intros Hnil. apply (f_equal length) in Hnil. rewrite length_map, length_map_to_list in Hnil.
      simpl in Hnil. lia. }
  rewrite mapM_int_saved. cbn [mbind option_bind].
  pose proof (merge_sort_Permutation Z.le (map_to_list st).*1) as Hperm.
  pose proof (Sorted_merge_sort Z.le (map_to_list st).*1) as Hsorted.
  destruct (merge_sort Z.le (map_to_list st).*1) as [|k1 [|k2 ks]] eqn:Hks.
  { apply Permutation_length in Hperm. rewrite length_fmap, length_map_to_list in Hperm.
    simpl in Hperm. lia. }
  { apply Permutation_length in Hperm. rewrite length_fmap, length_map_to_list in Hperm.
    simpl in Hperm. lia. }
  set (fi := k1 :: k2 :: ks) in *.
  assert (Hfi : ∀ k, k ∈ fi ↔ is_Some (st !! k)).
  { intros k. rewrite <- Hkeys. by rewrite Hperm. }
  destruct (proj1 (Hfi k1)) as [m1 Hm1]; [by left|].
  destruct (Hst k1 m1 Hm1) as (Hk1 & Hsh1 & Hwf1).
  change (head fi) with (Some k1). cbn [mbind option_bind].
  rewrite (dict_get_saved _ k1 m1 Hnd) by by apply elem_of_map_to_list.
  cbn [mbind option_bind].
  rewrite (array_uint16_tolist m1 H W Hsh1 Hwf1). cbn [mbind option_bind].
  destruct (list_max fi) as [mx|] eqn:Hmx; [|done].
  apply list_max_spec in Hmx as [Hmx_in Hmx_le]. cbn [mbind option_bind].
  assert (0 ≤ mx) as Hmx0.
  { apply Hfi in Hmx_in as [m Hm]. by destruct (Hst mx m Hm). }
  replace (mx + 1 <? 0) with false by (symmetry; apply Z.ltb_ge; lia).
  rewrite Hsh1.
  destruct (fill_stack_saved st (mx + 1) H W fi
              (repeat (repeat 0 (Np.size_of [S H; W])) (Z.to_nat (mx + 1))) Hnd)
    as (slices & -> & Hlen & Hin & Hout).
  { intros k Hk. split.
    - apply Hmx_le in Hk as Hle. apply Hfi in Hk as [m Hm].
      destruct (Hst k m Hm). lia.
    - apply Hfi in Hk as [m Hm]. exists m. by destruct (Hst k m Hm) as (? & ? & ?). }
  cbn [mbind option_bind]. rewrite repeat_length in Hlen.
  eexists (Z.to_nat (mx + 1)), (concat slices), _, fi.
  split; [reflexivity|]. split; [done|]. split; [done|]. split.
  { exists mx. split; [by apply Hfi|]. lia. }
  split.
  { intros k Hk%Hfi. apply Hmx_le in Hk. lia. }
  intros i Hi. unfold stack_slice. cbn [Np.shape Np.data].
  apply Nat.ltb_lt in Hi as Hi'. rewrite Hi'. f_equal.
  assert (Hrow : ∀ r, slices !! i = Some r →
            take (S H * W) (drop (i * (S H * W)) (concat slices)) = r).
  { intros r Hr. apply (concat_slice _ _ slices); [|done].
    apply Forall_lookup_2. intros j row Hj.
    destruct (st !! Z.of_nat j) as [m|] eqn:Hm.
    - destruct (Hst _ m Hm) as (? & Hsh & Hwf).
      assert (Z.of_nat j ∈ fi) as Hk by (apply Hfi; by exists m).
      rewrite <- (Nat2Z.id j) in Hj. rewrite (Hin _ m Hk Hm) in Hj.
      + injection Hj as <-. unfold Np.wf_uint16 in Hwf.
        apply andb_prop in Hwf as [Hl _]. apply Nat.eqb_eq in Hl.
        rewrite Hl, Hsh. cbn. lia.
      + rewrite repeat_length. apply Hmx_le in Hk. lia.
    - rewrite Hout in Hj.
      + rewrite repeat_replicate in Hj. apply lookup_replicate_1 in Hj as [-> _]. rewrite repeat_length. cbn. lia.
      + intros k Hk Heq. apply Hfi in Hk as Hk'. destruct Hk' as [m' Hm'].
        destruct (Hst _ _ Hm') as (? & _).
        assert (k = Z.of_nat j) as -> by lia. congruence. }
  destruct (st !! Z.of_nat i) as [m|] eqn:Hm; cbn [default].
  - destruct (Hst _ m Hm) as (_ & Hsh & Hwf).
    assert (Z.of_nat i ∈ fi) as Hfi_i by (apply Hfi; by exists m).
    rewrite (Hrow (Np.data m)).
    + destruct m as [sh d]. cbn in *. by subst sh.
    + rewrite <- (Nat2Z.id i) at 1. apply Hin; [done|done|].
      rewrite repeat_length, Nat2Z.id. lia.
  - rewrite (Hrow (repeat 0 (Np.size_of [S H; W]))); [done|].
    rewrite Hout.
    + rewrite (repeat_replicate _ (Z.to_nat _)). apply lookup_replicate_2. lia.
    + intros k Hk Heq. apply Hfi in Hk as Hk'. destruct Hk' as [m' Hm'].
      destruct (Hst _ _ Hm') as (? & _). 
      assert (k = Z.of_nat i) as -> by lia. congruence.
Qed.
Lemma read_layers_saved_single (k : Z) (m : Np.ndarray) (cfg : option registry)
    (vi : option video_info) (dt : option string) (src stem : string) (H W : nat) :
  Np.shape m = [S H; W] → Np.wf_uint16 m = true →
  read_layers src stem
    (Parsed (mk_document
               (Some (map (fun p => (Py.str (fst p), Np.tolist (snd p)))
                          (map_to_list ({[ k := m ]} : gmap Z Np.ndarray)))) cfg vi dt))
  = Some [mk_layer_data m
            ("USG Mask Frame " +:+ Py.str k +:+ " (" +:+ stem +:+ ")")
            (export_colormap (default [] cfg))
            (mk_layer_metadata (default [] cfg) (FrameIndex k) src vi)].
Proof.
  intros Hsh Hwf. rewrite map_to_list_singleton.
  unfold read_layers. cbn [doc_masks doc_labels_config doc_video_info].
  rewrite bool_decide_eq_false_2 by done.
  rewrite mapM_int_saved. cbn [mbind option_bind fmap list_fmap fst].
  change (merge_sort Z.le [k]) with [k].
  cbv iota. rewrite (dict_get_saved [(k, m)] k m); [|apply NoDup_singleton|by left].
  cbn [mbind option_bind].
  rewrite (array_uint16_tolist m H W Hsh Hwf). reflexivity.
Qed.
(** X1: a file written by save_masks that holds at least two masks, all of
    one 2-D shape with at least one row and on frame indices that are not
    negative, is read by read_mask_data as one layer: a stack that ends at
    the largest masked frame index, with the saved mask at every masked
    frame and zeros at the others, with the registry that was saved and
    with the masked frame indices in increasing order. *)
Theorem saved_masks_read_as_stack (s : widget) (file now : string) (H W : nat) :
  file ≠ ""%string →
  (∀ i m, current_masks s !! i = Some m →
          0 ≤ i ∧ Np.shape m = [S H; W] ∧ Np.wf_uint16 m = true) →
  (2 ≤ size (current_masks s))%nat →
  ∃ d layer T ks,
    written (snd (run (save_masks file true now) s)) = [(file, JsonMasks d)] ∧
    MaskData.read_mask_data (OnePath file) (Parsed d) = Ok [layer] ∧
    Np.shape (ld_data layer) = [T; S H; W] ∧
    (∃ k, is_Some (current_masks s !! k) ∧ Z.of_nat T = k + 1) ∧
    (∀ k, is_Some (current_masks s !! k) → k < Z.of_nat T) ∧
    (∀ i, (i < T)%nat →
          stack_slice (ld_data layer) i
          = Some (default (Np.zeros [S H; W]) (current_masks s !! Z.of_nat i))) ∧
    md_labels_config (ld_metadata layer) = labels_config s ∧
    ld_colormap layer = export_colormap (labels_config s) ∧
    md_frames (ld_metadata layer) = FrameIndices ks ∧
    Sorted Z.le ks ∧ (∀ k, k ∈ ks ↔ is_Some (current_masks s !! k)).
Proof.
  intros Hfile Hst Hsize.
  destruct (read_layers_saved_stack (current_masks s) (Some (labels_config s))
              (Some (mk_video_info (total_frames s) (frame_shape <$> current_video s)
                       (map fst (map_to_list (current_masks s)))))
              (Some now) (path_str file) (path_stem file) H W Hst Hsize)
    as (T & data & name & ks & Hread & Hperm & Hsorted & Hlast & Hbound & Hslice).
  exists (save_data now s), 
    (mk_layer_data (Np.mk_array [T; S H; W] data) name
       (export_colormap (labels_config s))
       (mk_layer_metadata (labels_config s) (FrameIndices ks) (path_str file)
          (Some (mk_video_info (total_frames s) (frame_shape <$> current_video s)
                   (map fst (map_to_list (current_masks s))))))), T, ks.
  split.
  { apply save_masks_written; [done|]. intros Hempty. rewrite Hempty in Hsize.
    rewrite map_size_empty in Hsize. lia. }
  split.
  { unfold MaskData.read_mask_data, save_data. by rewrite Hread. }
  repeat (split; [done|]).
  intros k. rewrite Hperm, list_elem_of_fmap. split.
  - intros ([k' m] & -> & Hin%elem_of_map_to_list). by exists m.
  - intros [m Hm]. exists (k, m). split; [done|]. by apply elem_of_map_to_list.
Qed.

Lemma saved_masks_read_as_stack_witness :
  ∃ d layer T ks,
    written (snd (run (save_masks "masks.json" true "now") spec_example))
      = [("masks.json"%string, JsonMasks d)] ∧
    MaskData.read_mask_data (OnePath "masks.json") (Parsed d) = Ok [layer] ∧
    Np.shape (ld_data layer) = [T; 5; 5]%nat ∧
    (∃ k, is_Some (current_masks spec_example !! k) ∧ Z.of_nat T = k + 1) ∧
    (∀ k, is_Some (current_masks spec_example !! k) → k < Z.of_nat T) ∧
    (∀ i, (i < T)%nat →
          stack_slice (ld_data layer) i
          = Some (default (Np.zeros [5; 5]%nat)
                          (current_masks spec_example !! Z.of_nat i))) ∧
    md_labels_config (ld_metadata layer) = labels_config spec_example ∧
    ld_colormap layer = export_colormap (labels_config spec_example) ∧
    md_frames (ld_metadata layer) = FrameIndices ks ∧
    Sorted Z.le ks ∧ (∀ k, k ∈ ks ↔ is_Some (current_masks spec_example !! k)).
Proof.
  apply (saved_masks_read_as_stack spec_example "masks.json" "now" 4 5).
  - done.
  - rewrite spec_example_store. intros i m Hm.
    apply lookup_insert_Some in Hm as [[<- <-]|[_ [<- <-]%lookup_singleton_Some]];
      (split; [lia|split; reflexivity]).
  - rewrite spec_example_store. vm_compute. lia.
Defined.

(** X2: a file written by save_masks that holds exactly one mask, of a 2-D
    shape with at least one row, is read by read_mask_data as one layer
    whose array is that mask, whatever its frame index; the metadata names
    the frame index and carries the registry that was saved. *)
Theorem saved_mask_read_as_layer (s : widget) (file now : string) (k : Z)
    (m : Np.ndarray) (H W : nat) :
  file ≠ ""%string →
  current_masks s = {[ k := m ]} →
  Np.shape m = [S H; W] → Np.wf_uint16 m = true →
  ∃ d layer,
    written (snd (run (save_masks file true now) s)) = [(file, JsonMasks d)] ∧
    MaskData.read_mask_data (OnePath file) (Parsed d) = Ok [layer] ∧
    ld_data layer = m ∧
    md_frames (ld_metadata layer) = FrameIndex k ∧
    md_labels_config (ld_metadata layer) = labels_config s ∧
    ld_colormap layer = export_colormap (labels_config s).
Proof.
  intros Hfile Hst Hsh Hwf.
  eexists (save_data now s), _. split.
  { apply save_masks_written; [done|]. rewrite Hst. apply insert_non_empty. }
  split.
  { unfold MaskData.read_mask_data, save_data. rewrite Hst.
    rewrite (read_layers_saved_single k m _ _ _ _ _ H W Hsh Hwf). reflexivity. }
  done.
Qed.

Lemma saved_mask_read_as_layer_witness :
  ∃ d layer,
    written (snd (run (save_masks "masks.json" true "now") painted3))
      = [("masks.json"%string, JsonMasks d)] ∧
    MaskData.read_mask_data (OnePath "masks.json") (Parsed d) = Ok [layer] ∧
    ld_data layer = Np.mk_array [1; 2]%nat [0; 1] ∧
    md_frames (ld_metadata layer) = FrameIndex 0 ∧
    md_labels_config (ld_metadata layer) = labels_config painted3 ∧
    ld_colormap layer = export_colormap (labels_config painted3).
Proof.
  apply (saved_mask_read_as_layer painted3 "masks.json" "now" 0
           (Np.mk_array [1; 2]%nat [0; 1]) 0 2).
  - done.
  - apply painted3_store.
  - reflexivity.
  - reflexivity.
Defined.
(** X3: save_mask_data returns True and writes one document when the file
    can be opened, and returns False and writes nothing when it cannot.
    The document counts the masks, and load_masks of the widget on it
    leaves exactly the masks and the registry that were saved (an empty
    dict of masks included), for masks of 2-D shapes with at least one row
    and a loading widget that shows no mask layer or whose current frame is
    among the saved ones. *)
Theorem save_mask_data_loads_back (masks : gmap Z Np.ndarray) (cfg : registry)
    (path path' now : string) (vi : option video_info) (s_load : widget) :
  path' ≠ ""%string →
  (∀ i m, masks !! i = Some m →
          ∃ h c, Np.shape m = [S h; c] ∧ Np.wf_uint16 m = true) →
  (mask_layer s_load = None ∨ is_Some (masks !! current_frame s_load)) →
  ∃ d,
    MaskData.save_mask_data masks cfg path vi true now
      = (true, Some (path, mk_reader_save d (size masks))) ∧
    MaskData.save_mask_data masks cfg path vi false now = (false, None) ∧
    (∀ masks_dict, doc_masks d = Some masks_dict → length masks_dict = size masks) ∧
    current_masks (exec (load_masks path' (Parsed d)) s_load) = masks ∧
    labels_config (exec (load_masks path' (Parsed d)) s_load) = cfg.
Proof.
  intros Hpath' Hwf Hlayer. eexists. split; [reflexivity|]. split; [reflexivity|].
  split.
  { intros masks_dict [= <-]. by rewrite length_map, length_map_to_list. }
  apply (wp_exec _ _ (fun s' => current_masks s' = masks ∧ labels_config s' = cfg)).
  unfold load_masks. rewrite bool_decide_eq_false_2 by done.
  wp_run. apply wp_load_saved.
  { intros [k a] Hp%elem_of_map_to_list. by eapply Hwf. }
  cbn [wd shown written].
  change (current_masks (set_layer _ (set_masks ∅ _))) with (∅ : gmap Z Np.ndarray).
  rewrite foldl_insert_map_to_list.
  destruct (mask_layer s_load) as [l|] eqn:Hl; wp_run; [|done].
  apply wp_create_new_mask. cbn [wd].
  intros r w' (Hv & _ & _ & _ & Hlab & _) Hfill _.
  assert (current_masks (wd w') = masks ∧ labels_config (wd w') = cfg) as Hgoal.
  { split; [|by rewrite Hlab].
    unfold lazily_filled in Hfill. simpl in Hfill. rewrite Hfill.
    destruct (current_video s_load) as [v|]; [|done].
    unfold visited. destruct Hlayer as [?|[m Hm]]; [done|].
    rewrite Hm. by destruct (v_index v (current_frame s_load)). }
  destruct r as [[]|]; wp_run; exact Hgoal.
Qed.

Lemma save_mask_data_loads_back_witness :
  ∃ d,
    MaskData.save_mask_data (current_masks spec_example) DEFAULT_LABELS "m.json" None true "now"
      = (true, Some ("m.json"%string, mk_reader_save d 2)) ∧
    MaskData.save_mask_data (current_masks spec_example) DEFAULT_LABELS "m.json" None false "now"
      = (false, None) ∧
    (∀ masks_dict, doc_masks d = Some masks_dict → length masks_dict = 2%nat) ∧
    current_masks (exec (load_masks "m.json" (Parsed d)) init)
      = current_masks spec_example ∧
    labels_config (exec (load_masks "m.json" (Parsed d)) init) = DEFAULT_LABELS.
Proof.
  apply (save_mask_data_loads_back (current_masks spec_example) DEFAULT_LABELS
           "m.json" "m.json" "now" None init).
  - done.
  - rewrite spec_example_store. intros i m Hm. exists 4%nat, 5%nat.
    apply lookup_insert_Some in Hm as [[<- <-]|[_ [<- <-]%lookup_singleton_Some]];
      split; reflexivity.
  - left. reflexivity.
Defined.

Lemma fill_stack_key_error (masks_dict : list (string * list (list Z)))
    (n : Z) (sh : list nat) (ks : list Z) (k : Z) (acc : option (list (list Z))) :
  k ∈ ks → dict_get (Py.str k) masks_dict = None →
  foldl (fun acc frame_idx =>
           slices ← acc;
           rows ← dict_get (Py.str frame_idx) masks_dict;
           a ← Np.array_uint16 rows;
           i ← norm_index n frame_idx;
           slice ← assign_slice sh a;
           Some (<[i := slice]> slices)) acc ks = None.
Proof.
  intros Hk Hget. revert acc. induction ks as [|k' ks IH]; intros acc.
  - by apply elem_of_nil in Hk.
  - cbn [foldl]. apply elem_of_cons in Hk as [<-|Hk].
    + rewrite Hget. destruct acc; cbn [mbind option_bind].
      all: clear; induction ks as [|? ks IH]; [done|exact IH].
    + by apply IH.
Qed.

Lemma read_layers_length (src stem : string) (f : file_read mask_document)
    (layers : list layer_data_tuple) :
  read_layers src stem f = Some layers → (length layers ≤ 1)%nat.
Proof.
  unfold read_layers. intros Hread.
  destruct f as [| |data]; [done|done|].
  destruct (doc_masks data) as [masks_dict|]; [|injection Hread as <-; cbn; lia].
  case_bool_decide; [injection Hread as <-; cbn; lia|].
  repeat (match type of Hread with
          | mbind _ ?x = _ => destruct x; cbn [mbind option_bind] in Hread
          | match ?x with _ => _ end = _ => destruct x
          | (if ?b then _ else _) = _ => destruct b
          end; try discriminate Hread);
    injection Hread as <-; cbn; lia.
Qed.

(** X4: read_mask_data gives no layer, and does not raise, for a file that
    cannot be opened or decoded, for a document without masks or with an
    empty dict of masks, and for a document with a key of ASCII characters
    that is not an int literal or that is one written otherwise than str
    writes it (as 007), unless the dict also has the key as str writes it. *)
Theorem read_mask_data_no_layer (p : string) (d : mask_document)
    (masks : list (string * list (list Z))) (key : string) (rows : list (list Z)) :
  MaskData.read_mask_data (OnePath p) Unreadable = Ok [] ∧
  MaskData.read_mask_data (OnePath p) Malformed = Ok [] ∧
  (doc_masks d = None ∨ doc_masks d = Some [] →
   MaskData.read_mask_data (OnePath p) (Parsed d) = Ok []) ∧
  (doc_masks d = Some masks → (key, rows) ∈ masks → ascii_text key = true →
   (Py.int key = None ∨
    ∃ z, Py.int key = Some z ∧ dict_get (Py.str z) masks = None) →
   MaskData.read_mask_data (OnePath p) (Parsed d) = Ok []).
Proof.
  split; [done|]. split; [done|]. split.
  { intros [Hd|Hd]; unfold MaskData.read_mask_data, read_layers; by rewrite Hd. }
  intros Hd Hin _ Hkey. unfold MaskData.read_mask_data. f_equal.
  destruct (read_layers (path_str p) (path_stem p) (Parsed d)) as [layers|] eqn:Hread;
    [|done].
  exfalso. unfold read_layers in Hread. rewrite Hd in Hread.
  case_bool_decide as Hnil; [subst masks; by apply elem_of_nil in Hin|].
  destruct (mapM _ masks) as [keys|] eqn:Hkeys; [|done].
  apply mapM_Some_1 in Hkeys.
  apply list_elem_of_lookup in Hin as [i Hi].
  destruct (Forall2_lookup_l _ _ _ _ _ Hkeys Hi) as (z & Hz & Hint).
  cbn [fst] in Hint. destruct Hkey as [Hnone|(z' & Hz' & Hget)]; [congruence|].
  assert (z' = z) as -> by congruence.
  assert (z ∈ merge_sort Z.le keys) as Hmem.
  { rewrite merge_sort_Permutation. by eapply list_elem_of_lookup_2. }
  cbn [mbind option_bind] in Hread.
  destruct (merge_sort Z.le keys) as [|k1 [|k2 ks]] eqn:Hks.
  - by apply elem_of_nil in Hmem.
  - apply list_elem_of_singleton in Hmem as <-. by rewrite Hget in Hread.
  - cbn [head hd_error mbind option_bind] in Hread.
    destruct (dict_get (Py.str k1) masks) as [rows1|]; [|done].
    cbn [mbind option_bind] in Hread.
    destruct (Np.array_uint16 rows1) as [first_mask|]; [|done].
    cbn [mbind option_bind] in Hread.
    destruct (list_max (k1 :: k2 :: ks)) as [mx|]; [|done].
    cbn [mbind option_bind] in Hread.
    destruct (mx + 1 <? 0); [done|].
    unfold fill_stack in Hread.
    by rewrite (fill_stack_key_error _ _ _ _ z _ Hmem Hget) in Hread.
Qed.

Lemma read_mask_data_no_layer_witness :
  MaskData.read_mask_data (OnePath "m.json")
    (Parsed (mk_document (Some [("007"%string, [[1; 2]])]) None None None))
  = Ok [].
Proof.
  apply (read_mask_data_no_layer "m.json"
           (mk_document (Some [("007"%string, [[1; 2]])]) None None None)
           [("007"%string, [[1; 2]])] "007" [[1; 2]]).
  - reflexivity.
  - by left.
  - reflexivity.
  - right. exists 7. split; reflexivity.
Defined.

(** X5: whenever napari_get_reader hands out the reader for a path argument,
    read_mask_data on that argument returns, with at most one layer,
    whatever the file holds; it raises only on an empty list of paths, for
    which the hook hands out no reader. *)
Theorem accepted_path_is_read (open_json : string → probe) (path : path_arg)
    (r : reader) (f : file_read mask_document) :
  napari_get_reader open_json path = Ok (Some r) →
  (∃ layers, MaskData.read_mask_data path f = Ok layers ∧ (length layers ≤ 1)%nat) ∧
  MaskData.read_mask_data (PathList []) f = Exc ∧
  napari_get_reader open_json (PathList []) = Ok None.
Proof.
  intros Hget. split; [|done].
  assert (∃ p, MaskData.read_mask_data path f
               = Ok (default [] (read_layers (path_str p) (path_stem p) f)))
    as [p ->].
  { destruct path as [p|[|p l]]; [by exists p|done|by exists p]. }
  eexists. split; [reflexivity|].
  destruct (read_layers _ _ f) as [layers|] eqn:Hread; cbn; [|lia].
  by eapply read_layers_length.
Qed.

Lemma accepted_path_is_read_witness :
  (∃ layers, MaskData.read_mask_data (PathList ["/d/usg_masks.json"%string]) Unreadable
             = Ok layers ∧ (length layers ≤ 1)%nat) ∧
  MaskData.read_mask_data (PathList []) Unreadable = Exc ∧
  napari_get_reader (fun _ => ProbeIOError) (PathList []) = Ok None.
Proof.
  apply (accepted_path_is_read (fun _ => ProbeIOError)
           (PathList ["/d/usg_masks.json"%string]) read_mask_data Unreadable).
  reflexivity.
Defined.

(* --------------------------------------------------------------------- *)
(* File names of the image export                                        *)
(* --------------------------------------------------------------------- *)

Lemma rstrip_sign_digits (r : string) :
  all_digits r = true → r ≠ ""%string → Py.rstrip (String "-" r) = String "-" r.
Proof.
  intros Hr Hne. cbn [Py.rstrip]. rewrite (rstrip_all_digits r Hr).
  by destruct r.
Qed.

Lemma int_format_04d (z : Z) : Py.int (format_04d z) = Some z.
Proof.
  unfold format_04d. destruct (z <? 0) eqn:Hz.
  - apply Z.ltb_lt in Hz. unfold Py.int.
    set (r := String.concat "" (repeat "0"%string (3 - String.length (Py.digits (Z.abs_nat z))))
              +:+ Py.digits (Z.abs_nat z)).
    assert (all_digits r = true) as Hr
      by (apply all_digits_app; [apply all_digits_zeros|apply all_digits_digits]).
    assert (r ≠ ""%string) as Hne.
    { intros Hnil. apply (f_equal String.length) in Hnil.
      unfold r in Hnil. rewrite string_app_length in Hnil. cbn in Hnil.
      assert (Py.digits (Z.abs_nat z) ≠ ""%string) as Hd.
      { intros Hd. pose proof (parse_digits_digits (Z.abs_nat z) false) as Hp.
        rewrite Hd in Hp. discriminate Hp. }
      destruct (Py.digits (Z.abs_nat z)); [done|]. cbn in Hnil. lia. }
    change (Py.lstrip (String "-" r)) with (String "-" r).
    rewrite (rstrip_sign_digits r Hr Hne). unfold r.
    rewrite parse_digits_zeros, parse_digits_digits. cbn. f_equal. lia.
  - apply Z.ltb_ge in Hz. rewrite int_fmt04. f_equal. lia.
Qed.

Lemma format_04d_inj (z1 z2 : Z) : format_04d z1 = format_04d z2 → z1 = z2.
Proof.
  intros H. apply (f_equal Py.int) in H. rewrite !int_format_04d in H. congruence.
Qed.

Lemma os_path_join_inj (a pre x y : string) :
  String.prefix "/" pre = false → pre ≠ ""%string →
  os_path_join a (pre +:+ x) = os_path_join a (pre +:+ y) → x = y.
Proof.
  intros Hpre Hne. unfold os_path_join.
  assert (∀ t, String.prefix "/" (pre +:+ t) = false) as Hp.
  { intros t. destruct pre as [|c pre]; [done|].
    change (String c pre +:+ t)%string with (String c (pre +:+ t)).
    cbn [String.prefix] in *.
    destruct (Ascii.ascii_dec "/" c); [|done]. by destruct pre. }
  rewrite !Hp. destruct (_ || _).
  - intros H%string_app_inv_head. by apply string_app_inv_head in H.
  - intros H%string_app_inv_head. apply (string_app_inv_head "/") in H.
    by apply string_app_inv_head in H.
Qed.

(** The loop over the labels gives the colouring of the mask when every
    colour fits, and raises else. *)
Lemma colored_mask_loop (cfg : registry) (mask : Np.ndarray) (sh : list nat)
    (px : list (Z * Z * Z)) :
  length px = length (Np.data mask) → colors_fit cfg = true →
  foldl (fun acc p =>
           colored ← acc;
           if rgb_fits (label_color (snd p))
           then Some (assign_where (value (snd p)) (rgb (label_color (snd p)))
                                   mask colored)
           else None)
        (Some (mk_rgb_image sh px)) cfg
  = Some (mk_rgb_image sh
            (zip_with (fun z p0 =>
                         foldl (fun px p =>
                                  if bool_decide (z = value (snd p))
                                  then rgb (label_color (snd p)) else px)
                               p0 cfg)
                      (Np.data mask) px)).
Proof.
  revert px. induction cfg as [|p cfg IH]; intros px Hlen Hfit.
  - cbn [foldl]. do 2 f_equal. revert px Hlen.
    induction (Np.data mask) as [|z d IHd]; intros [|p0 px] Hlen; try done.
    cbn. f_equal. apply IHd. by injection Hlen.
  - cbn [colors_fit forallb] in Hfit. apply andb_prop in Hfit as [Hp Hfit].
    cbn [foldl mbind option_bind]. rewrite Hp.
    change (assign_where (value (snd p)) (rgb (label_color (snd p))) mask
              (mk_rgb_image sh px))
      with (mk_rgb_image sh
              (zip_with (fun z px0 => if bool_decide (z = value (snd p))
                                      then rgb (label_color (snd p)) else px0)
                        (Np.data mask) px)).
    rewrite IH; [|by rewrite length_zip_with; lia|done].
    do 2 f_equal. clear. revert px.
    induction (Np.data mask) as [|z d IHd]; intros [|p0 px]; try done.
    cbn. by rewrite IHd.
Qed.

Lemma colored_mask_fits (cfg : registry) (mask : Np.ndarray) :
  colors_fit cfg = true → colored_mask cfg mask = Some (color_mask cfg mask).
Proof.
  intros Hfit. unfold colored_mask, color_mask.
  rewrite colored_mask_loop; [|by rewrite length_map|done].
  do 2 f_equal. induction (Np.data mask) as [|z d IHd]; [done|].
  cbn. by rewrite IHd.
Qed.

Lemma colored_mask_raises (cfg : registry) (mask : Np.ndarray) :
  colors_fit cfg = false → colored_mask cfg mask = None.
Proof.
  unfold colored_mask. generalize (Some (mk_rgb_image (Np.shape mask ++ [3%nat])
                                           (map (fun _ => (0, 0, 0)) (Np.data mask)))).
  induction cfg as [|p cfg IH]; intros acc Hfit; [done|].
  cbn [colors_fit forallb] in Hfit. cbn [foldl].
  apply andb_false_iff in Hfit as [Hp|Hfit]; [|by apply IH].
  rewrite Hp. clear. assert (foldl (fun acc p =>
           colored ← acc;
           if rgb_fits (label_color (snd p))
           then Some (assign_where (value (snd p)) (rgb (label_color (snd p)))
                                   mask colored)
           else None) None cfg = None) as Hnone by (induction cfg; [done|by cbn]).
  by destruct acc.
Qed.

(** The image files of an export whose colours fit. *)
Lemma colored_files (name : Z → string) (cfg : registry) (l : list (Z * Np.ndarray)) :
  colors_fit cfg = true →
  map (fun p => (name (fst p), colored_mask cfg (snd p))) l
  = map (fun f => (fst f, Some (snd f)))
        (map (fun p => (name (fst p), color_mask cfg (snd p))) l).
Proof.
  intros Hfit. rewrite map_map. apply map_ext. intros p. cbn.
  by rewrite colored_mask_fits.
Qed.

Lemma imwrite_all_ok (ok : rgb_image → bool) (files : list (string * rgb_image)) :
  Forall (fun f => ok (snd f) = true) files →
  imwrite_all ok (map (fun f => (fst f, Some (snd f))) files) = (files, true).
Proof.
  induction 1 as [|[name img] files Hf _ IH]; [done|].
  cbn in *. by rewrite Hf, IH.
Qed.

Lemma imwrite_all_fail (ok : rgb_image → bool) (files : list (string * rgb_image)) :
  Exists (fun f => ok (snd f) = false) files →
  let out := imwrite_all ok (map (fun f => (fst f, Some (snd f))) files) in
  snd out = false ∧
  (length (fst out) < length files)%nat ∧
  fst out `prefix_of` files.
Proof.
  induction files as [|[name img] files IH]; intros Hex; [by apply Exists_nil in Hex|].
  cbn. destruct (ok img) eqn:Hf.
  - apply Exists_cons in Hex as [?|Hex]; [cbn in *; congruence|].
    destruct (IH Hex) as (Hs & Hl & Hp).
    destruct (imwrite_all ok _) as [written done]. cbn in *.
    split; [done|]. split; [lia|]. by apply prefix_cons.
  - cbn. split; [done|]. split; [lia|]. apply prefix_nil.
Qed.

(** No image is written when the colouring raises at the first mask. *)
Lemma imwrite_all_raises (ok : rgb_image → bool) (name : Z → string)
    (cfg : registry) (l : list (Z * Np.ndarray)) :
  colors_fit cfg = false → l ≠ [] →
  imwrite_all ok (map (fun p => (name (fst p), colored_mask cfg (snd p))) l)
  = ([], false).
Proof.
  intros Hfit Hl. destruct l as [|p l]; [done|].
  cbn. by rewrite colored_mask_raises.
Qed.

Lemma image_name_inj (folder : string) (i j : Z) :
  os_path_join folder ("usg_mask_frame_" +:+ format_04d i +:+ ".png")
  = os_path_join folder ("usg_mask_frame_" +:+ format_04d j +:+ ".png") → i = j.
Proof.
  intros H. apply (os_path_join_inj folder "usg_mask_frame_") in H; [|done|done].
  apply string_app_inv_tail in H. by apply format_04d_inj.
Qed.

(** The files of an image export whose codec takes every image: one per
    mask, under the name of its frame index. *)
Lemma images_written (imwrite_ok : rgb_image → bool) (name : Z → string)
    (cfg : registry) (st : gmap Z Np.ndarray) :
  (∀ i j, name i = name j → i = j) → colors_fit cfg = true →
  (∀ i m, st !! i = Some m → imwrite_ok (color_mask cfg m) = true) →
  ∃ files,
    imwrite_all imwrite_ok
      (map (fun p => (name (fst p), colored_mask cfg (snd p))) (map_to_list st))
    = (files, true) ∧
    length files = size st ∧
    NoDup files.*1 ∧
    ∀ i img, (name i, img) ∈ files ↔ ∃ m, st !! i = Some m ∧ img = color_mask cfg m.
Proof.
  intros Hinj Hfit Hok. eexists. split.
  { rewrite colored_files by done. apply imwrite_all_ok, Forall_forall.
    intros f [[k m] [-> Hin]]%list_elem_of_fmap.
    apply elem_of_map_to_list in Hin. cbn. by eapply Hok. }
  split; [by rewrite length_map, length_map_to_list|]. split.
  { change (map ?f ?l) with (f <$> l). rewrite <- list_fmap_compose.
    apply NoDup_fmap_2_strong; [|apply NoDup_map_to_list].
    intros [k1 m1] [k2 m2] H1%elem_of_map_to_list H2%elem_of_map_to_list Heq.
    cbn in Heq. apply Hinj in Heq as ->. congruence. }
  intros i img. change (map ?f ?l) with (f <$> l). rewrite list_elem_of_fmap. split.
  - intros ([k m] & [= Hname ->] & Hin%elem_of_map_to_list).
    apply Hinj in Hname as ->. by exists m.
  - intros (m & Hm & ->). exists (i, m). split; [done|]. by apply elem_of_map_to_list.
Qed.

(** X6: export_masks_as_images of the widget, with a folder chosen and a
    store that is not empty: when the colours of the registry fit a byte
    and the codec takes every colorized mask, it reports success and writes
    exactly one image per stored mask, as many files as masks, under
    pairwise distinct names, the file named after frame index i holding the
    colorized mask stored for i. When a colour of the registry does not fit
    a byte, it reports the failure and writes nothing. *)
Theorem masks_exported_as_images (imwrite_ok : rgb_image → bool) (folder : string)
    (s : widget) :
  folder ≠ ""%string → current_masks s ≠ ∅ →
  let out := export_masks_as_images imwrite_ok folder s in
  (colors_fit (labels_config s) = true →
   (∀ i m, current_masks s !! i = Some m →
           imwrite_ok (color_mask (labels_config s) m) = true) →
   ie_shown out = [Information "Exported masks"] ∧
   length (ie_written out) = size (current_masks s) ∧
   NoDup (ie_written out).*1 ∧
   ∀ i img,
     (os_path_join folder ("usg_mask_frame_" +:+ format_04d i +:+ ".png"), img)
       ∈ ie_written out
     ↔ ∃ m, current_masks s !! i = Some m ∧ img = color_mask (labels_config s) m) ∧
  (colors_fit (labels_config s) = false →
   out = mk_image_export [Critical "Failed to export masks"] []).
Proof.
  intros Hfolder Hne out. unfold out, export_masks_as_images.
  rewrite !bool_decide_eq_false_2 by done. split.
  - intros Hfit Hok.
    destruct (images_written imwrite_ok
                (fun i => os_path_join folder ("usg_mask_frame_" +:+ format_04d i +:+ ".png"))
                (labels_config s) (current_masks s)) as (files & -> & H);
      [apply image_name_inj|exact Hfit|exact Hok|].
    cbn [ie_shown ie_written]. by split.
  - intros Hfit.
    rewrite (imwrite_all_raises imwrite_ok
               (fun i => os_path_join folder ("usg_mask_frame_" +:+ format_04d i +:+ ".png")));
      [done|done|].
    intros Hnil. apply Hne. apply map_to_list_empty_iff. exact Hnil.
Qed.

Lemma masks_exported_as_images_witness :
  ie_shown (export_masks_as_images (fun _ => true) "/out" spec_example)
    = [Information "Exported masks"] ∧
  length (ie_written (export_masks_as_images (fun _ => true) "/out" spec_example))
    = size (current_masks spec_example) ∧
  NoDup (ie_written (export_masks_as_images (fun _ => true) "/out" spec_example)).*1 ∧
  ∀ i img,
    (os_path_join "/out" ("usg_mask_frame_" +:+ format_04d i +:+ ".png"), img)
      ∈ ie_written (export_masks_as_images (fun _ => true) "/out" spec_example)
    ↔ ∃ m, current_masks spec_example !! i = Some m ∧
           img = color_mask (labels_config spec_example) m.
Proof.
  destruct (masks_exported_as_images (fun _ => true) "/out" spec_example) as [H _].
  - done.
  - rewrite spec_example_store. apply insert_non_empty.
  - apply H; [reflexivity|done].
Defined.

(** X7: export_masks_as_images of the widget writes nothing and only warns
    when the store is empty, and does nothing when the folder dialog is
    cancelled. When the codec refuses the image of some stored mask, the
    export reports the failure, and what it has written are images of
    stored masks, fewer than there are masks: the files written before the
    failure stay. *)
Theorem image_export_stops_at_failure (imwrite_ok : rgb_image → bool)
    (folder : string) (s : widget) :
  (current_masks s = ∅ →
   export_masks_as_images imwrite_ok folder s
   = mk_image_export [Warning "No masks to export"] []) ∧
  (current_masks s ≠ ∅ →
   export_masks_as_images imwrite_ok "" s = mk_image_export [] []) ∧
  (folder ≠ ""%string →
   (∃ i m, current_masks s !! i = Some m ∧
           imwrite_ok (color_mask (labels_config s) m) = false) →
   let out := export_masks_as_images imwrite_ok folder s in
   ie_shown out = [Critical "Failed to export masks"] ∧
   (length (ie_written out) < size (current_masks s))%nat ∧
   ∀ f, f ∈ ie_written out →
        imwrite_ok (snd f) = true ∧
        ∃ i m, current_masks s !! i = Some m ∧
               f = (os_path_join folder ("usg_mask_frame_" +:+ format_04d i +:+ ".png"),
                    color_mask (labels_config s) m)).
Proof.
  unfold export_masks_as_images. split.
  { intros ->. by rewrite bool_decide_eq_true_2. }
  split.
  { intros Hne. by rewrite bool_decide_eq_false_2, bool_decide_eq_true_2. }
  intros Hfolder (i & m & Hm & Hbad). cbv zeta.
  assert (current_masks s ≠ ∅) as Hne by (intros He; by rewrite He in Hm).
  rewrite !bool_decide_eq_false_2 by done.
  destruct (colors_fit (labels_config s)) eqn:Hfit.
  2:{ rewrite (imwrite_all_raises imwrite_ok
                 (fun i => os_path_join folder
                             ("usg_mask_frame_" +:+ format_04d i +:+ ".png")));
        [|done|].
      - cbn [ie_shown ie_written length]. split; [done|]. split.
        + destruct (decide (size (current_masks s) = 0%nat)) as [H0|?]; [|lia].
          by apply map_size_empty_iff in H0.
        + by intros f ?%elem_of_nil.
      - intros Hnil. apply Hne. apply map_to_list_empty_iff. exact Hnil. }
  rewrite (colored_files
             (fun i => os_path_join folder ("usg_mask_frame_" +:+ format_04d i +:+ ".png")))
    by done.
  set (files := map (fun p => (_, color_mask _ _)) (map_to_list (current_masks s))).
  assert (∀ f, f ∈ files → ∃ i m, current_masks s !! i = Some m ∧
            f = (os_path_join folder ("usg_mask_frame_" +:+ format_04d i +:+ ".png"),
                 color_mask (labels_config s) m)) as Hfiles.
  { intros f [[k a] [-> Hin]]%list_elem_of_fmap. apply elem_of_map_to_list in Hin.
    by exists k, a. }
  assert (∀ l f, f ∈ fst (imwrite_all imwrite_ok l) → imwrite_ok (snd f) = true)
    as Hwritten.
  { clear. induction l as [|[name [img|]] l IH]; intros f; cbn;
      try by intros ?%elem_of_nil.
    destruct (imwrite_ok img) eqn:Hf'; [|by intros ?%elem_of_nil].
    destruct (imwrite_all imwrite_ok l) as [written done]. cbn in *.
    intros [->|?]%elem_of_cons; [done|by apply IH]. }
  destruct (imwrite_all_fail imwrite_ok files) as (Hdone & Hlen & Hpre).
  { apply Exists_exists.
    exists (os_path_join folder ("usg_mask_frame_" +:+ format_04d i +:+ ".png"),
            color_mask (labels_config s) m).
    split; [|exact Hbad].
    apply list_elem_of_fmap. exists (i, m). split; [done|].
    by apply elem_of_map_to_list. }
  cbv zeta in Hdone, Hlen, Hpre.
  pose proof (Hwritten (map (fun f => (fst f, Some (snd f))) files)) as Hw.
  destruct (imwrite_all imwrite_ok _) as [written done]. cbn in *. subst done.
  split; [done|]. split.
  { unfold files in Hlen. by rewrite length_map, length_map_to_list in Hlen. }
  intros f Hf. split; [by apply Hw|]. apply Hfiles.
  destruct Hpre as [rest ->]. apply elem_of_app. by left.
Qed.

Lemma image_export_stops_at_failure_witness :
  ie_shown (export_masks_as_images (fun _ => false) "/out" spec_example)
    = [Critical "Failed to export masks"] ∧
  (length (ie_written (export_masks_as_images (fun _ => false) "/out" spec_example))
   < size (current_masks spec_example))%nat.
Proof.
  destruct (image_export_stops_at_failure (fun _ => false) "/out" spec_example)
    as (_ & _ & H).
  destruct H as (H1 & H2 & _).
  - done.
  - exists 0, (Np.zeros [5; 5]%nat). split; [|done].
    rewrite spec_example_store. reflexivity.
  - split; [exact H1|exact H2].
Defined.
Lemma string_app_assoc (a b c : string) : (a +:+ b) +:+ c = a +:+ (b +:+ c).
Proof.
  induction a as [|x a IH]; [done|].
  change (String x ((a +:+ b) +:+ c) = String x (a +:+ (b +:+ c))). by rewrite IH.
Qed.

Lemma string_app_nil_r (a : string) : a +:+ "" = a.
Proof.
  induction a as [|x a IH]; [done|].
  change (String x (a +:+ "") = String x a). by rewrite IH.
Qed.

Lemma no_slash_app (a b : string) :
  no_slash a = true → no_slash b = true → no_slash (a +:+ b) = true.
Proof.
  induction a as [|c a IH]; simpl; [done|].
  intros [Hc Ha]%andb_prop Hb. rewrite Hc. simpl. by apply IH.
Qed.

Lemma no_slash_all_digits (s : string) : all_digits s = true → no_slash s = true.
Proof.
  induction s as [|c s IH]; simpl; [done|].
  intros [Hc Hs]%andb_prop. rewrite (IH Hs), andb_true_r.
  apply bool_decide_eq_true in Hc. destruct (Ascii.eqb_spec c "/"); [|done].
  subst c. by destruct Hc.
Qed.

Lemma no_slash_format_04d (z : Z) : no_slash (format_04d z) = true.
Proof.
  unfold format_04d, Py.fmt04. destruct (z <? 0).
  - cbn [no_slash]. change (Ascii.eqb "-" "/") with false. cbn [negb andb].
    apply no_slash_all_digits, all_digits_app;
      [apply all_digits_zeros|apply all_digits_digits].
  - apply no_slash_all_digits, all_digits_app;
      [apply all_digits_zeros|apply all_digits_digits].
Qed.

Lemma split_slash_no_slash (cur t : string) :
  no_slash t = true → split_slash cur t = [cur +:+ t].
Proof.
  revert cur. induction t as [|c t IH]; intros cur; simpl.
  - intros _. by rewrite string_app_nil_r.
  - intros [Hc Ht]%andb_prop. apply negb_true_iff in Hc. rewrite Hc.
    rewrite (IH _ Ht). f_equal. apply string_app_assoc.
Qed.

(** The components of a path that ends in a text without a slash: those of
    the path before it, the text added to the last of them. *)
Lemma split_slash_app (cur pre : string) :
  ∃ front last, ∀ t, no_slash t = true →
    split_slash cur (pre +:+ t) = front ++ [last +:+ t].
Proof.
  revert cur. induction pre as [|c pre IH]; intros cur.
  - exists [], cur. intros t Ht. by apply split_slash_no_slash.
  - destruct (IH EmptyString) as (front1 & last1 & H1).
    destruct (IH (cur +:+ String c EmptyString)) as (front2 & last2 & H2).
    destruct (Ascii.eqb c "/") eqn:Hc.
    + exists (cur :: front1), last1. intros t Ht.
      change (String c pre +:+ t)%string with (String c (pre +:+ t)).
      cbn [split_slash]. rewrite Hc. by rewrite (H1 t Ht).
    + exists front2, last2. intros t Ht.
      change (String c pre +:+ t)%string with (String c (pre +:+ t)).
      cbn [split_slash]. rewrite Hc. by apply H2.
Qed.

Lemma path_root_app (pre t u : string) :
  path_root (pre +:+ "_" +:+ t) = path_root (pre +:+ "_" +:+ u).
Proof.
  change ("_" +:+ t)%string with (String "_" t).
  change ("_" +:+ u)%string with (String "_" u).
  destruct pre as [|c1 [|c2 [|c3 pre]]]; simpl; done.
Qed.

Lemma concat_snoc (parts : list string) (x : string) :
  ∃ pfx, ∀ t, String.concat "/" (parts ++ [x +:+ t]) = pfx +:+ t.
Proof.
  induction parts as [|p parts (pfx & IH)].
  - exists x. done.
  - exists (p +:+ "/" +:+ pfx). intros t. cbn [app String.concat].
    rewrite IH. destruct (parts ++ [x +:+ t]) eqn:Heq.
    + by destruct parts.
    + by rewrite !string_app_assoc.
Qed.
Lemma path_parts_app (pre : string) :
  ∃ front last, ∀ u, no_slash u = true → (2 ≤ String.length u)%nat →
    path_parts (pre +:+ u) = front ++ [last +:+ u].
Proof.
  unfold path_parts.
  destruct (split_slash_app "" pre) as (front & last & Hpre).
  exists (filter (fun c => c ≠ ""%string ∧ c ≠ "."%string) front), last.
  intros u Hu Hlu. rewrite (Hpre u Hu).
  rewrite filter_app. f_equal. rewrite filter_cons_True; [done|].
  split; intros H%(f_equal String.length);
    rewrite string_app_length in H; cbn in H; lia.
Qed.

Lemma path_render_snoc (root : string) (parts : list string) (x : string) :
  ∃ pfx, ∀ t, path_render root (parts ++ [x +:+ t]) = pfx +:+ t.
Proof.
  destruct (concat_snoc parts x) as [pfx Hpfx].
  exists (root +:+ pfx). intros t. unfold path_render.
  rewrite Hpfx, string_app_assoc.
  destruct root; [|done]. by destruct parts.
Qed.

Lemma reader_image_name_inj (dir pre : string) (i j : Z) :
  path_join_str dir (pre +:+ "_" +:+ format_04d i +:+ ".png")
  = path_join_str dir (pre +:+ "_" +:+ format_04d j +:+ ".png") → i = j.
Proof.
  assert (∀ z, no_slash ("_" +:+ format_04d z +:+ ".png") = true) as Hns.
  { intros z. apply (no_slash_app "_"); [done|].
    apply no_slash_app; [apply no_slash_format_04d|done]. }
  assert (∀ z, (2 ≤ String.length ("_" +:+ format_04d z +:+ ".png"))%nat) as Hlen.
  { intros z. rewrite !string_app_length. cbn. lia. }
  assert (∃ pfx, ∀ z,
            path_join_str dir (pre +:+ "_" +:+ format_04d z +:+ ".png")
            = pfx +:+ "_" +:+ format_04d z +:+ ".png") as [pfx Hpfx].
  { destruct (path_parts_app pre) as (front & last & Hparts).
    destruct (path_render_snoc (path_root dir) (path_parts dir ++ front) last)
      as [pfx1 Hpfx1].
    destruct (path_render_snoc (path_root (pre +:+ "_" +:+ format_04d i +:+ ".png"))
                front last) as [pfx2 Hpfx2].
    exists (match path_root (pre +:+ "_" +:+ format_04d i +:+ ".png") with
            | EmptyString => pfx1 | _ => pfx2 end).
    intros z. unfold path_join_str, path_str.
    rewrite (path_root_app pre (format_04d z +:+ ".png") (format_04d i +:+ ".png")).
    rewrite (Hparts _ (Hns z) (Hlen z)).
    destruct (path_root (pre +:+ "_" +:+ format_04d i +:+ ".png")) eqn:Hroot.
    - rewrite app_assoc. apply Hpfx1.
    - apply Hpfx2. }
  intros Heq. rewrite (Hpfx i), (Hpfx j) in Heq.
  apply string_app_inv_head in Heq. apply (string_app_inv_head "_") in Heq.
  apply string_app_inv_tail in Heq. by apply format_04d_inj.
Qed.
(** X8: export_masks_as_images of the reader module, when the output
    directory can be made: with colours of the registry that fit a byte and
    a codec that takes every colorized mask, it returns True and writes
    exactly one image per mask, under pairwise distinct names, the file
    named after frame index i holding the colorized mask of i; an empty
    dict of masks is a success without files, whatever the colours. With a
    colour that does not fit a byte and a dict of masks that is not empty
    it returns False and writes nothing, as it does when the directory
    cannot be made. *)
Theorem reader_masks_exported_as_images (imwrite_ok : rgb_image → bool)
    (masks : gmap Z Np.ndarray) (cfg : registry) (output_dir pre : string) :
  let export := MaskData.export_masks_as_images imwrite_ok masks cfg output_dir pre in
  (colors_fit cfg = true →
   (∀ i m, masks !! i = Some m → imwrite_ok (color_mask cfg m) = true) →
   ∃ files,
     export true = (true, files) ∧
     length files = size masks ∧
     NoDup files.*1 ∧
     (∀ i img,
        (path_join_str output_dir (pre +:+ "_" +:+ format_04d i +:+ ".png"), img)
          ∈ files
        ↔ ∃ m, masks !! i = Some m ∧ img = color_mask cfg m)) ∧
  (masks = ∅ → export true = (true, [])) ∧
  (colors_fit cfg = false → masks ≠ ∅ → export true = (false, [])) ∧
  export false = (false, []).
Proof.
  intros export. unfold export, MaskData.export_masks_as_images.
  split; [|split; [|split]].
  - intros Hfit Hok.
    destruct (images_written imwrite_ok
                (fun i => path_join_str output_dir (pre +:+ "_" +:+ format_04d i +:+ ".png"))
                cfg masks) as (files & -> & Hlen & Hnd & Hin);
      [apply reader_image_name_inj|exact Hfit|exact Hok|].
    by exists files.
  - intros ->. by rewrite map_to_list_empty.
  - intros Hfit Hne.
    rewrite (imwrite_all_raises imwrite_ok
               (fun i => path_join_str output_dir (pre +:+ "_" +:+ format_04d i +:+ ".png")));
      [done|done|].
    intros Hnil. apply Hne. apply map_to_list_empty_iff. exact Hnil.
  - done.
Qed.

Lemma reader_masks_exported_as_images_witness :
  ∃ files,
    MaskData.export_masks_as_images (fun _ => true) (current_masks spec_example)
      DEFAULT_LABELS "out/" "usg_mask_frame" true = (true, files) ∧
    length files = size (current_masks spec_example) ∧
    NoDup files.*1 ∧
    (∀ i img,
       (path_join_str "out/" ("usg_mask_frame" +:+ "_" +:+ format_04d i +:+ ".png"), img)
         ∈ files
       ↔ ∃ m, current_masks spec_example !! i = Some m ∧
              img = color_mask DEFAULT_LABELS m).
Proof.
  destruct (reader_masks_exported_as_images (fun _ => true)
              (current_masks spec_example) DEFAULT_LABELS "out/" "usg_mask_frame")
    as [H _].
  apply H; [reflexivity|done].
Defined.

(* --------------------------------------------------------------------- *)
(* Colours of the labels                                                 *)
(* --------------------------------------------------------------------- *)

Lemma foldl_color_lookup (cfg : registry) (z : Z) (px : Z * Z * Z)
    (m : gmap Z (Z * Z * Z)) :
  foldl (fun px p => if bool_decide (z = value (snd p))
                     then rgb (label_color (snd p)) else px)
        (default px (m !! z)) cfg
  = default px
      (foldl (fun m p => <[value (snd p) := rgb (label_color (snd p))]> m) m cfg !! z).
Proof.
  revert m. induction cfg as [|p cfg IH]; intros m; [done|].
  cbn [foldl]. rewrite <- IH. f_equal. case_bool_decide as Hz.
  - by rewrite Hz, lookup_insert_eq.
  - by rewrite lookup_insert_ne.
Qed.

Lemma export_colormap_other (cfg : registry) (v : Z) (m : gmap Z (Z * Z * Z)) :
  v ∉ reg_values cfg →
  foldl (fun m p => <[value (snd p) := rgb (label_color (snd p))]> m) m cfg !! v
  = m !! v.
Proof.
  revert m. induction cfg as [|p cfg IH]; intros m Hv; [done|].
  cbn [foldl]. unfold reg_values in Hv. cbn [map] in Hv.
  apply not_elem_of_cons in Hv as [Hne Hv].
  rewrite IH by done. by rewrite lookup_insert_ne.
Qed.

Lemma export_colormap_label (cfg : registry) (name : string) (e : label_entry)
    (m : gmap Z (Z * Z * Z)) :
  NoDup (reg_values cfg) → (name, e) ∈ cfg →
  foldl (fun m p => <[value (snd p) := rgb (label_color (snd p))]> m) m cfg !! value e
  = Some (rgb (label_color e)).
Proof.
  revert m. induction cfg as [|p cfg IH]; intros m Hnd Hin.
  - by apply elem_of_nil in Hin.
  - unfold reg_values in Hnd. cbn [map] in Hnd. apply NoDup_cons in Hnd as [Hp Hnd].
    cbn [foldl]. apply elem_of_cons in Hin as [<-|Hin].
    + rewrite export_colormap_other by done. by rewrite lookup_insert_eq.
    + by apply IH.
Qed.

Lemma color_mask_pixels (cfg : registry) (mask : Np.ndarray) :
  rgb_pixels (color_mask cfg mask)
  = map (fun z => default (0, 0, 0) (export_colormap cfg !! z)) (Np.data mask).
Proof.
  unfold color_mask, export_colormap. cbn [rgb_pixels]. apply map_ext. intros z.
  by rewrite <- foldl_color_lookup, lookup_empty.
Qed.

Lemma color_mask_fits (cfg : registry) (mask : Np.ndarray) :
  colors_fit cfg = true →
  Forall (fun px => pixel_fits px = true) (rgb_pixels (color_mask cfg mask)).
Proof.
  intros Hfit. unfold color_mask. cbn [rgb_pixels].
  apply Forall_forall. intros px [z [-> _]]%list_elem_of_fmap.
  assert (pixel_fits (0, 0, 0) = true) as H0 by done.
  revert H0. generalize (0, 0, 0). revert Hfit.
  induction cfg as [|p cfg IH]; intros Hfit px Hpx; [done|].
  cbn [colors_fit forallb] in Hfit. apply andb_prop in Hfit as [Hp Hfit].
  cbn [foldl]. apply IH; [done|]. by case_bool_decide.
Qed.

(** X9: the loop that colours a mask in the image exports raises when a
    colour of the registry has a component outside 0..255. When every
    colour fits, it gives an image of the shape of the mask with one more
    axis of 3, in which every element has the colour of the last label of
    the registry that has its value and is black when no label has it;
    every component is a byte, and a mask of the frame shape is coloured as
    the bulk export colours it. The colour found for a value that no label
    has is none, and with pairwise distinct label values the colour found
    for the value of a label is the colour of that label. *)
Theorem colorized_by_label_value (cfg : registry) (mask : Np.ndarray) (H W : nat) :
  (colors_fit cfg = false → colored_mask cfg mask = None) ∧
  (colors_fit cfg = true →
   ∃ colored,
     colored_mask cfg mask = Some colored ∧
     rgb_shape colored = Np.shape mask ++ [3%nat] ∧
     rgb_pixels colored
       = map (fun z => default (0, 0, 0) (export_colormap cfg !! z)) (Np.data mask) ∧
     Forall (fun px => pixel_fits px = true) (rgb_pixels colored) ∧
     (Np.shape mask = [H; W] →
      colorize H W (export_colormap cfg) mask = rgb_pixels colored)) ∧
  (∀ v, v ∉ reg_values cfg → export_colormap cfg !! v = None) ∧
  (NoDup (reg_values cfg) →
   ∀ name e, (name, e) ∈ cfg →
             export_colormap cfg !! value e = Some (rgb (label_color e))).
Proof.
  split; [apply colored_mask_raises|]. split.
  { intros Hfit. exists (color_mask cfg mask).
    split; [by apply colored_mask_fits|]. split; [done|].
    split; [apply color_mask_pixels|]. split; [by apply color_mask_fits|].
    intros Hsh. unfold colorize. by rewrite bool_decide_eq_true_2, color_mask_pixels. }
  split.
  { intros v Hv. unfold export_colormap. by rewrite export_colormap_other. }
  intros Hnd name e Hin. by eapply export_colormap_label.
Qed.

Lemma colorized_by_label_value_witness :
  ∃ colored,
    colored_mask DEFAULT_LABELS (Np.mk_array [1; 3]%nat [0; 1; 7]) = Some colored ∧
    rgb_pixels colored = [(0, 0, 0); (255, 0, 0); (0, 0, 0)].
Proof.
  destruct (colorized_by_label_value DEFAULT_LABELS (Np.mk_array [1; 3]%nat [0; 1; 7])
              1 3) as (_ & H & _).
  destruct H as (colored & Hc & _ & Hpx & _); [reflexivity|].
  exists colored. split; [exact Hc|]. rewrite Hpx. reflexivity.
Defined.

(* --------------------------------------------------------------------- *)
(* The colormap of the mask layer                                        *)
(* --------------------------------------------------------------------- *)

Lemma create_colormap_rows (cfg : registry) (n : Z) (rows : list (Z * Z * Z * Z)) :
  (∀ v, v ∈ reg_values cfg → 0 ≤ v < n) → NoDup (reg_values cfg) →
  ∃ rows',
    foldl (fun acc p =>
             rows ← acc;
             i ← norm_index n (value (snd p));
             Some (<[i := rgba (label_color (snd p))]> rows))
          (Some rows) cfg = Some rows' ∧
    length rows' = length rows ∧
    (∀ name e, (name, e) ∈ cfg → (Z.to_nat (value e) < length rows)%nat →
               rows' !! Z.to_nat (value e) = Some (rgba (label_color e))) ∧
    (∀ i, Z.of_nat i ∉ reg_values cfg → rows' !! i = rows !! i).
Proof.
  revert rows. induction cfg as [|p cfg IH]; intros rows Hv Hnd.
  - exists rows. split; [done|]. split; [done|]. split; [|done].
    intros name e Hin. by apply elem_of_nil in Hin.
  - unfold reg_values in Hv, Hnd. cbn [map] in Hv, Hnd.
    apply NoDup_cons in Hnd as [Hp Hnd].
    assert (0 ≤ value (snd p) < n) as Hrange by (apply Hv; left).
    assert (norm_index n (value (snd p)) = Some (Z.to_nat (value (snd p)))) as Hnorm.
    { unfold norm_index.
      replace ((0 <=? value (snd p)) && (value (snd p) <? n)) with true; [done|].
      symmetry; apply andb_true_intro; split; [apply Z.leb_le|apply Z.ltb_lt]; lia. }
    cbn [foldl mbind option_bind]. rewrite Hnorm. cbn [mbind option_bind].
    destruct (IH (<[Z.to_nat (value (snd p)) := rgba (label_color (snd p))]> rows))
      as (rows' & Hrows' & Hlen & Hin & Hout); [|done|].
    { intros v Hin. apply Hv. by right. }
    exists rows'. split; [exact Hrows'|]. split; [by rewrite Hlen, length_insert|].
    split.
    + intros name e [<-|Hin']%elem_of_cons Hlt.
      * cbn [snd] in *. rewrite Hout.
        -- by rewrite list_lookup_insert_eq.
        -- rewrite Z2Nat.id by lia. exact Hp.
      * apply (Hin name e Hin'). by rewrite length_insert.
    + intros i Hi. apply not_elem_of_cons in Hi as [Hne Hi].
      rewrite Hout by done. apply list_lookup_insert_ne. lia.
Qed.

(** X10: create_colormap has no colormap for an empty registry (max raises
    on it). For a registry that is not empty, with label values that are
    pairwise distinct and not negative, it makes one row per value from 0
    to the largest label value: the row of a label value holds the colour
    of its label, with alpha 255 when the label has three components, and
    every other row is zero. *)
Theorem colormap_rows_by_value (cfg : registry) :
  create_colormap [] = None ∧
  (cfg ≠ [] → (∀ v, v ∈ reg_values cfg → 0 ≤ v) → NoDup (reg_values cfg) →
   ∃ rows mx,
     create_colormap cfg = Some rows ∧
     max_value cfg = Some mx ∧
     length rows = Z.to_nat (mx + 1) ∧
     (∀ name e, (name, e) ∈ cfg →
                rows !! Z.to_nat (value e) = Some (rgba (label_color e))) ∧
     (∀ i, (i < length rows)%nat → Z.of_nat i ∉ reg_values cfg →
           rows !! i = Some (0, 0, 0, 0))).
Proof.
  split; [done|]. intros Hne Hpos Hnd. unfold create_colormap.
  destruct (max_value cfg) as [mx|] eqn:Hmx; [|by apply max_value_None in Hmx].
  cbn [mbind option_bind].
  assert (∀ v, v ∈ reg_values cfg → 0 ≤ v < mx + 1) as Hrange.
  { intros v Hv. pose proof (max_value_bound cfg mx v Hmx Hv). specialize (Hpos v Hv). lia. }
  assert (0 ≤ mx) as Hmx0.
  { destruct cfg as [|p cfg]; [done|]. specialize (Hrange (value (snd p))).
    unfold reg_values in Hrange. cbn [map] in Hrange.
    assert (0 ≤ value (snd p) < mx + 1) by (apply Hrange; left). lia. }
  replace (mx + 1 <? 0) with false by (symmetry; apply Z.ltb_ge; lia).
  destruct (create_colormap_rows cfg (mx + 1) (repeat (0, 0, 0, 0) (Z.to_nat (mx + 1)))
              Hrange Hnd) as (rows & Hrows & Hlen & Hin & Hout).
  rewrite repeat_length in Hlen, Hin.
  exists rows, mx. split; [exact Hrows|]. split; [done|]. split; [done|]. split.
  - intros name e He. apply (Hin name e He).
    assert (value e ∈ reg_values cfg) as Hv.
    { unfold reg_values. change (map ?f ?l) with (f <$> l).
      apply list_elem_of_fmap. by exists (name, e). }
    specialize (Hrange _ Hv). lia.
  - intros i Hi Hnot. rewrite Hout by done.
    rewrite repeat_replicate. apply lookup_replicate_2. lia.
Qed.

Lemma colormap_rows_by_value_witness :
  ∃ rows mx,
    create_colormap DEFAULT_LABELS = Some rows ∧
    max_value DEFAULT_LABELS = Some mx ∧
    length rows = Z.to_nat (mx + 1) ∧
    (∀ name e, (name, e) ∈ DEFAULT_LABELS →
               rows !! Z.to_nat (value e) = Some (rgba (label_color e))) ∧
    (∀ i, (i < length rows)%nat → Z.of_nat i ∉ reg_values DEFAULT_LABELS →
          rows !! i = Some (0, 0, 0, 0)).
Proof.
  destruct (colormap_rows_by_value DEFAULT_LABELS) as [_ H]. apply H.
  - done.
  - intros v Hv. vm_compute in Hv.
    repeat (apply elem_of_cons in Hv as [->|Hv]; [lia|]). by apply elem_of_nil in Hv.
  - apply DEFAULT_LABELS_distinct.
Defined.
(* --------------------------------------------------------------------- *)
(* Bulk export: what a failed export leaves, and the metadata            *)
(* --------------------------------------------------------------------- *)

(** X11: a bulk export in which some frame cannot be exported (the codec
    refuses the frame or its mask, or the stored mask does not fit the
    frame shape) is caught by its handler: the one message shown is the
    failure, every file written is a per-frame file of a frame of the
    video, and neither of the two stacks nor export_metadata.json has been
    written. *)
Theorem failed_export_writes_no_stack (imwrite_ok : Np.ndarray → bool)
    (root : string) (s : widget) (v : video) (i : nat) :
  current_video s = Some v → root ≠ ""%string →
  (i < Z.to_nat (total_frames s))%nat →
  exportable imwrite_ok v (current_masks s) (export_colormap (labels_config s))
             (v_height v) (v_width v) i = false →
  let w' := snd (run (export_frames_and_masks_png_npy imwrite_ok root) s) in
  shown w' = [Critical "Failed to export data"] ∧
  (∀ f, f ∈ (written w').*1 →
        ∃ k j, (j < Z.to_nat (total_frames s))%nat ∧ f = artifact_path root k j) ∧
  (frames_stack_npy root ∉ (written w').*1) ∧
  (masks_stack_npy root ∉ (written w').*1) ∧
  (export_metadata_json root ∉ (written w').*1).
Proof.
  intros Hv Hroot Hi Hbad w'.
  pose proof (export_outcome imwrite_ok root s v Hv Hroot) as [_ Hout].
  pose proof (export_written_paths imwrite_ok root s v Hv Hroot) as Hpaths.
  cbv zeta in Hout, Hpaths. fold w' in Hout, Hpaths.
  destruct (forallb _ _) eqn:Hall.
  { rewrite forallb_forall in Hall. rewrite Hall in Hbad; [done|].
    apply in_seq. lia. }
  destruct Hpaths as [Hs|Hpaths]; [by rewrite Hs in Hout|].
  assert (∀ f, f ∈ (written w').*1 →
            ∃ k j, (j < Z.to_nat (total_frames s))%nat ∧ f = artifact_path root k j)
    as Hfiles.
  { intros f [p [-> Hp]]%list_elem_of_fmap.
    rewrite Forall_forall in Hpaths. apply (Hpaths p Hp). }
  split; [exact Hout|]. split; [exact Hfiles|].
  repeat split; intros (k & j & _ & Heq)%Hfiles;
    destruct (artifact_path_not_final root k j) as (? & ? & ?); congruence.
Qed.

Lemma failed_export_writes_no_stack_witness :
  shown (snd (run (export_frames_and_masks_png_npy (fun _ => false) "out") loaded3))
    = [Critical "Failed to export data"] ∧
  masks_stack_npy "out"
    ∉ (written (snd (run (export_frames_and_masks_png_npy (fun _ => false) "out")
                       loaded3))).*1.
Proof.
  destruct (failed_export_writes_no_stack (fun _ => false) "out" loaded3 clip3 0)
    as (H1 & _ & _ & H2 & _).
  - reflexivity.
  - done.
  - vm_compute. lia.
  - reflexivity.
  - split; [exact H1|exact H2].
Defined.

(** X12: a bulk export that reports success has written
    export_metadata.json as its last file: it holds the path of the video,
    the number of frames, the frame shape and the registry, and under
    masked_frames every frame index of the mask store, each once and in
    increasing order, those outside the frames of the video included. *)
Theorem export_metadata_lists_store (imwrite_ok : Np.ndarray → bool)
    (root : string) (s : widget) (v : video) :
  current_video s = Some v → root ≠ ""%string →
  export_succeeds imwrite_ok root s →
  ∃ log meta,
    written (snd (run (export_frames_and_masks_png_npy imwrite_ok root) s))
      = log ++ [(export_metadata_json root, JsonExport meta)] ∧
    em_video_path meta = current_video_path s ∧
    em_total_frames meta = total_frames s ∧
    em_frame_shape meta = frame_shape v ∧
    em_labels_config meta = labels_config s ∧
    Sorted Z.le (em_masked_frames meta) ∧
    NoDup (em_masked_frames meta) ∧
    ∀ k, k ∈ em_masked_frames meta ↔ is_Some (current_masks s !! k).
Proof.
  intros Hv Hroot Hok.
  pose proof (export_outcome imwrite_ok root s v Hv Hroot) as [_ Hout].
  cbv zeta in Hout.
  rewrite (export_succeeds_exportable imwrite_ok root s v Hv Hroot Hok) in Hout.
  destruct Hout as [_ ->].
  eexists (_ ++ [_; _]), _. split.
  { rewrite <- app_assoc. reflexivity. }
  cbn [em_video_path em_total_frames em_frame_shape em_labels_config em_masked_frames].
  repeat (split; [done|]).
  pose proof (merge_sort_Permutation Z.le (map fst (map_to_list (current_masks s))))
    as Hperm.
  split; [apply (Sorted_merge_sort Z.le)|]. split.
  { rewrite Hperm. apply NoDup_fst_map_to_list. }
  intros k. rewrite Hperm. change (map ?f ?l) with (f <$> l).
  rewrite list_elem_of_fmap. split.
  - intros ([k' m] & -> & Hin%elem_of_map_to_list). by exists m.
  - intros [m Hm]. exists (k, m). split; [done|]. by apply elem_of_map_to_list.
Qed.

Lemma export_metadata_lists_store_witness :
  ∃ log meta,
    written (snd (run (export_frames_and_masks_png_npy (fun _ => true) "out")
                    spec_example))
      = log ++ [(export_metadata_json "out", JsonExport meta)] ∧
    em_video_path meta = current_video_path spec_example ∧
    em_total_frames meta = total_frames spec_example ∧
    em_frame_shape meta = frame_shape clip5 ∧
    em_labels_config meta = labels_config spec_example ∧
    Sorted Z.le (em_masked_frames meta) ∧
    NoDup (em_masked_frames meta) ∧
    ∀ k, k ∈ em_masked_frames meta ↔ is_Some (current_masks spec_example !! k).
Proof.
  apply (export_metadata_lists_store (fun _ => true) "out" spec_example clip5).
  - reflexivity.
  - done.
  - reflexivity.
Defined.

(* --------------------------------------------------------------------- *)
(* The frame cursor in a session                                         *)
(* --------------------------------------------------------------------- *)

Section cursor_in_sessions.

Let Inv := cursor_ok.
Let Post {A} : result A → world → Prop := fun _ w' => Inv (wd w').

Lemma cursor_keep (s s' : widget) :
  current_video s' = current_video s → total_frames s' = total_frames s →
  current_frame s' = current_frame s → frame_slider s' = frame_slider s →
  Inv s → Inv s'.
Proof. unfold Inv, cursor_ok. by intros -> -> -> ->. Qed.

Lemma cursor_create_new_mask w : Inv (wd w) → wp create_new_mask Post w.
Proof.
  intros HI. apply wp_create_new_mask.
  intros r w' (Hv & _ & Hf & Ht & _ & Hs) _ _. by eapply cursor_keep.
Qed.

Lemma cursor_set_value (x : Z) w : Inv (wd w) → wp (set_value x) Post w.
Proof.
  intros (Hmin & Hval & Hvid). apply wp_set_value.
  intros w' (Hv & _ & Ht & _) Hs Hc. unfold Post, Inv, cursor_ok.
  rewrite Hv, Ht, Hs. cbn [s_min s_max s_value].
  pose proof (bound_range (frame_slider (wd w)) x) as Hb. unfold bound in *.
  destruct (current_video (wd w)) as [v|] eqn:Hvideo.
  - destruct Hvid as (HT & Hmax & Hcur).
    destruct Hc as [(vid & _ & Hf & _)|(Hf & _ & [Heq|?])]; [| |done];
      rewrite Hf; repeat split; try done; lia.
  - destruct Hvid as (HT & Hmax & Hcur).
    destruct Hc as [(vid & ? & _)|(Hf & _ & _)]; [done|].
    rewrite Hf. repeat split; try done; lia.
Qed.

Lemma cursor_navigate (n : navigation) w : Inv (wd w) → wp (navigate n) Post w.
Proof.
  intros HI. destruct w as [s sh wr]. simpl in HI.
  destruct n as [| |x]; simpl; [unfold prev_frame|unfold next_frame|];
    wp_run; try done; by apply cursor_set_value.
Qed.

Lemma cursor_loaded (v : video) (s1 s2 : widget) (m0 : Z) :
  m0 = 0 →
  current_video s1 = Some v → total_frames s1 = Z.of_nat (v_len v) →
  s_min (frame_slider s1) = Z.min m0 (Z.of_nat (v_len v) - 1) →
  s_max (frame_slider s1) = Z.max (Z.min m0 (Z.of_nat (v_len v) - 1))
                                  (Z.of_nat (v_len v) - 1) →
  (current_frame s1 = s_value (frame_slider s1) ∨ current_frame s1 = 0) →
  same_video s1 s2 →
  frame_slider s2 = mk_slider (s_min (frame_slider s1)) (s_max (frame_slider s1))
                              (bound (frame_slider s1) 0) →
  ((∃ vid, current_video s1 = Some vid ∧
           current_frame s2 = bound (frame_slider s1) 0 ∧
           current_masks s2 = visited vid (bound (frame_slider s1) 0) (persisted s1)) ∨
   current_frame s2 = current_frame s1 ∧
   current_masks s2 = current_masks s1 ∧
   (bound (frame_slider s1) 0 = s_value (frame_slider s1) ∨ current_video s1 = None)) →
  Inv s2.
Proof.
  intros -> Hv1 Ht1 Hmin1 Hmax1 Hc1 (Hv2 & _ & Ht2 & _) Hs2 Hc2.
  assert (1 ≤ Z.of_nat (v_len v)) as Hlen by (unfold v_len, v_frames; simpl; lia).
  unfold Inv, cursor_ok. rewrite Hv2, Hv1, Ht2, Ht1, Hs2. cbn [s_min s_max s_value].
  assert (bound (frame_slider s1) 0 = 0) as Hb
    by (unfold bound; rewrite Hmin1, Hmax1; lia).
  rewrite Hb in *. rewrite Hmin1, Hmax1.
  assert (current_frame s2 = 0) as Hf.
  { destruct Hc2 as [(_ & _ & Hf & _)|(Hf & _ & [Heq|Hn])].
    - done.
    - rewrite Hf. destruct Hc1 as [Hc1|Hc1]; [|done]. by rewrite Hc1, <- Heq.
    - by rewrite Hv1 in Hn. }
  rewrite Hf. repeat split; lia.
Qed.

Lemma cursor_load_video (path : string) (r : reader_result) w :
  Inv (wd w) → wp (load_video path r) Post w.
Proof.
  intros HI. unfold load_video. destruct w as [s sh wr]. simpl in HI.
  pose proof HI as (Hmin & _).
  wp_run; try exact HI.
  all: apply wp_set_maximum; simpl; intros w1 (Hv1 & _ & Ht1 & _) Hmin1 Hmax1 Hc1;
    wp_step; apply wp_set_value; intros w2 Hsame2 Hs2 Hc2;
    assert (Inv (wd w2)) as HI2
      by (eapply (cursor_loaded _ (wd w1) (wd w2) _ Hmin);
          [exact Hv1|exact Ht1|exact Hmin1|exact Hmax1| |exact Hsame2|exact Hs2|exact Hc2];
          destruct Hc1 as [?|[? _]]; [by left|by right]);
    wp_step; eapply wp_mono; [by apply cursor_create_new_mask|];
    intros [[]|] w3 HI3; by wp_run.
Qed.

Lemma cursor_load_masks (path : string) (f : file_read mask_document) w :
  Inv (wd w) → wp (load_masks path f) Post w.
Proof.
  intros HI. unfold load_masks, json_load. destruct w as [s sh wr]. simpl in HI.
  assert (∀ masks w0, Inv (wd w0) →
            wp (for_each masks load_one) (fun _ w' => Inv (wd w')) w0) as Hloop.
  { intros masks w0 HI0. apply (wp_for_each_inv (fun w' => Inv (wd w'))); [done|].
    intros [key rows] [s1 sh1 wr1] _ HI1. unfold load_one. by wp_run. }
  assert (∀ w0, Inv (wd w0) →
            wp (s0 ← get;
                match mask_layer s0 with
                | Some _ => create_new_mask
                | None => mret tt
                end;; show (Information "Loaded masks"))
               (fun r w' =>
                  match r with
                  | Ok _ => Inv (wd w')
                  | Exc => wp (show (Critical "Failed to load masks")) Post w'
                  end) w0) as Htail.
  { intros w0 HI0. wp_run; try done.
    eapply wp_mono; [by apply cursor_create_new_mask|].
    intros [[]|] w' HI'; by wp_run. }
  wp_step; [done|]. wp_step. wp_step.
  destruct f as [| |d]; [by wp_run..|]. wp_step. wp_step.
  destruct (doc_labels_config d) as [cfg|]; wp_step.
  all: wp_step; destruct (doc_masks d) as [masks|]; wp_step;
    try (by apply Htail);
    wp_step; eapply wp_mono; [by apply Hloop|];
    intros [[]|] w' HI'; [by apply Htail|by wp_run].
Qed.

Lemma cursor_perform (imwrite_ok : Np.ndarray → bool) (a : action) (s : widget) :
  Inv s → Inv (exec (perform imwrite_ok a) s).
Proof.
  intros HI.
  assert (∀ m : M unit,
            wp m (fun _ w' => Inv (wd w')) (mk_world s [] []) → Inv (exec m s))
    as Hkeep by (intros m Hm; by apply wp_exec in Hm).
  destruct a; simpl.
  - by apply Hkeep, cursor_load_video.
  - by apply Hkeep, cursor_create_new_mask.
  - apply Hkeep. unfold paint. by wp_run.
  - apply Hkeep. unfold on_mask_changed. by wp_run.
  - by apply Hkeep, cursor_navigate.
  - apply Hkeep. unfold copy_from_previous. wp_run; try done.
    eapply wp_mono; [by apply cursor_create_new_mask|].
    intros [[]|] w' HI'; by wp_run.
  - apply Hkeep. unfold copy_to_next. by wp_run.
  - apply Hkeep. unfold clear_current_mask. wp_run; try done.
    by apply cursor_create_new_mask.
  - apply Hkeep. unfold add_custom_label. by wp_run.
  - by rewrite save_masks_state.
  - by apply Hkeep, cursor_load_masks.
  - apply Hkeep. unfold load_label_config, json_load. by wp_run.
  - by rewrite export_state.
Qed.

End cursor_in_sessions.

(** X13: in every session, whatever the actions and their outcome, the
    frame slider starts at 0 and shows the frame cursor; with a video
    loaded, total_frames is the number of its frames, the slider ends at
    the last frame and the cursor is the index of a frame; without a video
    the cursor is 0. *)
Theorem cursor_follows_slider_in_sessions (imwrite_ok : Np.ndarray → bool)
    (actions : list action) :
  let s := after (perform imwrite_ok <$> actions) init in
  s_min (frame_slider s) = 0 ∧
  s_value (frame_slider s) = current_frame s ∧
  match current_video s with
  | Some v =>
      total_frames s = Z.of_nat (v_len v) ∧
      s_max (frame_slider s) = total_frames s - 1 ∧
      0 ≤ current_frame s < total_frames s
  | None =>
      total_frames s = 0 ∧ s_max (frame_slider s) = 0 ∧ current_frame s = 0
  end.
Proof.
  cbv zeta. change (cursor_ok (after (perform imwrite_ok <$> actions) init)).
  assert (cursor_ok init) as Hinit by (repeat split; done).
  revert Hinit. generalize init.
  induction actions as [|a actions IH]; intros s Hs; simpl; [done|].
  by apply IH, cursor_perform.
Qed.

(* --------------------------------------------------------------------- *)
(* Moving between frames                                                 *)
(* --------------------------------------------------------------------- *)

(** [create_new_mask] on a frame of the video, with a registry that has a
    colormap, returns and leaves the mask of the current frame shown. *)
Lemma create_new_mask_run (s : widget) (v : video)
    (sh : list message) (wr : list (string * payload)) :
  current_video s = Some v →
  0 ≤ current_frame s < Z.of_nat (v_len v) →
  is_Some (create_colormap (labels_config s)) →
  create_new_mask (mk_world s sh wr)
  = (Ok tt, mk_world (mask_shown (frame_shape v) s) sh wr).
Proof.
  intros Hv Hrange [rows Hrows].
  destruct (v_index_in_range v (current_frame s) Hrange) as [frame Hframe].
  pose proof (v_index_shape v _ frame Hframe) as Hshape.
  unfold create_new_mask, mask_shown, mbind, M_bind, get, lift, modify, mret, M_ret.
  cbn [wd shown written]. rewrite Hv, Hframe, Hshape.
  destruct (current_masks s !! current_frame s) as [m|]; cbn; by rewrite Hrows.
Qed.

Lemma change_frame_run (s : widget) (v : video) (x : Z)
    (sh : list message) (wr : list (string * payload)) :
  current_video s = Some v →
  0 ≤ x < Z.of_nat (v_len v) →
  is_Some (create_colormap (labels_config s)) →
  change_frame x (mk_world s sh wr)
  = (Ok tt, mk_world (mask_shown (frame_shape v) (set_frame x (written_back s))) sh wr).
Proof.
  intros Hv Hrange Hrows.
  unfold change_frame, written_back, mbind, M_bind, get, modify, mret, M_ret.
  cbn [wd shown written]. rewrite Hv.
  destruct (mask_layer s) as [l|]; cbn [wd shown written];
    by apply create_new_mask_run.
Qed.

Lemma set_value_run (s : widget) (v : video) (x : Z) :
  current_video s = Some v →
  total_frames s = Z.of_nat (v_len v) →
  cursor_ok s →
  0 ≤ x < total_frames s → x ≠ current_frame s →
  is_Some (create_colormap (labels_config s)) →
  run (set_value x) s = (Ok tt, mk_world (moved_to v x s) [] []).
Proof.
  intros Hv HT (Hmin & Hval & Hvid) Hx Hne Hrows. rewrite Hv in Hvid.
  destruct Hvid as (_ & Hmax & _).
  assert (bound (frame_slider s) x = x) as Hb by (unfold bound; lia).
  unfold run, set_value, mbind, M_bind, get. cbn [wd].
  rewrite Hb, bool_decide_eq_false_2 by congruence.
  unfold modify, try_except. cbn [wd shown written].
  rewrite (change_frame_run _ v); [| done | lia | done].
  unfold moved_to, written_back.
  destruct s as [? ? ? ? ? ? ? ? [l|] ? ?]; reflexivity.
Qed.
Lemma moved_to_frame (v : video) (x : Z) (s : widget) :
  current_frame (moved_to v x s) = x ∧
  frame_slider (moved_to v x s)
    = mk_slider (s_min (frame_slider s)) (s_max (frame_slider s)) x ∧
  current_video (moved_to v x s) = current_video s ∧
  total_frames (moved_to v x s) = total_frames s ∧
  labels_config (moved_to v x s) = labels_config s ∧
  current_label (moved_to v x s) = current_label s ∧
  brush_size (moved_to v x s) = brush_size s.
Proof.
  unfold moved_to, mask_shown, written_back.
  destruct s as [? ? ? ? ? ? ? ? [l|] ? ?]; cbn;
    by destruct (_ !! x).
Qed.

Lemma moved_to_store (v : video) (x : Z) (s : widget) :
  current_masks (moved_to v x s)
  = match persisted s !! x with
    | Some _ => persisted s
    | None => <[x := Np.zeros (frame_shape v)]> (persisted s)
    end.
Proof.
  unfold moved_to, mask_shown, written_back, persisted.
  destruct s as [? ? ? ? ? ? ? ? [l|] ? ?]; cbn;
    by destruct (_ !! x).
Qed.

Lemma moved_to_layer (v : video) (x : Z) (s : widget) :
  ∃ l', mask_layer (moved_to v x s) = Some l' ∧
        current_masks (moved_to v x s) !! x = Some (layer_data l') ∧
        layer_data l' = default (Np.zeros (frame_shape v)) (persisted s !! x) ∧
        selected_label l' = current_label s ∧
        layer_brush_size l' = brush_size s.
Proof.
  unfold moved_to, mask_shown, written_back, persisted.
  destruct s as [? ? ? ? ? ? ? ? [l|] ? ?]; cbn;
    destruct (_ !! x) eqn:Hx; cbn; eexists; repeat split; try done;
    by rewrite ?Hx, ?lookup_insert_eq.
Qed.

Lemma set_value_moved (s : widget) (v : video) (x : Z) :
  current_video s = Some v → cursor_ok s →
  0 ≤ x < total_frames s → x ≠ current_frame s →
  is_Some (create_colormap (labels_config s)) →
  exec (set_value x) s = moved_to v x s ∧ cursor_ok (moved_to v x s).
Proof.
  intros Hv Hok Hx Hne Hrows.
  pose proof Hok as (Hmin & Hval & Hvid). rewrite Hv in Hvid.
  destruct Hvid as (HT & Hmax & Hcur).
  split; [unfold exec; by rewrite (set_value_run s v x)|].
  destruct (moved_to_frame v x s) as (Hf & Hs & Hv' & HT' & Hl' & _).
  unfold cursor_ok. rewrite Hv', Hv, HT', Hf, Hs. cbn. repeat split; try done; lia.
Qed.

Lemma loaded3_accepted : layer_accepted loaded3.
Proof.
  split; [eexists; split; reflexivity|]. split; [reflexivity|]. split.
  - split; [reflexivity|]. split.
    + intros i m Hm. change (current_masks loaded3) with
        ({[ 0 := Np.zeros [1; 2]%nat ]} : gmap Z Np.ndarray) in Hm.
      by apply lookup_singleton_Some in Hm as [_ <-].
    + by intros l [= <-].
  - intros v [= <-]. split; vm_compute; lia.
Qed.

Lemma painted3_accepted : layer_accepted painted3.
Proof.
  split; [eexists; split; reflexivity|]. split; [reflexivity|]. split.
  - split; [reflexivity|]. split.
    + intros i m Hm. rewrite painted3_store in Hm.
      by apply lookup_singleton_Some in Hm as [_ <-].
    + by intros l [= <-].
  - intros v [= <-]. split; vm_compute; lia.
Qed.

(** X14: with a video loaded whose frames have rows and columns, masks of
    the frame shape, a registry whose colormap napari takes for the layer
    and a current label in the range of uint16, moving the
    slider to another frame makes that frame the current one: the mask
    that was on the layer is stored for the frame left, the masks of the
    other frames stay as they are, and the new layer shows the stored mask
    of the frame reached, a zero mask of the frame shape when it had none,
    with the current label and brush size. *)
Theorem slider_move_shows_frame (s : widget) (v : video) (x : Z) :
  current_video s = Some v → cursor_ok s →
  0 ≤ x < total_frames s → x ≠ current_frame s →
  layer_accepted s →
  let s' := exec (set_value x) s in
  current_frame s' = x ∧ s_value (frame_slider s') = x ∧ cursor_ok s' ∧
  (∀ l, mask_layer s = Some l →
        current_masks s' !! current_frame s = Some (layer_data l)) ∧
  (∀ k, k ≠ x → k ≠ current_frame s → current_masks s' !! k = current_masks s !! k) ∧
  ∃ l', mask_layer s' = Some l' ∧
        current_masks s' !! x = Some (layer_data l') ∧
        layer_data l' = default (Np.zeros (frame_shape v)) (current_masks s !! x) ∧
        selected_label l' = current_label s ∧
        layer_brush_size l' = brush_size s.
Proof.
  intros Hv Hok Hx Hne Hacc s'.
  assert (is_Some (create_colormap (labels_config s))) as Hrows
    by (destruct Hacc as [(rows & Hr & _) _]; by eexists).
  destruct (set_value_moved s v x Hv Hok Hx Hne Hrows) as [Hs' Hok'].
  unfold s'. rewrite Hs'. clear s' Hs'.
  destruct (moved_to_frame v x s) as (Hf & Hs & _).
  assert (persisted s !! x = current_masks s !! x) as Hpx.
  { unfold persisted. destruct (mask_layer s); [|done]. by rewrite lookup_insert_ne. }
  split; [done|]. split; [by rewrite Hs|]. split; [done|].
  split.
  { intros l Hl. rewrite moved_to_store.
    assert (persisted s !! current_frame s = Some (layer_data l)) as Hp
      by (unfold persisted; by rewrite Hl, lookup_insert_eq).
    destruct (persisted s !! x); [done|by rewrite lookup_insert_ne]. }
  split.
  { intros k Hkx Hkc. rewrite moved_to_store.
    assert (persisted s !! k = current_masks s !! k) as Hp.
    { unfold persisted. destruct (mask_layer s); [|done]. by rewrite lookup_insert_ne. }
    destruct (persisted s !! x); [done|by rewrite lookup_insert_ne]. }
  destruct (moved_to_layer v x s) as (l' & ? & ? & ? & ? & ?).
  exists l'. by rewrite <- Hpx.
Qed.

Lemma slider_move_shows_frame_witness :
  current_frame (exec (set_value 2) painted3) = 2 ∧
  current_masks (exec (set_value 2) painted3) !! 0
    = Some (Np.mk_array [1; 2]%nat [0; 1]) ∧
  ∃ l', mask_layer (exec (set_value 2) painted3) = Some l' ∧
        layer_data l' = Np.zeros [1; 2]%nat.
Proof.
  destruct (slider_move_shows_frame painted3 clip3 2) as (H1 & _ & _ & H2 & _ & H3).
  - reflexivity.
  - repeat split; done.
  - by vm_compute.
  - by vm_compute.
  - exact painted3_accepted.
  - split; [exact H1|]. split.
    + apply (H2 (mk_layer (Np.mk_array [1; 2]%nat [0; 1]) true 1 10)). reflexivity.
    + destruct H3 as (l' & Hl' & _ & Hd & _). exists l'. split; [exact Hl'|exact Hd].
Defined.

Lemma written_back_twice (s : widget) : written_back (written_back s) = written_back s.
Proof.
  unfold written_back, store_current, unshare.
  destruct s as [? ? ? ? ? ? ? ? [l|] ? ?]; cbn; [|done].
  by rewrite insert_insert_eq.
Qed.

Lemma moved_to_written_back (v : video) (x : Z) (s : widget) :
  moved_to v x (written_back s) = moved_to v x s.
Proof.
  unfold moved_to. rewrite written_back_twice.
  by destruct s as [? ? ? ? ? ? ? ? [l|] ? ?].
Qed.

Lemma button_step_run (s : widget) (v : video) (x : Z) :
  current_video s = Some v → cursor_ok s →
  0 ≤ x < total_frames s → x ≠ current_frame s →
  is_Some (create_colormap (labels_config s)) →
  exec (match mask_layer s with
        | Some l => modify (store_current (Np.copy (layer_data l)))
        | None => mret tt
        end;; set_value x) s
  = exec (set_value x) s.
Proof.
  intros Hv Hok Hx Hne Hrows.
  destruct (set_value_moved s v x Hv Hok Hx Hne Hrows) as [-> _].
  rewrite <- moved_to_written_back.
  assert (cursor_ok (written_back s) ∧ current_video (written_back s) = Some v ∧
          total_frames (written_back s) = total_frames s ∧
          current_frame (written_back s) = current_frame s ∧
          labels_config (written_back s) = labels_config s) as (Hok' & Hv' & HT' & Hf' & Hl').
  { unfold written_back. destruct (mask_layer s); [|done].
    split; [eapply cursor_keep; [..|exact Hok]; done|]. by repeat split. }
  destruct (set_value_moved (written_back s) v x) as [<- _];
    [done|done|by rewrite HT'|by rewrite Hf'|by rewrite Hl'|].
  unfold exec, run, mbind, M_bind, written_back.
  by destruct (mask_layer s).
Qed.

(** X15: with a video loaded and a registry that has a colormap, what
    update_frame_display enables is what moves: when the Previous button is
    enabled, prev_frame does what moving the slider one frame back does and
    the cursor goes down by one; when it is disabled the cursor is on the
    first frame and prev_frame changes nothing. The same holds for the Next
    button, next_frame, one frame forward and the last frame. *)
Theorem buttons_step_one_frame (s : widget) (v : video) :
  current_video s = Some v → cursor_ok s →
  is_Some (create_colormap (labels_config s)) →
  (if prev_frame_btn (update_frame_display s)
   then exec prev_frame s = exec (set_value (current_frame s - 1)) s ∧
        current_frame (exec prev_frame s) = current_frame s - 1
   else exec prev_frame s = s ∧ current_frame s = 0) ∧
  (if next_frame_btn (update_frame_display s)
   then exec next_frame s = exec (set_value (current_frame s + 1)) s ∧
        current_frame (exec next_frame s) = current_frame s + 1
   else exec next_frame s = s ∧ current_frame s = total_frames s - 1).
Proof.
  intros Hv Hok Hrows.
  pose proof Hok as (Hmin & Hval & Hvid). rewrite Hv in Hvid.
  destruct Hvid as (HT & Hmax & Hcur).
  unfold update_frame_display. cbn [prev_frame_btn next_frame_btn]. split.
  - destruct (0 <? current_frame s) eqn:Hlt.
    + apply Z.ltb_lt in Hlt.
      assert (exec prev_frame s = exec (set_value (current_frame s - 1)) s) as Heq.
      { rewrite <- (button_step_run s v) by (done || lia).
        unfold exec, run, prev_frame, mbind, M_bind, get. cbn [wd].
        by rewrite (proj2 (Z.ltb_lt _ _) Hlt). }
      split; [done|]. rewrite Heq.
      destruct (set_value_moved s v (current_frame s - 1)) as [-> _];
        [done|done|lia|lia|done|].
      apply moved_to_frame.
    + apply Z.ltb_ge in Hlt. split; [|lia].
      unfold exec, run, prev_frame, mbind, M_bind, get. cbn [wd].
      by rewrite (proj2 (Z.ltb_ge _ _) Hlt).
  - destruct (current_frame s <? total_frames s - 1) eqn:Hlt.
    + apply Z.ltb_lt in Hlt.
      assert (exec next_frame s = exec (set_value (current_frame s + 1)) s) as Heq.
      { rewrite <- (button_step_run s v) by (done || lia).
        unfold exec, run, next_frame, mbind, M_bind, get. cbn [wd].
        by rewrite (proj2 (Z.ltb_lt _ _) Hlt). }
      split; [done|]. rewrite Heq.
      destruct (set_value_moved s v (current_frame s + 1)) as [-> _];
        [done|done|lia|lia|done|].
      apply moved_to_frame.
    + apply Z.ltb_ge in Hlt. split; [|lia].
      unfold exec, run, next_frame, mbind, M_bind, get. cbn [wd].
      by rewrite (proj2 (Z.ltb_ge _ _) Hlt).
Qed.

Lemma buttons_step_one_frame_witness :
  prev_frame_btn (update_frame_display painted3) = false ∧
  next_frame_btn (update_frame_display painted3) = true ∧
  exec prev_frame painted3 = painted3 ∧
  current_frame (exec next_frame painted3) = 1.
Proof.
  destruct (buttons_step_one_frame painted3 clip3) as [[H1 _] [_ H2]].
  - reflexivity.
  - repeat split; done.
  - by eexists.
  - split; [reflexivity|]. split; [reflexivity|]. split; [exact H1|exact H2].
Defined.

(** X16: with a video loaded whose frames have rows and columns, masks of
    the frame shape, a registry whose colormap napari takes for the layer
    and a current label in the range of uint16, the mask on the
    layer survives a visit to another frame: after the slider moved
    to another frame and back, the cursor is where it was, the store holds
    for that frame the mask that was on the layer, and the layer shows it
    again. *)
Theorem mask_survives_navigation (s : widget) (v : video) (l : labels_layer) (x : Z) :
  current_video s = Some v → cursor_ok s →
  layer_accepted s →
  mask_layer s = Some l →
  0 ≤ x < total_frames s → x ≠ current_frame s →
  let s' := exec (set_value (current_frame s)) (exec (set_value x) s) in
  current_frame s' = current_frame s ∧
  current_masks s' !! current_frame s = Some (layer_data l) ∧
  ∃ l', mask_layer s' = Some l' ∧ layer_data l' = layer_data l.
Proof.
  intros Hv Hok Hacc Hl Hx Hne s'.
  assert (is_Some (create_colormap (labels_config s))) as Hrows
    by (destruct Hacc as [(rows & Hr & _) _]; by eexists).
  pose proof Hok as (Hmin & Hval & Hvid). rewrite Hv in Hvid.
  destruct Hvid as (HT & Hmax & Hcur).
  destruct (set_value_moved s v x Hv Hok Hx Hne Hrows) as [Hs1 Hok1].
  destruct (moved_to_frame v x s) as (Hf1 & _ & Hv1 & HT1 & Hl1 & _).
  set (s1 := moved_to v x s) in *.
  destruct (set_value_moved s1 v (current_frame s)) as [Hs2 _];
    [by rewrite Hv1|done|by rewrite HT1|by rewrite Hf1|by rewrite Hl1|].
  unfold s'. rewrite Hs1. fold s1. rewrite Hs2. clear s' Hs1 Hs2.
  assert (current_masks s1 !! current_frame s = Some (layer_data l)) as Hstored.
  { unfold s1. rewrite moved_to_store.
    assert (persisted s !! current_frame s = Some (layer_data l)) as Hp
      by (unfold persisted; by rewrite Hl, lookup_insert_eq).
    destruct (persisted s !! x); [done|by rewrite lookup_insert_ne]. }
  assert (persisted s1 !! current_frame s = Some (layer_data l)) as Hp1.
  { unfold persisted. destruct (mask_layer s1); [|done].
    rewrite lookup_insert_ne; [done|]. rewrite Hf1. done. }
  split; [apply moved_to_frame|]. split.
  { rewrite moved_to_store. by rewrite Hp1. }
  destruct (moved_to_layer v (current_frame s) s1) as (l' & Hl' & _ & Hd & _).
  exists l'. split; [done|]. by rewrite Hd, Hp1.
Qed.

Lemma mask_survives_navigation_witness :
  current_frame (exec (set_value 0) (exec (set_value 2) painted3)) = 0 ∧
  current_masks (exec (set_value 0) (exec (set_value 2) painted3)) !! 0
    = Some (Np.mk_array [1; 2]%nat [0; 1]) ∧
  ∃ l', mask_layer (exec (set_value 0) (exec (set_value 2) painted3)) = Some l' ∧
        layer_data l' = Np.mk_array [1; 2]%nat [0; 1].
Proof.
  apply (mask_survives_navigation painted3 clip3
           (mk_layer (Np.mk_array [1; 2]%nat [0; 1]) true 1 10) 2).
  - reflexivity.
  - repeat split; done.
  - exact painted3_accepted.
  - reflexivity.
  - by vm_compute.
  - by vm_compute.
Defined.

(* --------------------------------------------------------------------- *)
(* Copying and clearing masks                                            *)
(* --------------------------------------------------------------------- *)

(** X17: with a video loaded whose frames have rows and columns, masks of
    the frame shape, a registry whose colormap napari takes for the layer
    and a current label in the range of uint16,
    copy_from_previous on a frame after the first, whose previous frame has
    a stored mask, stores that mask for the current frame, leaves the masks
    of the other frames, and shows it on a new layer; without a stored mask
    for the previous frame, or on the first frame, it only warns.
    copy_to_next on a frame before the last, with a stored mask for the
    current frame, stores that mask for the next frame and leaves the layer
    and the cursor; next_frame then shows it. Without a stored mask for the
    current frame, or on the last frame, it only warns. *)
Theorem masks_copied_between_frames (s : widget) (v : video) :
  current_video s = Some v → cursor_ok s →
  layer_accepted s →
  let prev := snd (run copy_from_previous s) in
  let next := snd (run copy_to_next s) in
  (∀ m, 0 < current_frame s → current_masks s !! (current_frame s - 1) = Some m →
        shown prev = [Information "Copied mask from previous frame"] ∧
        current_masks (wd prev) = <[current_frame s := m]> (current_masks s) ∧
        current_frame (wd prev) = current_frame s ∧
        ∃ l', mask_layer (wd prev) = Some l' ∧ layer_data l' = m) ∧
  (0 < current_frame s → current_masks s !! (current_frame s - 1) = None →
   shown prev = [Warning "No mask found in previous frame"] ∧ wd prev = s) ∧
  (current_frame s = 0 →
   shown prev = [Warning "Already at first frame"] ∧ wd prev = s) ∧
  (∀ m, current_frame s < total_frames s - 1 →
        current_masks s !! current_frame s = Some m →
        shown next = [Information "Copied mask to next frame"] ∧
        wd next = set_masks (<[current_frame s + 1 := m]> (current_masks s)) s ∧
        current_frame (exec next_frame (wd next)) = current_frame s + 1 ∧
        ∃ l', mask_layer (exec next_frame (wd next)) = Some l' ∧ layer_data l' = m) ∧
  (current_frame s < total_frames s - 1 → current_masks s !! current_frame s = None →
   shown next = [Warning "No mask found in current frame"] ∧ wd next = s) ∧
  (current_frame s = total_frames s - 1 →
   shown next = [Warning "Already at last frame"] ∧ wd next = s).
Proof.
  intros Hv Hok Hacc prev next.
  assert (is_Some (create_colormap (labels_config s))) as Hrows
    by (destruct Hacc as [(rows & Hr & _) _]; by eexists).
  pose proof Hok as (Hmin & Hval & Hvid). rewrite Hv in Hvid.
  destruct Hvid as (HT & Hmax & Hcur).
  unfold prev, next, run, copy_from_previous, copy_to_next, mbind, M_bind, get.
  cbn [wd]. clear prev next.
  split; [|split; [|split; [|split; [|split]]]].
  - intros m Hlt Hm. rewrite (proj2 (Z.ltb_lt _ _) Hlt), Hm.
    unfold modify, show. cbn [wd shown written fst snd].
    rewrite (create_new_mask_run _ v); [| done | cbn [current_frame store_current set_layer set_masks]; lia | done].
    cbn [wd shown written fst snd]. unfold mask_shown, store_current.
    destruct s as [? ? ? ? ? ? ? ? [l|] ? ?]; cbn in *;
      rewrite lookup_insert_eq; cbn; repeat split; try done; by eexists.
  - intros Hlt Hm. by rewrite (proj2 (Z.ltb_lt _ _) Hlt), Hm.
  - intros H0. by rewrite H0.
  - intros m Hlt Hm. rewrite (proj2 (Z.ltb_lt _ _) Hlt), Hm.
    unfold modify, show. cbn [wd shown written fst snd].
    split; [done|]. split; [done|].
    set (s1 := set_masks _ s).
    assert (cursor_ok s1) as Hok1 by (eapply cursor_keep; [..|exact Hok]; done).
    assert (exec next_frame s1 = moved_to v (current_frame s + 1) s1) as ->.
    { destruct (set_value_moved s1 v (current_frame s + 1)) as [<- _];
        [done|done|unfold s1; cbn [total_frames current_frame set_masks]; lia..|done|].
      rewrite <- (button_step_run s1 v (current_frame s + 1))
        by (done || (unfold s1; cbn [total_frames current_frame set_masks]; lia)).
      unfold exec, run, next_frame, mbind, M_bind, get. cbn [wd].
      change (current_frame s1) with (current_frame s).
      change (total_frames s1) with (total_frames s).
      by rewrite (proj2 (Z.ltb_lt _ _) Hlt). }
    split; [apply moved_to_frame|].
    destruct (moved_to_layer v (current_frame s + 1) s1) as (l' & Hl' & _ & Hd & _).
    exists l'. split; [done|]. rewrite Hd.
    assert (persisted s1 !! (current_frame s + 1) = Some m) as ->; [|done].
    unfold persisted, s1. cbn. destruct (mask_layer s).
    + rewrite lookup_insert_ne by lia. by rewrite lookup_insert_eq.
    + by rewrite lookup_insert_eq.
  - intros Hlt Hm. by rewrite (proj2 (Z.ltb_lt _ _) Hlt), Hm.
  - intros Hlast. rewrite (proj2 (Z.ltb_ge _ _)) by lia. done.
Qed.

Lemma masks_copied_between_frames_witness :
  shown (snd (run copy_to_next painted3)) = [Information "Copied mask to next frame"] ∧
  current_frame (exec next_frame (wd (snd (run copy_to_next painted3)))) = 1 ∧
  ∃ l', mask_layer (exec next_frame (wd (snd (run copy_to_next painted3)))) = Some l' ∧
        layer_data l' = Np.mk_array [1; 2]%nat [0; 1].
Proof.
  destruct (masks_copied_between_frames painted3 clip3) as (_ & _ & _ & H & _).
  - reflexivity.
  - repeat split; done.
  - exact painted3_accepted.
  - destruct (H (Np.mk_array [1; 2]%nat [0; 1])) as (H1 & _ & H2 & H3).
    + by vm_compute.
    + reflexivity.
    + split; [exact H1|]. split; [exact H2|exact H3].
Defined.

(** X18: with a video loaded whose frames have rows and columns, masks of
    the frame shape, a registry whose colormap napari takes for the layer
    and a current label in the range of uint16,
    clear_current_mask, once confirmed, stores a zero mask of the frame
    shape for the current frame, leaves the masks of the other frames and
    shows the zero mask on a new layer; when the question is answered with
    no, or without a video, nothing changes. *)
Theorem current_mask_cleared (s : widget) (v : video) :
  current_video s = Some v → cursor_ok s →
  layer_accepted s →
  let s' := exec (clear_current_mask true) s in
  current_masks s' = <[current_frame s := Np.zeros (frame_shape v)]> (current_masks s) ∧
  current_frame s' = current_frame s ∧
  (∃ l', mask_layer s' = Some l' ∧ layer_data l' = Np.zeros (frame_shape v)) ∧
  exec (clear_current_mask false) s = s ∧
  (∀ reply, exec (clear_current_mask reply) init = init).
Proof.
  intros Hv Hok Hacc s'.
  assert (is_Some (create_colormap (labels_config s))) as Hrows
    by (destruct Hacc as [(rows & Hr & _) _]; by eexists).
  pose proof Hok as (Hmin & Hval & Hvid). rewrite Hv in Hvid.
  destruct Hvid as (HT & Hmax & Hcur).
  destruct (v_index_in_range v (current_frame s)) as [frame Hframe]; [lia|].
  pose proof (v_index_shape v _ frame Hframe) as Hshape.
  split; [|split; [|split; [|split]]].
  4:{ unfold exec, run, clear_current_mask, mbind, M_bind, get. cbn [wd].
      by rewrite Hv. }
  4:{ by intros []. }
  all: unfold s', exec, run, clear_current_mask, mbind, M_bind, get, when, lift, modify;
    cbn [wd]; rewrite Hv; unfold mbind, M_bind, mret, M_ret; rewrite Hframe, Hshape;
    cbn [wd shown written fst snd];
    (rewrite (create_new_mask_run _ v);
       [| done | cbn [current_frame store_current set_layer set_masks]; lia | done]);
    cbn [wd shown written fst snd]; unfold mask_shown, store_current;
    destruct s as [? ? ? ? ? ? ? ? [l|] ? ?]; cbn in *;
    rewrite lookup_insert_eq; cbn; try done; by eexists.
Qed.

Lemma current_mask_cleared_witness :
  current_masks (exec (clear_current_mask true) painted3)
    = <[0 := Np.zeros [1; 2]%nat]> (current_masks painted3) ∧
  ∃ l', mask_layer (exec (clear_current_mask true) painted3) = Some l' ∧
        layer_data l' = Np.zeros [1; 2]%nat.
Proof.
  destruct (current_mask_cleared painted3 clip3) as (H1 & _ & H2 & _).
  - reflexivity.
  - repeat split; done.
  - exact painted3_accepted.
  - split; [exact H1|exact H2].
Defined.

(* --------------------------------------------------------------------- *)
(* Statistics: the label distribution                                    *)
(* --------------------------------------------------------------------- *)

Lemma counts_insert (c : gmap Z nat) (z : Z) :
  sum_list_with snd (map_to_list (<[z := S (default 0%nat (c !! z))]> c))
  = S (sum_list_with snd (map_to_list c)).
Proof.
  destruct (c !! z) as [n|] eqn:Hz; cbn [default].
  - rewrite <- insert_delete_eq.
    rewrite map_to_list_insert by apply lookup_delete_eq.
    rewrite <- (map_to_list_delete c z n Hz). cbn. lia.
  - rewrite map_to_list_insert by done. cbn. lia.
Qed.

Lemma count_values_sum (d : list Z) (c : gmap Z nat) :
  sum_list_with snd (map_to_list (count_values d c))
  = (sum_list_with snd (map_to_list c) + length d)%nat.
Proof.
  unfold count_values. revert c. induction d as [|z d IH]; intros c; cbn [foldl length].
  - lia.
  - rewrite IH, counts_insert. lia.
Qed.

Lemma label_counts_sum (l : list (Z * Np.ndarray)) :
  sum_list_with snd
    (map_to_list (foldr (fun p acc => count_values (Np.data (snd p)) acc) ∅ l))
  = sum_list_with (fun p => length (Np.data (snd p))) l.
Proof.
  induction l as [|p l IH]; cbn [foldr sum_list_with].
  - by rewrite map_to_list_empty.
  - rewrite count_values_sum, IH. lia.
Qed.

Lemma label_name_of_label (cfg : registry) (name : string) (e : label_entry) :
  NoDup (reg_values cfg) → (name, e) ∈ cfg → label_name_of cfg (value e) = name.
Proof.
  unfold label_name_of. induction cfg as [|p cfg IH]; intros Hnd Hin.
  - by apply elem_of_nil in Hin.
  - unfold reg_values in Hnd. cbn [map] in Hnd. apply NoDup_cons in Hnd as [Hp Hnd].
    cbn [find]. apply elem_of_cons in Hin as [<-|Hin].
    + by rewrite bool_decide_eq_true_2.
    + rewrite bool_decide_eq_false_2; [by apply IH|].
      intros Heq. apply Hp. rewrite Heq. change (map ?f ?l) with (f <$> l).
      apply list_elem_of_fmap. by exists (name, e).
Qed.

Lemma label_name_of_unknown (cfg : registry) (v : Z) :
  v ∉ reg_values cfg → label_name_of cfg v = "unknown"%string.
Proof.
  unfold label_name_of. induction cfg as [|p cfg IH]; intros Hv; [done|].
  unfold reg_values in Hv. cbn [map] in Hv. apply not_elem_of_cons in Hv as [Hne Hv].
  cbn [find]. rewrite bool_decide_eq_false_2 by done. by apply IH.
Qed.

(** X19: the label distribution of update_statistics accounts for every
    pixel once: over a store that is not empty and whose masks hold as many
    elements as their shape says, the pixel counts of its lines add up to
    the total of labelled pixels. A value is shown under the name of the
    label that has it when the label values are pairwise distinct, and as
    unknown when no label has it. *)
Theorem label_distribution_counts_pixels (s : widget) (st : statistics) :
  (∀ i m, current_masks s !! i = Some m →
          length (Np.data m) = Np.size_of (Np.shape m)) →
  update_statistics s = Some st →
  sum_list_with snd (label_distribution s) = total_pixels st ∧
  frames_with_masks st = size (current_masks s) ∧
  (NoDup (reg_values (labels_config s)) →
   ∀ name e, (name, e) ∈ labels_config s →
             label_name_of (labels_config s) (value e) = name) ∧
  (∀ v, v ∉ reg_values (labels_config s) →
        label_name_of (labels_config s) v = "unknown"%string).
Proof.
  intros Hwf Hst. unfold update_statistics in Hst.
  case_bool_decide; [done|]. injection Hst as <-. cbn [total_pixels frames_with_masks].
  split; [|split; [done|split]].
  - unfold label_distribution, label_counts.
    assert (∀ l : list (Z * nat),
              sum_list_with snd
                (map (fun p => (label_name_of (labels_config s) (fst p), snd p)) l)
              = sum_list_with snd l) as Hnames.
    { induction l as [|p l IH]; cbn; [done|]. by rewrite IH. }
    rewrite Hnames, merge_sort_Permutation.
    rewrite !map_fold_foldr.
    assert (foldr (uncurry (fun (_ : Z) (mask : Np.ndarray) acc =>
                              count_values (Np.data mask) acc)) ∅
                  (map_to_list (current_masks s))
            = foldr (fun p acc => count_values (Np.data (snd p)) acc) ∅
                    (map_to_list (current_masks s))) as ->.
    { apply foldr_ext; [|done..]. by intros [] ?. }
    rewrite label_counts_sum.
    assert (∀ p, p ∈ map_to_list (current_masks s) →
                 length (Np.data (snd p)) = Np.size_of (Np.shape (snd p))) as Hl.
    { intros [k m] Hin%elem_of_map_to_list. by eapply Hwf. }
    induction (map_to_list (current_masks s)) as [|p l IH]; cbn; [done|].
    rewrite IH by (intros q Hq; apply Hl; by right).
    rewrite (Hl p) by by left. destruct p. cbn. lia.
  - intros Hnd name e Hin. by apply label_name_of_label.
  - apply label_name_of_unknown.
Qed.

Lemma label_distribution_counts_pixels_witness :
  sum_list_with snd (label_distribution painted3) = 2%nat ∧
  label_distribution painted3
  = [("background"%string, 1%nat); ("metastatic_lymph_node"%string, 1%nat)].
Proof.
  destruct (label_distribution_counts_pixels painted3 (mk_statistics 1 3 2)) as [H _].
  - rewrite painted3_store. by intros i m [_ <-]%lookup_singleton_Some.
  - reflexivity.
  - split; [exact H|reflexivity].
Defined.

(* --------------------------------------------------------------------- *)
(* Choosing a label and painting with it                                 *)
(* --------------------------------------------------------------------- *)

Lemma painted_offsets (v : Z) (offsets : list nat) (d : list Z) :
  length (foldr (fun i d => <[i := v]> d) d offsets) = length d ∧
  (∀ i, i ∈ offsets → (i < length d)%nat →
        foldr (fun i d => <[i := v]> d) d offsets !! i = Some v) ∧
  (∀ i, i ∉ offsets → foldr (fun i d => <[i := v]> d) d offsets !! i = d !! i).
Proof.
  induction offsets as [|o offsets (IHl & IHin & IHout)]; cbn [foldr].
  - split; [done|]. split; [|done]. intros i Hi. by apply elem_of_nil in Hi.
  - split; [by rewrite length_insert|]. split.
    + intros i Hi Hlt. destruct (decide (i = o)) as [->|Hne].
      * apply list_lookup_insert_eq. by rewrite IHl.
      * rewrite list_lookup_insert_ne by done.
        apply elem_of_cons in Hi as [?|Hi]; [done|]. by apply IHin.
    + intros i Hi. apply not_elem_of_cons in Hi as [Hne Hi].
      rewrite list_lookup_insert_ne by done. by apply IHout.
Qed.

Lemma reg_lookup_elem (cfg : registry) (name : string) (e : label_entry) :
  reg_lookup name cfg = Some e → (name, e) ∈ cfg.
Proof.
  unfold reg_lookup. induction cfg as [|[n e'] cfg IH]; [done|].
  cbn [find fst]. case_bool_decide as Hn.
  - intros [= <-]. subst n. by left.
  - intros H. right. by apply IH.
Qed.

(** X20: update_label_combo offers every label name of the registry but
    background, and only those. change_current_label with the name of a
    label whose value is in the range of uint16 makes that value the
    current label and the selected label of the mask layer, and leaves the
    masks; a brush stroke then writes that value at the painted positions
    of the layer and leaves the other positions. With the name of a label
    whose value is outside that range, current_label is assigned, the
    layer refuses the label and keeps the one it had, and the exception
    leaves the slot. With a name that is not in the registry nothing
    changes. *)
Theorem chosen_label_is_painted (s : widget) (name : string) (l : labels_layer)
    (offsets : list nat) :
  mask_layer s = Some l →
  (∀ n, n ∈ update_label_combo (labels_config s)
        ↔ n ≠ "background"%string ∧ is_Some (reg_lookup n (labels_config s))) ∧
  (reg_lookup name (labels_config s) = None →
   exec (change_current_label name) s = s) ∧
  (∀ e, reg_lookup name (labels_config s) = Some e →
        Np.is_uint16 (value e) = true →
        let s' := exec (change_current_label name) s in
        (name, e) ∈ labels_config s ∧
        raised (run (change_current_label name) s) = false ∧
        current_label s' = value e ∧
        current_masks s' = current_masks s ∧
        mask_layer s' = Some (mk_layer (layer_data l) (layer_shared l) (value e)
                                       (layer_brush_size l)) ∧
        ∃ l', mask_layer (exec (paint offsets) s') = Some l' ∧
              Np.shape (layer_data l') = Np.shape (layer_data l) ∧
              (∀ i, i ∈ offsets → (i < length (Np.data (layer_data l)))%nat →
                    Np.data (layer_data l') !! i = Some (value e)) ∧
              (∀ i, i ∉ offsets →
                    Np.data (layer_data l') !! i = Np.data (layer_data l) !! i)) ∧
  (∀ e, reg_lookup name (labels_config s) = Some e →
        Np.is_uint16 (value e) = false →
        raised (run (change_current_label name) s) = true ∧
        exec (change_current_label name) s = set_current_label (value e) s).
Proof.
  intros Hl. split; [|split; [|split]].
  - intros n. unfold update_label_combo. rewrite list_elem_of_filter.
    change (map ?f ?l) with (f <$> l).
    assert (n ∈ (labels_config s).*1 ↔ is_Some (reg_lookup n (labels_config s))) as ->; [|done].
    destruct (reg_lookup n (labels_config s)) as [e|] eqn:Hn.
    + split; [by eexists|]. intros _. apply list_elem_of_fmap.
      exists (n, e). split; [done|]. by apply reg_lookup_elem.
    + apply reg_lookup_None in Hn. split; [done|]. by intros [? ?].
  - intros Hn. unfold exec, run, change_current_label, mbind, M_bind, get.
    cbn [wd]. by rewrite Hn.
  - intros e He Hrange s'.
    assert (run (change_current_label name) s
            = (Ok tt,
               mk_world
                 (set_layer (Some (mk_layer (layer_data l) (layer_shared l) (value e)
                                            (layer_brush_size l)))
                    (set_current_label (value e) s)) [] [])) as Hrun.
    { unfold run, change_current_label, mbind, M_bind, get, modify.
      cbn [wd]. rewrite He. cbn [wd]. by rewrite Hl, Hrange. }
    unfold s', exec. rewrite Hrun. cbn [snd wd]. clear s'.
    split; [by apply reg_lookup_elem|]. split; [done|].
    split; [done|]. split; [done|]. split; [done|].
    assert (value e mod 65536 = value e) as Hmod.
    { unfold Np.is_uint16 in Hrange. apply Z.mod_small. lia. }
    destruct (painted_offsets (value e) offsets (Np.data (layer_data l)))
      as (_ & Hin & Hout).
    unfold run, paint, mbind, M_bind, get, modify, when.
    cbn [wd mask_layer set_layer set_current_label selected_label layer_data
         layer_shared layer_brush_size]. rewrite Hmod.
    destruct (layer_shared l); cbn; eexists; (split; [reflexivity|]); by cbn.
  - intros e He Hrange.
    unfold exec, raised, run, change_current_label, mbind, M_bind, get, modify, raise.
    cbn [wd]. rewrite He. cbn [wd]. by rewrite Hl, Hrange.
Qed.

Lemma chosen_label_is_painted_witness :
  ("clean_lymph_node"%string, mk_label 2 (RGBA 0 255 0 255)) ∈ labels_config loaded3 ∧
  current_label (exec (change_current_label "clean_lymph_node") loaded3) = 2 ∧
  ∃ l', mask_layer (exec (paint [0%nat]) (exec (change_current_label "clean_lymph_node")
                                              loaded3)) = Some l' ∧
        Np.data (layer_data l') !! 0%nat = Some 2.
Proof.
  destruct (chosen_label_is_painted loaded3 "clean_lymph_node"
              (mk_layer (Np.zeros [1; 2]%nat) true 1 10) [0%nat]) as (_ & _ & H).
  - reflexivity.
  - destruct H as [H _].
    destruct (H (mk_label 2 (RGBA 0 255 0 255)))
      as (H1 & _ & H2 & _ & _ & l' & Hl' & _ & H3 & _).
    + reflexivity.
    + reflexivity.
    + split; [exact H1|]. split; [exact H2|]. exists l'. split; [exact Hl'|].
      apply H3; [by left|cbn; lia].
Defined.

(* --------------------------------------------------------------------- *)
(* The labels list and the colour of a label                             *)
(* --------------------------------------------------------------------- *)

Lemma prefix_app_split (p a u : string) :
  String.prefix p (a +:+ u) = true →
  String.prefix p a = true ∨
  ∃ p2, p = a +:+ p2 ∧ p2 ≠ ""%string ∧ String.prefix p2 u = true.
Proof.
  revert a. induction p as [|c p IH]; intros a.
  - intros _. left. by destruct a.
  - destruct a as [|d a].
    + intros H. right. exists (String c p). by repeat split.
    + change (String d a +:+ u)%string with (String d (a +:+ u)).
      cbn [String.prefix]. destruct (Ascii.ascii_dec c d) as [->|]; [|done].
      intros [H|(p2 & -> & Hne & Hp2)]%IH; [by left|].
      right. by exists p2.
Qed.

Lemma prefix_app_self (p u : string) : String.prefix p (p +:+ u) = true.
Proof.
  induction p as [|c p IH]; [by destruct u|].
  change (String c p +:+ u)%string with (String c (p +:+ u)).
  cbn [String.prefix]. by destruct (Ascii.ascii_dec c c).
Qed.

Lemma value_suffix_no_space (a p2 u : string) :
  "(value:"%string = a +:+ p2 → p2 ≠ ""%string →
  String.prefix p2 (String " " u) = false.
Proof.
  intros H Hne.
  do 7 (destruct a as [|? a];
        [change ("" +:+ p2)%string with p2 in H; by subst p2|];
        change (String ?c a +:+ p2)%string with (String c (a +:+ p2)) in H;
        injection H as _ H).
  destruct a; [change ("" +:+ p2)%string with p2 in H; by subst p2|done].
Qed.

Lemma before_first_value (name rest : string) :
  Py.contains " (value:" name = false →
  before_first " (value:" (name +:+ " (value:" +:+ rest) = name.
Proof.
  induction name as [|c name IH]; intros Hc.
  - change ("" +:+ " (value:" +:+ rest)%string with (" (value:" +:+ rest)%string.
    assert (String.prefix " (value:" (" (value:" +:+ rest) = true) as Hp
      by apply prefix_app_self.
    change (" (value:" +:+ rest)%string
      with (String " " ("(value:" +:+ rest)) in *.
    cbn [before_first]. by rewrite Hp.
  - cbn [Py.contains] in Hc. apply orb_false_iff in Hc as [Hpre Hc].
    change (String c name +:+ " (value:" +:+ rest)%string
      with (String c (name +:+ " (value:" +:+ rest)).
    cbn [before_first].
    assert (String.prefix " (value:" (String c (name +:+ " (value:" +:+ rest)) = false)
      as ->.
    { destruct (String.prefix " (value:" (String c (name +:+ " (value:" +:+ rest)))
        eqn:Hp; [exfalso|done].
      apply (prefix_app_split _ (String c name)) in Hp
        as [Hp|(p2 & Heq & Hne & Hp2)]; [congruence|].
      change (String c name +:+ p2)%string with (String c (name +:+ p2)) in Heq.
      injection Heq as _ Heq.
      change (" (value:" +:+ rest)%string with (String " " ("(value:" +:+ rest)) in Hp2.
      by rewrite (value_suffix_no_space name p2 _ Heq Hne) in Hp2. }
    f_equal. by apply IH.
Qed.

Lemma reg_lookup_row (cfg : registry) (row : nat) (name : string) (e : label_entry) :
  NoDup (map fst cfg) → cfg !! row = Some (name, e) →
  reg_lookup name cfg = Some e ∧
  ∀ e', reg_set name e' cfg = <[row := (name, e')]> cfg.
Proof.
  unfold reg_lookup. revert row. induction cfg as [|[n e0] cfg IH]; intros row Hnd Hrow.
  - done.
  - cbn [map fst] in Hnd. apply NoDup_cons in Hnd as [Hn Hnd].
    cbn [find fst reg_set]. destruct row as [|row].
    + injection Hrow as -> ->. by rewrite bool_decide_eq_true_2.
    + cbn in Hrow. rewrite bool_decide_eq_false_2.
      * destruct (IH row Hnd Hrow) as [Hl Hs]. split; [done|].
        intros e'. cbn. by rewrite Hs.
      * intros ->. apply Hn. change (map ?f ?l) with (f <$> l).
        apply list_elem_of_fmap. exists (name, e). split; [done|].
        by eapply list_elem_of_lookup_2.
Qed.

(** X21: edit_label_color changes the colour of the label that is selected
    in the labels list and nothing else: for a registry with one entry per
    name and a selected label whose name does not contain the text that
    separates name and value in the list, the entry of that label gets the
    colour picked, with alpha 255, and keeps its value and its place; the
    names and values of the registry and the mask store stay as they are.
    When the colour dialog is cancelled nothing changes, and without a
    selection the widget only warns. *)
Theorem selected_label_is_recoloured (s : widget) (row : nat) (name : string)
    (e : label_entry) (r g b : Z) :
  NoDup (map fst (labels_config s)) →
  labels_config s !! row = Some (name, e) →
  Py.contains " (value:" name = false →
  let s' := exec (edit_label_color (Some row) (Some (r, g, b))) s in
  labels_config s'
    = <[row := (name, mk_label (value e) (RGBA r g b 255))]> (labels_config s) ∧
  map fst (labels_config s') = map fst (labels_config s) ∧
  reg_values (labels_config s') = reg_values (labels_config s) ∧
  current_masks s' = current_masks s ∧
  exec (edit_label_color (Some row) None) s = s ∧
  (∀ c, snd (run (edit_label_color None c) s)
        = mk_world s [Warning "Please select a label to edit"] []).
Proof.
  intros Hnd Hrow Hname s'.
  destruct (reg_lookup_row _ row name e Hnd Hrow) as [Hlookup Hset].
  assert (update_labels_list (labels_config s) !! row
          = Some (mk_list_item (name +:+ " (value:" +:+ " " +:+ Py.str (value e) +:+ ")")
                    (label_color e)
                    (let '(r, g, b) := rgb (label_color e) in r + g + b <? 384)))
    as Hitem.
  { unfold update_labels_list. change (map ?f ?l) with (f <$> l).
    by rewrite list_lookup_fmap, Hrow. }
  assert (labels_config s'
          = <[row := (name, mk_label (value e) (RGBA r g b 255))]> (labels_config s))
    as Hcfg.
  { unfold s', exec, run, edit_label_color, mbind, M_bind, get.
    cbn [wd mbind option_bind]. rewrite Hitem. cbn [item_text].
    rewrite (before_first_value name _ Hname), Hlookup.
    unfold modify, lift. cbn [wd shown written]. rewrite Hset.
    destruct (mask_layer s); [|done].
    by destruct (create_colormap _). }
  assert (current_masks s' = current_masks s) as Hmasks.
  { unfold s', exec, run, edit_label_color, mbind, M_bind, get.
    cbn [wd mbind option_bind]. rewrite Hitem. cbn [item_text].
    rewrite (before_first_value name _ Hname), Hlookup.
    unfold modify, lift. cbn [wd shown written].
    destruct (mask_layer s); [|done].
    by destruct (create_colormap _). }
  split; [exact Hcfg|]. rewrite Hcfg. split; [|split; [|split; [done|split]]].
  - change (map ?f ?l) with (f <$> l). rewrite list_fmap_insert. cbn [fst].
    apply list_insert_id. by rewrite list_lookup_fmap, Hrow.
  - unfold reg_values. change (map ?f ?l) with (f <$> l).
    rewrite list_fmap_insert. cbn [snd value].
    apply list_insert_id. by rewrite list_lookup_fmap, Hrow.
  - unfold exec, run, edit_label_color, mbind, M_bind, get.
    cbn [wd mbind option_bind]. rewrite Hitem. cbn [item_text].
    by rewrite (before_first_value name _ Hname), Hlookup.
  - intros c. reflexivity.
Qed.

Lemma selected_label_is_recoloured_witness :
  labels_config (exec (edit_label_color (Some 1%nat) (Some (9, 8, 7))) init)
  = [("background"%string, mk_label 0 (RGBA 0 0 0 255));
     ("metastatic_lymph_node"%string, mk_label 1 (RGBA 9 8 7 255));
     ("clean_lymph_node"%string, mk_label 2 (RGBA 0 255 0 255))].
Proof.
  destruct (selected_label_is_recoloured init 1 "metastatic_lymph_node"
              (mk_label 1 (RGBA 255 0 0 255)) 9 8 7) as [H _].
  - apply (bool_decide_unpack _). by vm_compute.
  - reflexivity.
  - reflexivity.
  - exact H.
Defined.

(* --------------------------------------------------------------------- *)
(* Brush strokes and the store                                           *)
(* --------------------------------------------------------------------- *)

(** A stroke on the layer that [create_new_mask] has made. *)
Lemma paint_after_create_new_mask (s : widget) (v : video) (offsets : list nat) :
  current_video s = Some v → cursor_ok s →
  is_Some (create_colormap (labels_config s)) →
  let shown := exec create_new_mask s in
  let painted := exec (paint offsets) shown in
  ∃ l l',
    mask_layer shown = Some l ∧ mask_layer painted = Some l' ∧
    current_masks shown !! current_frame s = Some (layer_data l) ∧
    layer_data l'
      = Np.mk_array (Np.shape (layer_data l))
          (foldr (fun i d => <[i := current_label s mod 65536]> d)
                 (Np.data (layer_data l)) offsets) ∧
    (current_masks s !! current_frame s = None →
     current_masks painted !! current_frame s = Some (layer_data l')) ∧
    (is_Some (current_masks s !! current_frame s) →
     current_masks painted = current_masks s) ∧
    current_masks (exec on_mask_changed painted)
      = <[current_frame s := layer_data l']> (current_masks painted).
Proof.
  intros Hv Hok Hrows shown painted.
  pose proof Hok as (Hmin & Hval & Hvid). rewrite Hv in Hvid.
  destruct Hvid as (HT & Hmax & Hcur).
  assert (shown = mask_shown (frame_shape v) s) as Hshown.
  { unfold shown, exec, run.
    rewrite (create_new_mask_run s v); [done|done|lia|done]. }
  unfold painted. rewrite Hshown. clear shown painted Hshown.
  unfold mask_shown.
  destruct (current_masks s !! current_frame s) as [m|] eqn:Hm.
  - eexists _, _. split; [reflexivity|]. split; [reflexivity|].
    split; [by destruct s|]. split; [by destruct s|].
    split; [done|]. split; [by destruct s|]. by destruct s.
  - eexists _, _. split; [reflexivity|]. split; [reflexivity|].
    split.
    { unfold set_layer, set_masks.
      cbn [current_masks current_frame mask_layer layer_data].
      apply lookup_insert_eq. }
    split; [by destruct s|].
    split.
    { intros _.
      unfold exec, run, paint, mbind, M_bind, get, modify, when, set_layer, set_masks.
      cbn [wd snd fst current_masks current_frame mask_layer layer_data layer_shared].
      apply lookup_insert_eq. }
    split; [by intros [? ?]|]. by destruct s.
Qed.

(** X22: with a video loaded whose frames have rows and columns, masks of
    the frame shape, a registry whose colormap napari takes for the layer
    and a current label in the range of uint16: after
    create_new_mask on a frame without a stored mask the layer paints on
    the very zero mask that was put into the store, so a brush stroke
    changes the stored mask at once. On a frame with a stored mask the
    layer paints on a copy: a brush stroke leaves the store as it is, until
    on_mask_changed writes the mask of the layer back for the current
    frame. The stroke writes the current label at the painted positions. *)
Theorem brush_strokes_reach_the_store (s : widget) (v : video) (offsets : list nat) :
  current_video s = Some v → cursor_ok s → layer_accepted s →
  let shown := exec create_new_mask s in
  let painted := exec (paint offsets) shown in
  ∃ l l',
    mask_layer shown = Some l ∧ mask_layer painted = Some l' ∧
    current_masks shown !! current_frame s = Some (layer_data l) ∧
    layer_data l'
      = Np.mk_array (Np.shape (layer_data l))
          (foldr (fun i d => <[i := current_label s]> d)
                 (Np.data (layer_data l)) offsets) ∧
    (current_masks s !! current_frame s = None →
     current_masks painted !! current_frame s = Some (layer_data l')) ∧
    (is_Some (current_masks s !! current_frame s) →
     current_masks painted = current_masks s) ∧
    current_masks (exec on_mask_changed painted)
      = <[current_frame s := layer_data l']> (current_masks painted).
Proof.
  intros Hv Hok [(rows & Hrows & _) [Hlabel _]] shown painted.
  destruct (paint_after_create_new_mask s v offsets Hv Hok) as (l & l' & H);
    [by eexists|].
  exists l, l'. fold shown painted in H.
  replace (current_label s mod 65536) with (current_label s) in H; [exact H|].
  unfold Np.is_uint16 in Hlabel. symmetry. apply Z.mod_small. lia.
Qed.

Lemma brush_strokes_reach_the_store_witness :
  ∃ l',
    mask_layer (exec (paint [1%nat]) (exec create_new_mask loaded3)) = Some l' ∧
    layer_data l' = Np.mk_array [1; 2]%nat [0; 1] ∧
    current_masks (exec (paint [1%nat]) (exec create_new_mask loaded3))
      = current_masks loaded3.
Proof.
  destruct (brush_strokes_reach_the_store loaded3 clip3 [1%nat])
    as (l & l' & Hl & Hl' & _ & Hd & _ & Hkeep & _).
  - reflexivity.
  - repeat split; done.
  - exact loaded3_accepted.
  - exists l'. split; [exact Hl'|]. split.
    + rewrite Hd. vm_compute in Hl. injection Hl as <-. by vm_compute.
    + apply Hkeep. by eexists.
Defined.
